(** * export_to_web.py: the Firestore-to-JSON export, embedded and verified

    The script [export_to_web.py] reads the collections [concerts],
    [setlists], [artists], [venues] and [concert_photos] and writes a tree of
    JSON files.  This development embeds the transformation that
    [export_to_json] performs, stage by stage, and proves the properties
    that the specification states about it.

    Conventions of the embedding:
    - a document is a record; a field read with [.get(k)] is an [option]
      ([None] = the key is absent), a field read with [.get(k, [])] is a
      list; every stored field has the type the script expects (text,
      integer, flag, list of maps): a stored null or a value of another
      type in a field that is read with a default is outside the
      embedding, and so are failures of the database client and of the
      file system;
    - Python [int] is [Z]; Python [str] is [string], holding the UTF-8
      bytes of the text (the byte order of [String.compare] is the code
      point order of Python on UTF-8 text; [py_len] and [py_prefix] count
      code points as [len] and slices do);
    - a [dict] (insertion-ordered) is an association list without
      duplicate keys, see [PyDict];
    - the output directory is an explicit state [FS], and the run is a
      state-and-exception computation over it. *)

From Stdlib Require Import List String Ascii ZArith QArith Bool Lia.
From Stdlib Require Import Permutation Sorted.
Import ListNotations.

Local Open Scope string_scope.
Local Open Scope Z_scope.

Set Implicit Arguments.

(* ================================================================= *)
(** ** Python values *)

(** Truthiness of a string read with [.get]: [None] and [''] are falsy. *)
Definition truthy (o : option string) : bool :=
  match o with
  | Some s => negb (s =? "")%string
  | None => false
  end.

(** Truthiness of a flag read with [.get]. *)
Definition truthy_flag (o : option bool) : bool :=
  match o with
  | Some b => b
  | None => false
  end.

(** [o.get(k, d)] once the field has been read as an option. *)
Definition get_or {A} (o : option A) (d : A) : A :=
  match o with
  | Some a => a
  | None => d
  end.

(** Keys of dictionaries: a type with a boolean equality ([==] on keys). *)
Class PyKey (K : Type) := key_eqb : K -> K -> bool.

#[global] Instance string_PyKey : PyKey string := String.eqb.
#[global] Instance Z_PyKey : PyKey Z := Z.eqb.

Definition option_eqb {A} (eqb : A -> A -> bool) (x y : option A) : bool :=
  match x, y with
  | Some a, Some b => eqb a b
  | None, None => true
  | _, _ => false
  end.

#[global] Instance option_PyKey {K} `{PyKey K} : PyKey (option K) :=
  option_eqb key_eqb.

#[global] Instance pair_PyKey {K1 K2} `{PyKey K1} `{PyKey K2} : PyKey (K1 * K2) :=
  fun p q => key_eqb (fst p) (fst q) && key_eqb (snd p) (snd q).

(* ================================================================= *)
(** ** Insertion-ordered dictionaries *)

Module PyDict.
Section Dict.
Context {K V : Type} `{PyKey K}.

Definition t := list (K * V).

(** [d.get(k)] *)
Fixpoint get (k : K) (d : t) : option V :=
  match d with
  | [] => None
  | (k', v) :: d' => if key_eqb k k' then Some v else get k d'
  end.

(** [k in d] *)
Definition mem (k : K) (d : t) : bool :=
  match get k d with Some _ => true | None => false end.

(** [d[k] = v]: an existing key keeps its place, a new one goes last. *)
Fixpoint set (k : K) (v : V) (d : t) : t :=
  match d with
  | [] => [(k, v)]
  | (k', v') :: d' =>
      if key_eqb k k' then (k', v) :: d' else (k', v') :: set k v d'
  end.

(** [d[k] = f(d[k])] on a [defaultdict] whose factory yields [dflt]. *)
Definition upd (dflt : V) (f : V -> V) (k : K) (d : t) : t :=
  set k (f (get_or (get k d) dflt)) d.

(** [del d[k]] where [k] may be absent. *)
Definition remove (k : K) (d : t) : t :=
  filter (fun kv => negb (key_eqb k (fst kv))) d.

Definition keys (d : t) : list K := map fst d.
Definition values (d : t) : list V := map snd d.

End Dict.
Arguments t : clear implicits.
End PyDict.

(* ================================================================= *)
(** ** Python built-ins used by the script *)

(** [sorted(l, key=k)] is stable.  [insert_by] places an element before
    the first element it is [leb] to, so elements with equal keys keep
    their input order; any stable sort returns this same list. *)
Fixpoint insert_by {A} (leb : A -> A -> bool) (x : A) (l : list A) : list A :=
  match l with
  | [] => [x]
  | y :: l' => if leb x y then x :: l else y :: insert_by leb x l'
  end.

Definition sorted_by {A} (leb : A -> A -> bool) (l : list A) : list A :=
  fold_right (insert_by leb) [] l.

(** Order of the tuples [(int, str)] used as sort keys. *)
Definition key_leb (k1 k2 : Z * string) : bool :=
  (fst k1 <? fst k2) || ((fst k1 =? fst k2) && String.leb (snd k1) (snd k2)).

(** Order of the tuples [(int, int)]. *)
Definition pair_leb (k1 k2 : Z * Z) : bool :=
  (fst k1 <? fst k2) || ((fst k1 =? fst k2) && (snd k1 <=? snd k2)).

(** [sorted(l, key=k)] and [sorted(l, key=k, reverse=True)] for an integer
    key; [reverse=True] also keeps equal elements in input order. *)
Definition sorted_asc {A} (key : A -> Z) : list A -> list A :=
  sorted_by (fun x y => key x <=? key y).

Definition sorted_desc {A} (key : A -> Z) : list A -> list A :=
  sorted_by (fun x y => key y <=? key x).

(** [max(x :: l, key=k)]: the running best is replaced only by a strictly
    larger key, so the first maximal element is returned. *)
Fixpoint max_from {A} (key : A -> Z) (best : A) (l : list A) : A :=
  match l with
  | [] => best
  | x :: l' => if key best <? key x then max_from key x l' else max_from key best l'
  end.

Definition py_max {A} (key : A -> Z) (l : list A) : option A :=
  match l with
  | [] => None
  | x :: l' => Some (max_from key x l')
  end.

(** [sum(...)] over integers, and [len]. *)
Definition zsum (l : list Z) : Z := fold_left Z.add l 0.
Definition len {A} (l : list A) : Z := Z.of_nat (List.length l).

(** [sep.join(l)] *)
Definition join (sep : string) (l : list string) : string := String.concat sep l.

(** [l[:n]] *)
Definition take {A} (n : nat) (l : list A) : list A := firstn n l.

(** [set()] of strings with [add], as the list of distinct members. *)
Definition set_add (x : string) (s : list string) : list string :=
  if existsb (String.eqb x) s then s else (s ++ [x])%list.

(** *** Text

    A [str] is held as its UTF-8 bytes, and [len] and slices count code
    points.  In UTF-8 every code point has exactly one byte that is not a
    continuation byte ([10xxxxxx]), so both are read off the bytes.  (A
    byte string that is not well-formed UTF-8 is the encoding of no
    [str]; the functions are defined on it, and mean nothing there.) *)
Definition byte_of (c : ascii) : Z := Z.of_nat (nat_of_ascii c).

Definition is_continuation (c : ascii) : bool :=
  (128 <=? byte_of c) && (byte_of c <? 192).

(** [len(s)] *)
Fixpoint py_len (s : string) : nat :=
  match s with
  | EmptyString => O
  | String c s' => if is_continuation c then py_len s' else S (py_len s')
  end.

(** [s[:n]] *)
Fixpoint py_prefix (n : nat) (s : string) : string :=
  match s with
  | EmptyString => EmptyString
  | String c s' =>
      if is_continuation c then String c (py_prefix n s')
      else match n with
           | O => EmptyString
           | S m => String c (py_prefix m s')
           end
  end.

(** The code points of the text: [more] continuation bytes are still due
    for the code point whose leading bits are [acc]. *)
Fixpoint code_points_from (more : nat) (acc : Z) (s : string) : list Z :=
  match s with
  | EmptyString => []
  | String c s' =>
      let b := byte_of c in
      match more with
      | O =>
          if b <? 192 then b :: code_points_from 0 0 s'
          else if b <? 224 then code_points_from 1 (b - 192) s'
          else if b <? 240 then code_points_from 2 (b - 224) s'
          else code_points_from 3 (b - 240) s'
      | S O => (64 * acc + (b - 128)) :: code_points_from 0 0 s'
      | S m => code_points_from m (64 * acc + (b - 128)) s'
      end
  end.

Definition code_points (s : string) : list Z := code_points_from 0 0 s.

Fixpoint is_ascii (s : string) : bool :=
  match s with
  | EmptyString => true
  | String c s' => (byte_of c <? 128) && is_ascii s'
  end.

(** *** [int(s)] on text

    CPython first rewrites a text that is not pure ASCII: a code point
    from 127 on becomes a blank if [str.isspace] holds of it, its digit if
    it is a decimal digit of the Unicode database, and otherwise ['?'],
    where the rewriting stops.  An ASCII text is taken as it is.  Then
    the blanks [\t \n \v \f \r] and the space are dropped at both ends
    (the separators 28 to 31 are not, although [str.isspace] holds of
    them), one sign is allowed, and the rest must be decimal digits with
    single underscores between digits, 4300 digits at most.  Anything
    else raises [ValueError], here [None]. *)

(** The code points of which [str.isspace] holds. *)
Definition unicode_spaces : list Z :=
  [9; 10; 11; 12; 13; 28; 29; 30; 31; 32; 133; 160; 5760; 8192; 8193; 8194;
   8195; 8196; 8197; 8198; 8199; 8200; 8201; 8202; 8232; 8233; 8239; 8287;
   12288].

Definition unicode_space (ch : Z) : bool := existsb (Z.eqb ch) unicode_spaces.

(** The digits zero of the decimal digits of the Unicode database (version
    14.0, that of CPython 3.11); the nine code points after each are its
    digits one to nine. *)
Definition decimal_zeros : list Z :=
  [48; 1632; 1776; 1984; 2406; 2534; 2662; 2790; 2918; 3046; 3174; 3302;
   3430; 3558; 3664; 3792; 3872; 4160; 4240; 6112; 6160; 6470; 6608; 6784;
   6800; 6992; 7088; 7232; 7248; 42528; 43216; 43264; 43472; 43504; 43600;
   44016; 65296; 66720; 68912; 69734; 69872; 69942; 70096; 70384; 70736;
   70864; 71248; 71360; 71472; 71904; 72016; 72784; 73040; 73120; 92768;
   92864; 93008; 120782; 120792; 120802; 120812; 120822; 123200; 123632;
   125264; 130032].

Definition unicode_decimal (ch : Z) : option Z :=
  match find (fun z => (z <=? ch) && (ch <? z + 10)) decimal_zeros with
  | Some z => Some (ch - z)
  | None => None
  end.

Definition chr (n : Z) : ascii := ascii_of_nat (Z.to_nat n).

Fixpoint to_ascii (l : list Z) : string :=
  match l with
  | [] => EmptyString
  | ch :: l' =>
      if ch <? 127 then String (chr ch) (to_ascii l')
      else if unicode_space ch then String " " (to_ascii l')
      else match unicode_decimal ch with
           | Some d => String (chr (48 + d)) (to_ascii l')
           | None => "?"
           end
  end.

Definition decimal_and_space_to_ascii (s : string) : string :=
  if is_ascii s then s else to_ascii (code_points s).

Definition is_space (c : ascii) : bool :=
  let n := nat_of_ascii c in
  ((9 <=? n) && (n <=? 13) || (n =? 32))%nat.

Definition digit_of (c : ascii) : option Z :=
  let n := nat_of_ascii c in
  if ((48 <=? n) && (n <=? 57))%nat then Some (Z.of_nat (n - 48)) else None.

Fixpoint lstrip (s : string) : string :=
  match s with
  | String c s' => if is_space c then lstrip s' else s
  | EmptyString => s
  end.

Fixpoint rstrip (s : string) : string :=
  match s with
  | String c s' =>
      match rstrip s' with
      | EmptyString => if is_space c then EmptyString else String c EmptyString
      | r => String c r
      end
  | EmptyString => s
  end.

Fixpoint digits (acc : Z) (after_digit : bool) (s : string) : option Z :=
  match s with
  | EmptyString => if after_digit then Some acc else None
  | String c s' =>
      match digit_of c with
      | Some d => digits (10 * acc + d) true s'
      | None =>
          if (Ascii.eqb c "_" && after_digit)%bool then digits acc false s' else None
      end
  end.

Fixpoint count_digits (s : string) : nat :=
  match s with
  | EmptyString => O
  | String c s' =>
      match digit_of c with
      | Some _ => S (count_digits s')
      | None => count_digits s'
      end
  end.

Definition py_int (s : string) : option Z :=
  let t := rstrip (lstrip (decimal_and_space_to_ascii s)) in
  if (4300 <? count_digits t)%nat then None
  else
    match t with
    | String "-" r => option_map Z.opp (digits 0 false r)
    | String "+" r => digits 0 false r
    | r => digits 0 false r
    end.

(** *** File names

    [Path(name).stem] cuts the last suffix: the text from the last dot,
    unless that dot is the first or the last character. *)
Fixpoint rfind_dot (s : string) : option nat :=
  match s with
  | EmptyString => None
  | String c s' =>
      match rfind_dot s' with
      | Some i => Some (S i)
      | None => if Ascii.eqb c "." then Some O else None
      end
  end.

Definition stem (name : string) : string :=
  match rfind_dot name with
  | Some i =>
      if ((0 <? i) && (i <? String.length name - 1))%nat
      then substring 0 i name else name
  | None => name
  end.

Fixpoint ends_with (suffix s : string) : bool :=
  (s =? suffix)%string ||
  match s with
  | String _ s' => ends_with suffix s'
  | EmptyString => false
  end.

(** The names that [glob('*.json')] selects. *)
Definition glob_json (name : string) : bool := ends_with ".json" name.

(* ================================================================= *)
(** ** Documents of the source database *)

(** An entry of a concert's [artists] array. *)
Module Artist.
Record t := mk {
  artist_id : option string;
  artist_name : option string;
  role : option string
}.
End Artist.

Module Concert.
Record t := mk {
  show_number : option Z;
  date : option string;
  festival_name : option string;
  venue_id : option string;
  venue_name : option string;
  city : option string;
  state : option string;
  artists : list Artist.t;
  setlist_status : option string;
  has_setlist : option bool;
  opening_song : option string;
  closing_song : option string
}.
End Concert.

Module Song.
Record t := mk {
  position : option Z;
  name : option string;
  set_name : option string;
  encore : option Z;
  is_cover : option bool;
  cover_artist : option string;
  guest_artist : option string
}.
End Song.

Module Setlist.
Record t := mk {
  concert_id : option string;
  artist_id : option string;
  artist_name : option string;
  songs : list Song.t;
  song_count : option Z;
  has_encore : option bool;
  tour_name : option string;
  setlistfm_url : option string
}.
End Setlist.

(** A document of [artists]; only [canonical_name] is read. *)
Module ArtistDoc.
Record t := mk { canonical_name : option string }.
End ArtistDoc.

Module VenueDoc.
Record t := mk {
  canonical_name : option string;
  city : option string;
  state : option string
}.
End VenueDoc.

(** A document of [concert_photos]; [uploaded_at] holds the timestamp by
    its [isoformat()] text. *)
Module Photo.
Record t := mk {
  user_name : option string;
  user_photo : option string;
  download_url : option string;
  uploaded_at : option string;
  caption : option string;
  file_type : option string
}.
End Photo.

(** What the database client returns during one run.  A stream is the list
    of its documents, each a pair of the document id and its fields;
    [concerts] is the stream of the query ordered by date, descending;
    [photos_of c] is the stream of the photo query for concert [c];
    [now] is [datetime.now().isoformat()]. *)
Record Db := {
  concerts : list (string * Concert.t);
  setlists : list Setlist.t;
  artists : list (string * ArtistDoc.t);
  venues : list (string * VenueDoc.t);
  photos_of : string -> list (string * Photo.t);
  now : string
}.

(* ================================================================= *)
(** ** JSON values written by the script *)

(** An element of [concerts.json]. *)
Module ConcertRow.
Record t := mk {
  id : string;
  show_number : option Z;
  date : string;
  festival_name : option string;
  venue : string;
  city : string;
  state : string;
  artists : string;
  hasSetlist : bool;
  setlist_status : string
}.
End ConcertRow.

(** A song of a detail file; [guest_artist = None] is an omitted key. *)
Module SongObj.
Record t := mk {
  position : Z;
  name : string;
  set_name : string;
  encore : Z;
  is_cover : bool;
  cover_artist : option string;
  guest_artist : option string
}.
End SongObj.

Module PhotoObj.
Record t := mk {
  id : string;
  user_name : string;
  user_photo : string;
  download_url : string;
  uploaded_at : option string;
  caption : string;
  file_type : string
}.
End PhotoObj.

(** An element of [setlists] in a detail file of the multi-setlist shape;
    [tour_name = None] is an omitted key. *)
Module SetlistObj.
Record t := mk {
  artist_id : option string;
  artist_name : option string;
  artist_role : string;
  setlistfm_url : option string;
  song_count : Z;
  has_encore : bool;
  songs : list SongObj.t;
  tour_name : option string
}.
End SetlistObj.

(** The keys that depend on the number of setlists. *)
Inductive DetailShape :=
| SingleSetlist (setlistfm_url : option string) (song_count : Z)
    (has_encore : bool) (songs : list SongObj.t)
| MultiSetlist (setlists : list SetlistObj.t) (total_song_count : Z)
    (has_encore : bool).

(** A file of [concert_details/]; [tour_name = None] is an omitted key. *)
Module ConcertDetail.
Record t := mk {
  id : string;
  show_number : option Z;
  date : string;
  festival_name : option string;
  venue : string;
  city : string;
  state : string;
  artists : list (string * string);
  photos : list PhotoObj.t;
  photo_count : Z;
  shape : DetailShape;
  tour_name : option string
}.
End ConcertDetail.

Module ArtistRow.
Record t := mk { id : string; name : string; concert_count : Z }.
End ArtistRow.

Module VenueRow.
Record t := mk {
  id : string; name : string; city : string; state : string; concert_count : Z
}.
End VenueRow.

Module Stats.
Record t := mk {
  total_concerts : Z;
  concerts_with_setlists : Z;
  total_songs : Z;
  total_artists : Z;
  total_venues : Z;
  top_artists : list (string * Z);
  top_venues : list (string * Z);
  concerts_by_year : list (Z * Z);
  generated_at : string
}.
End Stats.

(** An element of [all_songs]. *)
Module SongEntry.
Record t := mk { name : string; times_heard : Z; is_mostly_cover : bool }.
End SongEntry.

(** A table [artist -> [{song, times}]]. *)
Definition SongTable := PyDict.t string (list (string * Z)).

Module SongsData.
Record t := mk {
  all_songs : list SongEntry.t;
  opening_songs_by_artist : SongTable;
  closing_songs_by_artist : SongTable;
  encore_songs_by_artist : SongTable;
  total_unique_songs : Z
}.
End SongsData.

(** An element of [concerts] in a venue detail file. *)
Module VenueConcert.
Record t := mk {
  id : string;
  show_number : option Z;
  date : string;
  festival_name : option string;
  artists : string;
  has_setlist : bool;
  opening_song : option string;
  closing_song : option string
}.
End VenueConcert.

Module VenueDetail.
Record t := mk {
  id : string; name : string; city : string; state : string;
  concert_count : Z;
  concerts : list VenueConcert.t
}.
End VenueDetail.

(** An element of [concerts] in an artist detail file. *)
Module ArtistConcert.
Record t := mk {
  id : string;
  show_number : option Z;
  date : string;
  festival_name : option string;
  venue : string;
  city : string;
  state : string;
  role : string;
  has_setlist : bool;
  opening_song : option string;
  closing_song : option string
}.
End ArtistConcert.

Module ArtistDetail.
Record t := mk {
  id : string; name : string;
  concert_count : Z;
  top_songs : list (string * Z);
  concerts : list ArtistConcert.t
}.
End ArtistDetail.

(* ================================================================= *)
(** ** The output directory and the run *)

(** The output tree.  A top-level file is [None] while it does not exist;
    a directory maps the names of its files to their contents.  A
    directory holds regular files only, and a document id is a single path
    component (Firestore ids contain no [/]), so [dir / f'{id}.json'] is
    the entry named [id ++ ".json"]. *)
Record FS := {
  concerts_json : option (list ConcertRow.t);
  concert_details : PyDict.t string ConcertDetail.t;
  artists_json : option (list ArtistRow.t);
  venues_json : option (list VenueRow.t);
  stats_json : option Stats.t;
  songs_json : option SongsData.t;
  venue_details : PyDict.t string VenueDetail.t;
  artist_details : PyDict.t string ArtistDetail.t
}.

Inductive Exn :=
| KeyError (key : string)
| ValueError (text : string).

(** A computation that reads and writes the output tree and either
    returns or raises; the tree reached so far survives an exception. *)
Definition Run (A : Type) : Type := FS -> (Exn + A) * FS.

Definition ret {A} (a : A) : Run A := fun fs => (inr a, fs).

Definition raise {A} (e : Exn) : Run A := fun fs => (inl e, fs).

Definition bind {A B} (m : Run A) (k : A -> Run B) : Run B :=
  fun fs =>
    match m fs with
    | (inr a, fs') => k a fs'
    | (inl e, fs') => (inl e, fs')
    end.

Notation "x <- m ;; k" := (bind m (fun x => k))
  (at level 61, m at next level, right associativity).
Notation "m ;;; k" := (bind m (fun _ => k))
  (at level 61, right associativity).

(** [for x in l: body(x)] *)
Fixpoint for_each {A} (l : list A) (body : A -> Run unit) : Run unit :=
  match l with
  | [] => ret tt
  | x :: l' => body x ;;; for_each l' body
  end.

(** A write to the tree: always succeeds in the model. *)
Definition modify (f : FS -> FS) : Run unit := fun fs => (inr tt, f fs).

Definition read {A} (f : FS -> A) : Run A := fun fs => (inr (f fs), fs).

(** [d[k]] on a plain dict. *)
Definition lookup {V} (k : string) (d : PyDict.t string V) : Run V :=
  match PyDict.get k d with
  | Some v => ret v
  | None => raise (KeyError k)
  end.

(** [int(s)] *)
Definition int_of (s : string) : Run Z :=
  match py_int s with
  | Some z => ret z
  | None => raise (ValueError s)
  end.

Definition write_concerts_json v : Run unit :=
  modify (fun fs =>
    {| concerts_json := Some v; concert_details := concert_details fs;
       artists_json := artists_json fs; venues_json := venues_json fs;
       stats_json := stats_json fs; songs_json := songs_json fs;
       venue_details := venue_details fs; artist_details := artist_details fs |}).

Definition with_concert_details (f : PyDict.t string ConcertDetail.t -> PyDict.t string ConcertDetail.t) : Run unit :=
  modify (fun fs =>
    {| concerts_json := concerts_json fs; concert_details := f (concert_details fs);
       artists_json := artists_json fs; venues_json := venues_json fs;
       stats_json := stats_json fs; songs_json := songs_json fs;
       venue_details := venue_details fs; artist_details := artist_details fs |}).

Definition write_artists_json v : Run unit :=
  modify (fun fs =>
    {| concerts_json := concerts_json fs; concert_details := concert_details fs;
       artists_json := Some v; venues_json := venues_json fs;
       stats_json := stats_json fs; songs_json := songs_json fs;
       venue_details := venue_details fs; artist_details := artist_details fs |}).

Definition write_venues_json v : Run unit :=
  modify (fun fs =>
    {| concerts_json := concerts_json fs; concert_details := concert_details fs;
       artists_json := artists_json fs; venues_json := Some v;
       stats_json := stats_json fs; songs_json := songs_json fs;
       venue_details := venue_details fs; artist_details := artist_details fs |}).

Definition write_stats_json v : Run unit :=
  modify (fun fs =>
    {| concerts_json := concerts_json fs; concert_details := concert_details fs;
       artists_json := artists_json fs; venues_json := venues_json fs;
       stats_json := Some v; songs_json := songs_json fs;
       venue_details := venue_details fs; artist_details := artist_details fs |}).

Definition write_songs_json v : Run unit :=
  modify (fun fs =>
    {| concerts_json := concerts_json fs; concert_details := concert_details fs;
       artists_json := artists_json fs; venues_json := venues_json fs;
       stats_json := stats_json fs; songs_json := Some v;
       venue_details := venue_details fs; artist_details := artist_details fs |}).

Definition with_venue_details (f : PyDict.t string VenueDetail.t -> PyDict.t string VenueDetail.t) : Run unit :=
  modify (fun fs =>
    {| concerts_json := concerts_json fs; concert_details := concert_details fs;
       artists_json := artists_json fs; venues_json := venues_json fs;
       stats_json := stats_json fs; songs_json := songs_json fs;
       venue_details := f (venue_details fs); artist_details := artist_details fs |}).

Definition with_artist_details (f : PyDict.t string ArtistDetail.t -> PyDict.t string ArtistDetail.t) : Run unit :=
  modify (fun fs =>
    {| concerts_json := concerts_json fs; concert_details := concert_details fs;
       artists_json := artists_json fs; venues_json := venues_json fs;
       stats_json := stats_json fs; songs_json := songs_json fs;
       venue_details := venue_details fs; artist_details := f (artist_details fs) |}).

(* ================================================================= *)
(** ** Stage 1: the concert list *)

(** [a.get('role') in ['headliner', 'festival_performer']] *)
Definition is_primary (a : Artist.t) : bool :=
  match Artist.role a with
  | Some r => (r =? "headliner")%string || (r =? "festival_performer")%string
  | None => false
  end.

Definition primary_artists (c : Concert.t) : list Artist.t :=
  filter is_primary (Concert.artists c).

Definition artist_names (c : Concert.t) : string :=
  join ", " (map (fun a => get_or (Artist.artist_name a) "") (primary_artists c)).

(** The record appended to [concerts_list], with its placeholder flag. *)
Definition concert_row (doc : string * Concert.t) : ConcertRow.t :=
  let (concert_id, data) := doc in
  {| ConcertRow.id := concert_id;
     ConcertRow.show_number := Concert.show_number data;
     ConcertRow.date := get_or (Concert.date data) "";
     ConcertRow.festival_name := Concert.festival_name data;
     ConcertRow.venue := get_or (Concert.venue_name data) "";
     ConcertRow.city := get_or (Concert.city data) "";
     ConcertRow.state := get_or (Concert.state data) "";
     ConcertRow.artists := artist_names data;
     ConcertRow.hasSetlist := false;
     ConcertRow.setlist_status := get_or (Concert.setlist_status data) "not_researched" |}.

Definition concerts_list (db : Db) : list ConcertRow.t :=
  map concert_row (concerts db).

Definition all_concerts_data (db : Db) : PyDict.t string Concert.t :=
  fold_left (fun d doc => PyDict.set (fst doc) (snd doc) d) (concerts db) [].

(* ================================================================= *)
(** ** Stage 2: concert details *)

(** [concert_id and concert_id in all_concerts_data] *)
Definition groupable (acd : PyDict.t string Concert.t) (s : Setlist.t) : option string :=
  match Setlist.concert_id s with
  | Some cid => if negb (cid =? "")%string && PyDict.mem cid acd then Some cid else None
  | None => None
  end.

(** The [defaultdict(list)] filled by the grouping loop. *)
Definition setlists_by_concert (acd : PyDict.t string Concert.t)
    (docs : list Setlist.t) : PyDict.t string (list Setlist.t) :=
  fold_left
    (fun d s =>
       match groupable acd s with
       | Some cid => PyDict.upd [] (fun l => (l ++ [s])%list) cid d
       | None => d
       end)
    docs [].

Definition photo_obj (doc : string * Photo.t) : PhotoObj.t :=
  let (photo_id, p) := doc in
  {| PhotoObj.id := photo_id;
     PhotoObj.user_name := get_or (Photo.user_name p) "";
     PhotoObj.user_photo := get_or (Photo.user_photo p) "";
     PhotoObj.download_url := get_or (Photo.download_url p) "";
     PhotoObj.uploaded_at := Photo.uploaded_at p;
     PhotoObj.caption := get_or (Photo.caption p) "";
     PhotoObj.file_type := get_or (Photo.file_type p) "" |}.

Definition song_obj (song : Song.t) : SongObj.t :=
  {| SongObj.position := get_or (Song.position song) 0;
     SongObj.name := get_or (Song.name song) "";
     SongObj.set_name := get_or (Song.set_name song) "";
     SongObj.encore := get_or (Song.encore song) 0;
     SongObj.is_cover := get_or (Song.is_cover song) false;
     SongObj.cover_artist := Song.cover_artist song;
     SongObj.guest_artist :=
       if truthy (Song.guest_artist song) then Song.guest_artist song else None |}.

Definition formatted_songs (s : Setlist.t) : list SongObj.t :=
  map song_obj (Setlist.songs s).

(** [{a.get('artist_name'): a.get('role', 'headliner') for a in ...}]: a
    name listed twice keeps the role of its last entry. *)
Definition artist_roles (c : Concert.t) : PyDict.t (option string) string :=
  fold_left
    (fun d a => PyDict.set (Artist.artist_name a) (get_or (Artist.role a) "headliner") d)
    (Concert.artists c) [].

(** [role_priority.get(r, 2)] *)
Definition role_priority (r : string) : Z :=
  if (r =? "opener")%string then 1
  else if (r =? "headliner")%string then 2
  else if (r =? "festival_performer")%string then 2
  else 2.

(** [artist_roles.get(s.get('artist_name'), 'headliner')] *)
Definition role_of (c : Concert.t) (s : Setlist.t) : string :=
  get_or (PyDict.get (Setlist.artist_name s) (artist_roles c)) "headliner".

Definition sort_key (c : Concert.t) (s : Setlist.t) : Z * string :=
  (role_priority (role_of c s), get_or (Setlist.artist_name s) "").

Definition sorted_setlists (c : Concert.t) (l : list Setlist.t) : list Setlist.t :=
  sorted_by (fun x y => key_leb (sort_key c x) (sort_key c y)) l.

Definition setlist_obj (c : Concert.t) (s : Setlist.t) : SetlistObj.t :=
  {| SetlistObj.artist_id := Setlist.artist_id s;
     SetlistObj.artist_name := Setlist.artist_name s;
     SetlistObj.artist_role := role_of c s;
     SetlistObj.setlistfm_url := Setlist.setlistfm_url s;
     SetlistObj.song_count := get_or (Setlist.song_count s) 0;
     SetlistObj.has_encore := get_or (Setlist.has_encore s) false;
     SetlistObj.songs := formatted_songs s;
     SetlistObj.tour_name :=
       if truthy (Setlist.tour_name s) then Setlist.tour_name s else None |}.

(** The four accumulators of the loop over the sorted setlists. *)
Record MultiAcc := {
  formatted_setlists : list SetlistObj.t;
  total_song_count : Z;
  has_any_encore : bool;
  tour_names : list string
}.

Definition multi_step (c : Concert.t) (acc : MultiAcc) (s : Setlist.t) : MultiAcc :=
  {| formatted_setlists := (formatted_setlists acc ++ [setlist_obj c s])%list;
     total_song_count := total_song_count acc + get_or (Setlist.song_count s) 0;
     has_any_encore :=
       if get_or (Setlist.has_encore s) false then true else has_any_encore acc;
     tour_names :=
       match Setlist.tour_name s with
       | Some t => if truthy (Some t) then set_add t (tour_names acc) else tour_names acc
       | None => tour_names acc
       end |}.

Definition multi_loop (c : Concert.t) (l : list Setlist.t) : MultiAcc :=
  fold_left (multi_step c) (sorted_setlists c l)
    {| formatted_setlists := []; total_song_count := 0;
       has_any_encore := false; tour_names := [] |}.

(** The keys added by the [if len(setlist_list) == 1 ... else ...]. *)
Definition detail_shape (c : Concert.t) (l : list Setlist.t) : DetailShape * option string :=
  match l with
  | [s] =>
      (SingleSetlist (Setlist.setlistfm_url s) (get_or (Setlist.song_count s) 0)
         (get_or (Setlist.has_encore s) false) (formatted_songs s),
       if truthy (Setlist.tour_name s) then Setlist.tour_name s else None)
  | _ =>
      let acc := multi_loop c l in
      (MultiSetlist (formatted_setlists acc) (total_song_count acc) (has_any_encore acc),
       match tour_names acc with
       | [t] => Some t
       | _ => None
       end)
  end.

Definition concert_detail (db : Db) (concert_id : string) (c : Concert.t)
    (l : list Setlist.t) : ConcertDetail.t :=
  let photos := map photo_obj (photos_of db concert_id) in
  {| ConcertDetail.id := concert_id;
     ConcertDetail.show_number := Concert.show_number c;
     ConcertDetail.date := get_or (Concert.date c) "";
     ConcertDetail.festival_name := Concert.festival_name c;
     ConcertDetail.venue := get_or (Concert.venue_name c) "";
     ConcertDetail.city := get_or (Concert.city c) "";
     ConcertDetail.state := get_or (Concert.state c) "";
     ConcertDetail.artists :=
       map (fun a => (get_or (Artist.artist_name a) "", get_or (Artist.role a) ""))
         (Concert.artists c);
     ConcertDetail.photos := photos;
     ConcertDetail.photo_count := len photos;
     ConcertDetail.shape := fst (detail_shape c l);
     ConcertDetail.tour_name := snd (detail_shape c l) |}.

(** The loop that writes one detail file per group. *)
Definition write_concert_details (db : Db) (acd : PyDict.t string Concert.t)
    (groups : PyDict.t string (list Setlist.t)) : Run unit :=
  for_each groups
    (fun item =>
       c <- lookup (fst item) acd ;;
       with_concert_details
         (PyDict.set (fst item ++ ".json") (concert_detail db (fst item) c (snd item)))).

(** The clean-up of stale files: every [*.json] of the directory whose
    stem is not a key of the grouping is unlinked. *)
Definition cleanup_stale (ids : list string) : Run unit :=
  existing <- read (fun fs => filter glob_json (PyDict.keys (concert_details fs))) ;;
  for_each existing
    (fun file =>
       if existsb (String.eqb (stem file)) ids then ret tt
       else with_concert_details (PyDict.remove file)).

(** The second pass over [concerts_list]. *)
Definition update_hasSetlist (ids : list string) (row : ConcertRow.t) : ConcertRow.t :=
  if existsb (String.eqb (ConcertRow.id row)) ids then
    {| ConcertRow.id := ConcertRow.id row;
       ConcertRow.show_number := ConcertRow.show_number row;
       ConcertRow.date := ConcertRow.date row;
       ConcertRow.festival_name := ConcertRow.festival_name row;
       ConcertRow.venue := ConcertRow.venue row;
       ConcertRow.city := ConcertRow.city row;
       ConcertRow.state := ConcertRow.state row;
       ConcertRow.artists := ConcertRow.artists row;
       ConcertRow.hasSetlist := true;
       ConcertRow.setlist_status := ConcertRow.setlist_status row |}
  else row.

(* ================================================================= *)
(** ** Stages 3 and 4: the artist and venue directories *)

(** [d[k] += 1] on a [defaultdict(int)]. *)
Definition incr {K} `{PyKey K} (k : K) (d : PyDict.t K Z) : PyDict.t K Z :=
  PyDict.upd 0 (fun n => n + 1) k d.

Definition artist_names_map (db : Db) : PyDict.t string string :=
  fold_left
    (fun d doc => PyDict.set (fst doc) (get_or (ArtistDoc.canonical_name (snd doc)) "") d)
    (artists db) [].

(** Every roster entry with a truthy [artist_id] counts, whatever its role. *)
Definition count_roster (counts : PyDict.t string Z) (c : Concert.t) : PyDict.t string Z :=
  fold_left
    (fun d a =>
       match Artist.artist_id a with
       | Some aid => if truthy (Some aid) then incr aid d else d
       | None => d
       end)
    (Concert.artists c) counts.

Definition artist_concert_counts (acd : PyDict.t string Concert.t) : PyDict.t string Z :=
  fold_left count_roster (PyDict.values acd) [].

Definition artist_rows (db : Db) (acd : PyDict.t string Concert.t) : list ArtistRow.t :=
  fold_left
    (fun rows item =>
       let concert_count := get_or (PyDict.get (fst item) (artist_concert_counts acd)) 0 in
       if 0 <? concert_count then
         (rows ++ [ {| ArtistRow.id := fst item; ArtistRow.name := snd item;
                       ArtistRow.concert_count := concert_count |} ])%list
       else rows)
    (artist_names_map db) [].

(** [artists.sort(key=lambda x: (-x['concert_count'], x['name']))] *)
Definition artist_key (a : ArtistRow.t) : Z * string :=
  (- ArtistRow.concert_count a, ArtistRow.name a).

Definition artists_out (db : Db) (acd : PyDict.t string Concert.t) : list ArtistRow.t :=
  sorted_by (fun x y => key_leb (artist_key x) (artist_key y)) (artist_rows db acd).

Definition venue_data_map (db : Db) : PyDict.t string VenueDoc.t :=
  fold_left (fun d doc => PyDict.set (fst doc) (snd doc) d) (venues db) [].

Definition venue_concert_counts (acd : PyDict.t string Concert.t) : PyDict.t string Z :=
  fold_left
    (fun d c =>
       match Concert.venue_id c with
       | Some vid => if truthy (Some vid) then incr vid d else d
       | None => d
       end)
    (PyDict.values acd) [].

Definition venue_rows (db : Db) (acd : PyDict.t string Concert.t) : list VenueRow.t :=
  fold_left
    (fun rows item =>
       let concert_count := get_or (PyDict.get (fst item) (venue_concert_counts acd)) 0 in
       if 0 <? concert_count then
         (rows ++ [ {| VenueRow.id := fst item;
                       VenueRow.name := get_or (VenueDoc.canonical_name (snd item)) "";
                       VenueRow.city := get_or (VenueDoc.city (snd item)) "";
                       VenueRow.state := get_or (VenueDoc.state (snd item)) "";
                       VenueRow.concert_count := concert_count |} ])%list
       else rows)
    (venue_data_map db) [].

Definition venue_key (v : VenueRow.t) : Z * string :=
  (- VenueRow.concert_count v, VenueRow.name v).

Definition venues_out (db : Db) (acd : PyDict.t string Concert.t) : list VenueRow.t :=
  sorted_by (fun x y => key_leb (venue_key x) (venue_key y)) (venue_rows db acd).

(* ================================================================= *)
(** ** Stage 5: statistics *)

(** The loop over a fresh stream of [setlists]: no test on [concert_id]. *)
Definition total_songs (docs : list Setlist.t) : Z :=
  fold_left (fun total data => total + get_or (Setlist.song_count data) 0) docs 0.

(** [for x in l: acc = body(acc, x)] where the body may raise. *)
Fixpoint fold_run {A S} (body : S -> A -> Run S) (l : list A) (acc : S) : Run S :=
  match l with
  | [] => ret acc
  | x :: l' => acc' <- body acc x ;; fold_run body l' acc'
  end.

(** One turn of the loop that fills [concerts_by_year_dict]. *)
Definition year_step (d : PyDict.t Z Z) (c : Concert.t) : Run (PyDict.t Z Z) :=
  let date_str := get_or (Concert.date c) "" in
  if negb (date_str =? "")%string && (4 <=? py_len date_str)%nat then
    year <- int_of (py_prefix 4 date_str) ;;
    ret (incr year d)
  else ret d.

Definition concerts_by_year_dict (acd : PyDict.t string Concert.t) : Run (PyDict.t Z Z) :=
  fold_run year_step (PyDict.values acd) [].

(** [sorted(d.items(), reverse=True)] *)
Definition concerts_by_year (d : PyDict.t Z Z) : list (Z * Z) :=
  sorted_by (fun x y => pair_leb y x) d.

Definition stats (db : Db) (acd : PyDict.t string Concert.t)
    (ids : list string) (artists : list ArtistRow.t) (venues : list VenueRow.t)
    (by_year : PyDict.t Z Z) : Stats.t :=
  {| Stats.total_concerts := len (filter (fun c => truthy (Concert.date c)) (PyDict.values acd));
     Stats.concerts_with_setlists := len ids;
     Stats.total_songs := total_songs (setlists db);
     Stats.total_artists := len (filter (fun a => 0 <? ArtistRow.concert_count a) artists);
     Stats.total_venues := len (filter (fun v => 0 <? VenueRow.concert_count v) venues);
     Stats.top_artists :=
       map (fun a => (ArtistRow.name a, ArtistRow.concert_count a)) (take 10 artists);
     Stats.top_venues :=
       map (fun v => (VenueRow.name v, VenueRow.concert_count v)) (take 10 venues);
     Stats.concerts_by_year := concerts_by_year by_year;
     Stats.generated_at := now db |}.

(* ================================================================= *)
(** ** Stage 6: song analytics *)

(** A [defaultdict(lambda: defaultdict(int))]. *)
Definition Counts2 := PyDict.t string (PyDict.t string Z).

(** [t[a][n] += 1] *)
Definition incr2 (a n : string) (t : Counts2) : Counts2 :=
  PyDict.upd [] (incr n) a t.

(** [t[a][n]] read without inserting; an absent entry counts 0. *)
Definition get2 (a n : string) (t : Counts2) : Z :=
  get_or (PyDict.get n (get_or (PyDict.get a t) [])) 0.

Definition count_of (n : string) (d : PyDict.t string Z) : Z :=
  get_or (PyDict.get n d) 0.

Record SongAcc := {
  song_counts : PyDict.t string Z;
  song_cover_counts : PyDict.t string Z;
  opening_songs : Counts2;
  closing_songs : Counts2;
  encore_songs : Counts2
}.

Definition empty_acc : SongAcc :=
  {| song_counts := []; song_cover_counts := []; opening_songs := [];
     closing_songs := []; encore_songs := [] |}.

(** [position == 1 and (set_name in ['Main Set', ''] or encore == 0)] *)
Definition is_opening (song : Song.t) : bool :=
  (get_or (Song.position song) 0 =? 1) &&
  ((get_or (Song.set_name song) "" =? "Main Set")%string
   || (get_or (Song.set_name song) "" =? "")%string
   || (get_or (Song.encore song) 0 =? 0)).

Definition is_encore (song : Song.t) : bool := 0 <? get_or (Song.encore song) 0.

(** The body of [for artist in primary_artists] for one song. *)
Definition credit_song (song_name : string) (song : Song.t) (acc : SongAcc)
    (artist : Artist.t) : SongAcc :=
  let artist_name := get_or (Artist.artist_name artist) "" in
  {| song_counts := song_counts acc;
     song_cover_counts := song_cover_counts acc;
     opening_songs :=
       if is_opening song then incr2 artist_name song_name (opening_songs acc)
       else opening_songs acc;
     closing_songs := closing_songs acc;
     encore_songs :=
       if is_encore song then incr2 artist_name song_name (encore_songs acc)
       else encore_songs acc |}.

(** The body of [for song in songs]. *)
Definition song_step (primary : list Artist.t) (acc : SongAcc) (song : Song.t) : SongAcc :=
  let song_name := get_or (Song.name song) "" in
  if (song_name =? "")%string then acc
  else
    let acc1 :=
      {| song_counts := incr song_name (song_counts acc);
         song_cover_counts :=
           if truthy_flag (Song.is_cover song)
           then incr song_name (song_cover_counts acc)
           else song_cover_counts acc;
         opening_songs := opening_songs acc;
         closing_songs := closing_songs acc;
         encore_songs := encore_songs acc |} in
    fold_left (credit_song song_name song) primary acc1.

Definition non_encore_songs (songs : list Song.t) : list Song.t :=
  filter (fun s => get_or (Song.encore s) 0 =? 0) songs.

(** [max(non_encore_songs, key=lambda s: s.get('position', 0))], [None]
    when the list is empty and the [if] skips the block. *)
Definition last_song (songs : list Song.t) : option Song.t :=
  py_max (fun s => get_or (Song.position s) 0) (non_encore_songs songs).

Definition credit_closing (last_song_name : string) (acc : SongAcc)
    (artist : Artist.t) : SongAcc :=
  {| song_counts := song_counts acc;
     song_cover_counts := song_cover_counts acc;
     opening_songs := opening_songs acc;
     closing_songs :=
       incr2 (get_or (Artist.artist_name artist) "") last_song_name (closing_songs acc);
     encore_songs := encore_songs acc |}.

Definition closing_step (primary : list Artist.t) (songs : list Song.t)
    (acc : SongAcc) : SongAcc :=
  match last_song songs with
  | Some last =>
      let last_song_name := get_or (Song.name last) "" in
      if (last_song_name =? "")%string then acc
      else fold_left (credit_closing last_song_name) primary acc
  | None => acc
  end.

(** [all_concerts_data[concert_id]] after the test
    [concert_id not in all_concerts_data]; [None] is the [continue]. *)
Definition concert_of (acd : PyDict.t string Concert.t) (s : Setlist.t) : option Concert.t :=
  match Setlist.concert_id s with
  | Some cid => PyDict.get cid acd
  | None => None
  end.

(** The body of [for setlist_doc in setlists_docs]. *)
Definition setlist_step (acd : PyDict.t string Concert.t) (acc : SongAcc)
    (s : Setlist.t) : SongAcc :=
  match concert_of acd s with
  | None => acc
  | Some concert_data =>
      let songs := Setlist.songs s in
      let primary := primary_artists concert_data in
      closing_step primary songs (fold_left (song_step primary) songs acc)
  end.

Definition song_pass (acd : PyDict.t string Concert.t) (docs : list Setlist.t) : SongAcc :=
  fold_left (setlist_step acd) docs empty_acc.

(** [times_heard / 2]: true division.  The quotient of an integer below
    2^53 by 2 is a float without rounding, and Python compares an [int]
    with a [float] exactly, so the rational quotient is the value
    compared. *)
Definition true_div (a b : Z) : Q := inject_Z a / inject_Z b.

Definition gt_int_float (k : Z) (x : Q) : bool := negb (Qle_bool (inject_Z k) x).

Definition song_entry (cover : PyDict.t string Z) (item : string * Z) : SongEntry.t :=
  let (song_name, times_heard) := item in
  let times_as_cover := get_or (PyDict.get song_name cover) 0 in
  {| SongEntry.name := song_name;
     SongEntry.times_heard := times_heard;
     SongEntry.is_mostly_cover := gt_int_float times_as_cover (true_div times_heard 2) |}.

Definition all_songs (acc : SongAcc) : list SongEntry.t :=
  sorted_desc SongEntry.times_heard (map (song_entry (song_cover_counts acc)) (song_counts acc)).

(** The three tables: entries heard at least twice, most frequent first;
    an artist without such an entry gets no key. *)
Definition by_artist (table : Counts2) : SongTable :=
  fold_left
    (fun out item =>
       match filter (fun st => 2 <=? snd st) (snd item) with
       | [] => out
       | filtered => PyDict.set (fst item) (sorted_desc snd filtered) out
       end)
    table [].

Definition songs_data (acc : SongAcc) : SongsData.t :=
  {| SongsData.all_songs := all_songs acc;
     SongsData.opening_songs_by_artist := by_artist (opening_songs acc);
     SongsData.closing_songs_by_artist := by_artist (closing_songs acc);
     SongsData.encore_songs_by_artist := by_artist (encore_songs acc);
     SongsData.total_unique_songs := len (all_songs acc) |}.

(* ================================================================= *)
(** ** Stages 7 and 8: venue and artist details *)

(** [l.sort(key=lambda x: x['date'], reverse=True)] *)
Definition sorted_by_date_desc {A} (date : A -> string) : list A -> list A :=
  sorted_by (fun x y => String.leb (date y) (date x)).

Definition venue_concert (item : string * Concert.t) : VenueConcert.t :=
  let (concert_id, concert_data) := item in
  {| VenueConcert.id := concert_id;
     VenueConcert.show_number := Concert.show_number concert_data;
     VenueConcert.date := get_or (Concert.date concert_data) "";
     VenueConcert.festival_name := Concert.festival_name concert_data;
     VenueConcert.artists := artist_names concert_data;
     VenueConcert.has_setlist := get_or (Concert.has_setlist concert_data) false;
     VenueConcert.opening_song := Concert.opening_song concert_data;
     VenueConcert.closing_song := Concert.closing_song concert_data |}.

(** [concert_data.get('venue_id') == venue_id] *)
Definition at_venue (venue_id : string) (item : string * Concert.t) : bool :=
  key_eqb (Concert.venue_id (snd item)) (Some venue_id).

Definition concerts_at_venue (acd : PyDict.t string Concert.t) (venue_id : string)
  : list VenueConcert.t :=
  map venue_concert (filter (at_venue venue_id) acd).

(** The file of one venue, [None] when the loop [continue]s. *)
Definition venue_detail (acd : PyDict.t string Concert.t)
    (item : string * VenueDoc.t) : option VenueDetail.t :=
  let (venue_id, venue_data) := item in
  match concerts_at_venue acd venue_id with
  | [] => None
  | l =>
      Some {| VenueDetail.id := venue_id;
              VenueDetail.name := get_or (VenueDoc.canonical_name venue_data) "";
              VenueDetail.city := get_or (VenueDoc.city venue_data) "";
              VenueDetail.state := get_or (VenueDoc.state venue_data) "";
              VenueDetail.concert_count := len l;
              VenueDetail.concerts := sorted_by_date_desc VenueConcert.date l |}
  end.

Definition write_venue_details (db : Db) (acd : PyDict.t string Concert.t) : Run unit :=
  for_each (venue_data_map db)
    (fun item =>
       match venue_detail acd item with
       | Some v => with_venue_details (PyDict.set (fst item ++ ".json") v)
       | None => ret tt
       end).

(** The pass that fills [artist_songs], keyed by the roster's artist id. *)
Definition artist_songs_step (acd : PyDict.t string Concert.t) (t : Counts2)
    (s : Setlist.t) : Counts2 :=
  match concert_of acd s with
  | None => t
  | Some concert_data =>
      fold_left
        (fun t song =>
           let song_name := get_or (Song.name song) "" in
           if (song_name =? "")%string then t
           else
             fold_left
               (fun t artist =>
                  match Artist.artist_id artist with
                  | Some aid => if truthy (Some aid) then incr2 aid song_name t else t
                  | None => t
                  end)
               (primary_artists concert_data) t)
        (Setlist.songs s) t
  end.

Definition artist_songs (acd : PyDict.t string Concert.t) (docs : list Setlist.t) : Counts2 :=
  fold_left (artist_songs_step acd) docs [].

(** The inner [for artist in ...: if ...: append; break]: the first roster
    entry of the concert with this artist id. *)
Definition artist_concert (artist_id : string) (item : string * Concert.t)
  : option ArtistConcert.t :=
  let (concert_id, concert_data) := item in
  match find (fun a => key_eqb (Artist.artist_id a) (Some artist_id))
             (Concert.artists concert_data) with
  | Some artist =>
      Some {| ArtistConcert.id := concert_id;
              ArtistConcert.show_number := Concert.show_number concert_data;
              ArtistConcert.date := get_or (Concert.date concert_data) "";
              ArtistConcert.festival_name := Concert.festival_name concert_data;
              ArtistConcert.venue := get_or (Concert.venue_name concert_data) "";
              ArtistConcert.city := get_or (Concert.city concert_data) "";
              ArtistConcert.state := get_or (Concert.state concert_data) "";
              ArtistConcert.role := get_or (Artist.role artist) "headliner";
              ArtistConcert.has_setlist := get_or (Concert.has_setlist concert_data) false;
              ArtistConcert.opening_song := Concert.opening_song concert_data;
              ArtistConcert.closing_song := Concert.closing_song concert_data |}
  | None => None
  end.

Definition concerts_for_artist (acd : PyDict.t string Concert.t) (artist_id : string)
  : list ArtistConcert.t :=
  flat_map
    (fun item => match artist_concert artist_id item with Some c => [c] | None => [] end)
    acd.

Definition top_songs (t : Counts2) (artist_id : string) : list (string * Z) :=
  take 10 (sorted_desc snd (get_or (PyDict.get artist_id t) [])).

Definition artist_detail (acd : PyDict.t string Concert.t) (t : Counts2)
    (item : string * string) : option ArtistDetail.t :=
  let (artist_id, artist_name) := item in
  match concerts_for_artist acd artist_id with
  | [] => None
  | l =>
      Some {| ArtistDetail.id := artist_id;
              ArtistDetail.name := artist_name;
              ArtistDetail.concert_count := len l;
              ArtistDetail.top_songs := top_songs t artist_id;
              ArtistDetail.concerts := sorted_by_date_desc ArtistConcert.date l |}
  end.

Definition write_artist_details (db : Db) (acd : PyDict.t string Concert.t) : Run unit :=
  let t := artist_songs acd (setlists db) in
  for_each (artist_names_map db)
    (fun item =>
       match artist_detail acd t item with
       | Some a => with_artist_details (PyDict.set (fst item ++ ".json") a)
       | None => ret tt
       end).

(* ================================================================= *)
(** ** The whole run *)

(** Stages 5 to 8, which start after [concerts.json], [artists.json] and
    [venues.json] are on disk. *)
Definition export_tail (db : Db) (acd : PyDict.t string Concert.t) (ids : list string)
    (artists : list ArtistRow.t) (venues : list VenueRow.t) : Run unit :=
  by_year <- concerts_by_year_dict acd ;;
  write_stats_json (stats db acd ids artists venues by_year) ;;;
  write_songs_json (songs_data (song_pass acd (setlists db))) ;;;
  write_venue_details db acd ;;;
  write_artist_details db acd.

Definition export_to_json (db : Db) : Run unit :=
  let acd := all_concerts_data db in
  let groups := setlists_by_concert acd (setlists db) in
  let ids := PyDict.keys groups in
  write_concert_details db acd groups ;;;
  cleanup_stale ids ;;;
  write_concerts_json (map (update_hasSetlist ids) (concerts_list db)) ;;;
  write_artists_json (artists_out db acd) ;;;
  write_venues_json (venues_out db acd) ;;;
  export_tail db acd ids (artists_out db acd) (venues_out db acd).

(* ================================================================= *)
(** ** Vocabulary of the properties *)

(** The role the roster gives to a name: that of the last entry with it. *)
Definition roster_entry (c : Concert.t) (n : option string) : option Artist.t :=
  find (fun a => key_eqb (Artist.artist_name a) n) (rev (Concert.artists c)).

(** The sort key read back from an emitted setlist object. *)
Definition obj_key (o : SetlistObj.t) : Z * string :=
  (role_priority (SetlistObj.artist_role o), get_or (SetlistObj.artist_name o) "").

(** A setlist is orphaned when its [concert_id] matches no loaded concert. *)
Definition orphaned (acd : PyDict.t string Concert.t) (s : Setlist.t) : bool :=
  match Setlist.concert_id s with
  | Some cid => negb (PyDict.mem cid acd)
  | None => true
  end.

(** The sum of [song_count] over the setlists that are not orphaned. *)
Definition song_count_of_matched (acd : PyDict.t string Concert.t)
    (docs : list Setlist.t) : Z :=
  zsum (map (fun s => get_or (Setlist.song_count s) 0)
          (filter (fun s => negb (orphaned acd s)) docs)).




(** The number of roster entries, over all loaded concerts and all roles,
    that carry the artist id [aid]. *)
Definition memberships (acd : PyDict.t string Concert.t) (aid : string) : Z :=
  len (filter (fun a => key_eqb (Artist.artist_id a) (Some aid))
         (flat_map Concert.artists (PyDict.values acd))).

(** The number of loaded concerts whose [venue_id] is [vid]. *)
Definition concerts_at (acd : PyDict.t string Concert.t) (vid : string) : Z :=
  len (filter (fun c => key_eqb (Concert.venue_id c) (Some vid)) (PyDict.values acd)).

(** The key under which a counting loop files a document: its field when
    it is truthy. *)
Definition truthy_key (o : option string) : option string :=
  if truthy o then o else None.

(** The songs of all setlists that are not orphaned, in stream order. *)
Definition played (acd : PyDict.t string Concert.t) (docs : list Setlist.t) : list Song.t :=
  flat_map (fun s => if orphaned acd s then [] else Setlist.songs s) docs.

(** The song carries the name [n]. *)
Definition song_named (n : string) (song : Song.t) : bool :=
  key_eqb (Song.name song) (Some n).

(** N: the occurrences of the name [n]. *)
Definition times_played (acd : PyDict.t string Concert.t) (docs : list Setlist.t)
    (n : string) : Z :=
  len (filter (song_named n) (played acd docs)).

(** K: the occurrences of the name [n] flagged as covers. *)
Definition times_covered (acd : PyDict.t string Concert.t) (docs : list Setlist.t)
    (n : string) : Z :=
  len (filter (fun song => song_named n song && truthy_flag (Song.is_cover song))
         (played acd docs)).

(** The key of [song_counts] that a song increments, if any. *)
Definition name_key (song : Song.t) : option string := truthy_key (Song.name song).

(** The key of [song_cover_counts] that a song increments, if any. *)
Definition cover_key (song : Song.t) : option string :=
  if truthy_flag (Song.is_cover song) then name_key song else None.

(** A computation that leaves [concerts.json] and [concert_details/]
    as they are, whether it returns or raises. *)
Definition keeps_concert_files {A} (m : Run A) : Prop :=
  forall fs, concerts_json (snd (m fs)) = concerts_json fs /\
             concert_details (snd (m fs)) = concert_details fs.

(** One turn of a loop that counts songs under an optional key. *)
Definition count_step (key : Song.t -> option string) (d : PyDict.t string Z)
    (song : Song.t) : PyDict.t string Z :=
  match key song with
  | Some k => incr k d
  | None => d
  end.

(** The roster entry is displayed under the name [a]. *)
Definition artist_named (a : string) (art : Artist.t) : bool :=
  (get_or (Artist.artist_name art) "" =? a)%string.

(** The number of primary roster entries of a concert displayed as [a]. *)
Definition billed (primary : list Artist.t) (a : string) : Z :=
  len (filter (artist_named a) primary).

(** One count for every primary roster entry. *)
Definition credit_all (primary : list Artist.t) (n : string) (t : Counts2) : Counts2 :=
  fold_left (fun t art => incr2 (get_or (Artist.artist_name art) "") n t) primary t.

(** What one song adds to the table of the songs that satisfy [cond]. *)
Definition tally (cond : Song.t -> bool) (primary : list Artist.t) (t : Counts2)
    (song : Song.t) : Counts2 :=
  match name_key song with
  | Some n => if cond song then credit_all primary n t else t
  | None => t
  end.

(** The number of pairs of a song named [n] that satisfies [cond], in a
    setlist that is not orphaned, and a primary roster entry named [a] of
    that setlist's concert.  The performer of the setlist plays no part. *)
Definition credits (cond : Song.t -> bool) (acd : PyDict.t string Concert.t)
    (docs : list Setlist.t) (a n : string) : Z :=
  zsum (map (fun s =>
               match concert_of acd s with
               | Some c =>
                   len (filter (fun song => song_named n song && cond song) (Setlist.songs s))
                   * billed (primary_artists c) a
               | None => 0
               end) docs).

(** The same count for closing songs: one song at most per setlist. *)
Definition closing_credits (acd : PyDict.t string Concert.t)
    (docs : list Setlist.t) (a n : string) : Z :=
  zsum (map (fun s =>
               match concert_of acd s, last_song (Setlist.songs s) with
               | Some c, Some x =>
                   if song_named n x then billed (primary_artists c) a else 0
               | _, _ => 0
               end) docs).

(* ================================================================= *)
(** ** Sample documents *)

Module Sample.

Definition artist (i n r : string) : Artist.t :=
  {| Artist.artist_id := Some i; Artist.artist_name := Some n; Artist.role := Some r |}.

Definition concert (d v : string) (roster : list Artist.t) : Concert.t :=
  {| Concert.show_number := Some 1; Concert.date := Some d;
     Concert.festival_name := None; Concert.venue_id := Some v;
     Concert.venue_name := Some "The Venue"; Concert.city := Some "Austin";
     Concert.state := Some "TX"; Concert.artists := roster;
     Concert.setlist_status := None; Concert.has_setlist := None;
     Concert.opening_song := None; Concert.closing_song := None |}.

Definition song (p : Z) (n : string) (e : Z) (cover : bool) : Song.t :=
  {| Song.position := Some p; Song.name := Some n; Song.set_name := None;
     Song.encore := Some e; Song.is_cover := Some cover;
     Song.cover_artist := None; Song.guest_artist := None |}.

Definition setlist (cid performer : string) (l : list Song.t)
    (tour : option string) : Setlist.t :=
  {| Setlist.concert_id := Some cid; Setlist.artist_id := None;
     Setlist.artist_name := Some performer; Setlist.songs := l;
     Setlist.song_count := Some (len l); Setlist.has_encore := None;
     Setlist.tour_name := tour; Setlist.setlistfm_url := None |}.

Definition empty_fs : FS :=
  {| concerts_json := None; concert_details := []; artists_json := None;
     venues_json := None; stats_json := None; songs_json := None;
     venue_details := []; artist_details := [] |}.

Definition bill : Concert.t :=
  concert "2019-06-01" "v1"
    [artist "a1" "Headliner B" "headliner"; artist "a2" "Opener A" "opener"].

Definition headliner_set : Setlist.t :=
  setlist "c1" "Headliner B"
    [song 1 "Intro" 0 false; song 2 "Hit" 0 false; song 3 "Farewell" 1 false]
    (Some "World Tour").

Definition opener_set : Setlist.t :=
  setlist "c1" "Opener A" [song 1 "Warm Up" 0 true; song 2 "Borrowed" 1 true] None.

Definition venue_doc : VenueDoc.t :=
  {| VenueDoc.canonical_name := Some "The Venue";
     VenueDoc.city := Some "Austin"; VenueDoc.state := Some "TX" |}.

Definition db (cs : list (string * Concert.t)) (ss : list Setlist.t) : Db :=
  {| concerts := cs; setlists := ss;
     artists := [("a1", {| ArtistDoc.canonical_name := Some "Headliner B" |});
                 ("a2", {| ArtistDoc.canonical_name := Some "Opener A" |})];
     venues := [("v1", venue_doc)];
     photos_of := fun _ => []; now := "2024-01-01T00:00:00" |}.

(** One concert, with the headliner's setlist only. *)
Definition one_show : Db := db [("c1", bill)] [headliner_set].

(** The same bill on two nights, each with the opener's and the
    headliner's setlist. *)
Definition two_shows : Db :=
  db [("c2", concert "2019-06-02" "v1" (Concert.artists bill)); ("c1", bill)]
     [headliner_set; opener_set;
      setlist "c2" "Headliner B" (Setlist.songs headliner_set) (Some "World Tour");
      setlist "c2" "Opener A" (Setlist.songs opener_set) None].

(** A concert whose date does not start with a year. *)
Definition undated : Concert.t := concert "abcd-01-01" "v1" [artist "a1" "Headliner B" "headliner"].

(** A setlist that refers to a concert that is not in the database. *)
Definition orphan_set : Setlist.t :=
  {| Setlist.concert_id := Some "ghost"; Setlist.artist_id := None;
     Setlist.artist_name := Some "Nobody"; Setlist.songs := [];
     Setlist.song_count := Some 5; Setlist.has_encore := None;
     Setlist.tour_name := None; Setlist.setlistfm_url := None |}.

End Sample.

(* ================================================================= *)
(** ** The output tree in closed form *)

(** The tree with one directory replaced by a function of it. *)
Definition map_concert_details
    (f : PyDict.t string ConcertDetail.t -> PyDict.t string ConcertDetail.t) (fs : FS) : FS :=
  snd (with_concert_details f fs).

Definition map_venue_details
    (f : PyDict.t string VenueDetail.t -> PyDict.t string VenueDetail.t) (fs : FS) : FS :=
  snd (with_venue_details f fs).

Definition map_artist_details
    (f : PyDict.t string ArtistDetail.t -> PyDict.t string ArtistDetail.t) (fs : FS) : FS :=
  snd (with_artist_details f fs).

(** Writing a list of files, in order, into a directory. *)
Definition put_files {V} (files : list (string * V)) (d : PyDict.t string V)
  : PyDict.t string V :=
  fold_left (fun d kv => PyDict.set (fst kv) (snd kv) d) files d.

(** The detail files of a run, in the order of the grouping. *)
Definition detail_files (db : Db) : list (string * ConcertDetail.t) :=
  let acd := all_concerts_data db in
  flat_map
    (fun item =>
       match PyDict.get (fst item) acd with
       | Some c => [(fst item ++ ".json", concert_detail db (fst item) c (snd item))]
       | None => []
       end)
    (setlists_by_concert acd (setlists db)).

(** What the clean-up leaves of a directory. *)
Definition prune (ids : list string) (d : PyDict.t string ConcertDetail.t)
  : PyDict.t string ConcertDetail.t :=
  fold_left
    (fun d file => if existsb (String.eqb (stem file)) ids then d else PyDict.remove file d)
    (filter glob_json (PyDict.keys d)) d.

Definition venue_files (db : Db) : list (string * VenueDetail.t) :=
  flat_map
    (fun item =>
       match venue_detail (all_concerts_data db) item with
       | Some v => [(fst item ++ ".json", v)]
       | None => []
       end)
    (venue_data_map db).

Definition artist_files (db : Db) : list (string * ArtistDetail.t) :=
  let acd := all_concerts_data db in
  flat_map
    (fun item =>
       match artist_detail acd (artist_songs acd (setlists db)) item with
       | Some a => [(fst item ++ ".json", a)]
       | None => []
       end)
    (artist_names_map db).

(** The concert passes the test [date_str and len(date_str) >= 4]. *)
Definition dated (c : Concert.t) : bool :=
  negb (get_or (Concert.date c) "" =? "")%string
  && (4 <=? py_len (get_or (Concert.date c) ""))%nat.

(** [date_str[:4]] *)
Definition year_text (c : Concert.t) : string :=
  py_prefix 4 (get_or (Concert.date c) "").

(** The loop over the years without the tree: the dictionary, or the
    exception of the first year that does not parse. *)
Fixpoint by_year_from (l : list Concert.t) (d : PyDict.t Z Z) : Exn + PyDict.t Z Z :=
  match l with
  | [] => inr d
  | c :: l' =>
      if dated c then
        match py_int (year_text c) with
        | Some y => by_year_from l' (incr y d)
        | None => inl (ValueError (year_text c))
        end
      else by_year_from l' d
  end.

Definition by_year (db : Db) : Exn + PyDict.t Z Z :=
  by_year_from (PyDict.values (all_concerts_data db)) [].

(** How a run ends. *)
Definition outcome (db : Db) : Exn + unit :=
  match by_year db with
  | inl e => inl e
  | inr _ => inr tt
  end.

(** The ids of the concerts that have a group of setlists. *)
Definition concert_ids_with_setlists (db : Db) : list string :=
  PyDict.keys (setlists_by_concert (all_concerts_data db) (setlists db)).

(** The output tree a run leaves, from the tree it found. *)
Definition tree_after (db : Db) (fs0 : FS) : FS :=
  let acd := all_concerts_data db in
  let ids := concert_ids_with_setlists db in
  {| concerts_json := Some (map (update_hasSetlist ids) (concerts_list db));
     concert_details := prune ids (put_files (detail_files db) (concert_details fs0));
     artists_json := Some (artists_out db acd);
     venues_json := Some (venues_out db acd);
     stats_json :=
       match by_year db with
       | inr y => Some (stats db acd ids (artists_out db acd) (venues_out db acd) y)
       | inl _ => stats_json fs0
       end;
     songs_json :=
       match by_year db with
       | inr _ => Some (songs_data (song_pass acd (setlists db)))
       | inl _ => songs_json fs0
       end;
     venue_details :=
       match by_year db with
       | inr _ => put_files (venue_files db) (venue_details fs0)
       | inl _ => venue_details fs0
       end;
     artist_details :=
       match by_year db with
       | inr _ => put_files (artist_files db) (artist_details fs0)
       | inl _ => artist_details fs0
       end |}.

(* ================================================================= *)
(** ** Vocabulary of the further properties *)

(** The setlist is filed under the concert id [cid] by the grouping loop. *)
Definition in_group (acd : PyDict.t string Concert.t) (cid : string) (s : Setlist.t) : bool :=
  key_eqb (groupable acd s) (Some cid).

(** The setlist carries the tour name [t], and [t] is not empty. *)
Definition on_tour (t : string) (s : Setlist.t) : Prop :=
  Setlist.tour_name s = Some t /\ t <> "".

(** The years that the loop over the concerts counts, in loop order. *)
Definition years_of (l : list Concert.t) : list Z :=
  flat_map
    (fun c => if dated c then
                match py_int (year_text c) with
                | Some y => [y]
                | None => []
                end
              else [])
    l.

(** The non-empty names of the played songs, one per occurrence. *)
Definition names_played (acd : PyDict.t string Concert.t) (docs : list Setlist.t)
  : list string :=
  flat_map (fun song => match name_key song with Some n => [n] | None => [] end)
    (played acd docs).

(** Both levels of a nested counter have distinct keys. *)
Definition wf2 (t : Counts2) : Prop :=
  NoDup (PyDict.keys t) /\ forall a d, In (a, d) t -> NoDup (PyDict.keys d).

(** The counts of a list of songs descend. *)
Definition descending (l : list (string * Z)) : Prop :=
  forall l1 x l2 y, l = (l1 ++ x :: l2)%list -> In y l2 -> snd y <= snd x.

(** [table] lists, under each artist, exactly the songs whose [count] is
    at least 2, with that count, most frequent first; an artist is a key
    exactly when there is such a song. *)
Definition lists_heard_twice (table : SongTable) (count : string -> string -> Z) : Prop :=
  forall a,
    match PyDict.get a table with
    | Some l =>
        l <> [] /\ descending l /\
        forall n k, In (n, k) l <-> n <> "" /\ 2 <= k /\ k = count a n
    | None => forall n, n <> "" -> count a n < 2
    end.

(** The roster entry carries the artist id [aid]. *)
Definition has_artist_id (aid : string) (a : Artist.t) : bool :=
  key_eqb (Artist.artist_id a) (Some aid).

(** The number of pairs of a song named [n], in a setlist that is not
    orphaned, and a primary roster entry with the artist id [aid] of that
    setlist's concert. *)
Definition plays (acd : PyDict.t string Concert.t) (docs : list Setlist.t)
    (aid n : string) : Z :=
  zsum (map (fun s =>
               match concert_of acd s with
               | Some c =>
                   len (filter (song_named n) (Setlist.songs s))
                   * len (filter (has_artist_id aid) (primary_artists c))
               | None => 0
               end) docs).

(** No inner dictionary of the nested counter has the empty name as key. *)
Definition names_nonempty (t : Counts2) : Prop :=
  forall a d, In (a, d) t -> ~ In "" (PyDict.keys d).

(** The body of [for artist in primary_artists] in the pass that fills
    [artist_songs], for the song name [n]. *)
Definition credit_ids_step (n : string) (t : Counts2) (artist : Artist.t) : Counts2 :=
  match Artist.artist_id artist with
  | Some aid => if truthy (Some aid) then incr2 aid n t else t
  | None => t
  end.

(** The body of [for song in ...] in the same pass. *)
Definition song_ids_step (primary : list Artist.t) (t : Counts2) (song : Song.t) : Counts2 :=
  match name_key song with
  | Some n => fold_left (credit_ids_step n) primary t
  | None => t
  end.

(** The text is made of ASCII decimal digits only. *)
Definition is_digit (c : ascii) : bool :=
  match digit_of c with Some _ => true | None => false end.

Fixpoint all_digits (s : string) : bool :=
  match s with
  | EmptyString => true
  | String c s' => is_digit c && all_digits s'
  end.

(* ================================================================= *)
(** * Properties *)

(** ** Lawful keys and dictionary lemmas *)

Class PyKeyLaws (K : Type) {KeyK : PyKey K} :=
  key_eqb_spec : forall a b : K, reflect (a = b) (key_eqb a b).
Arguments PyKeyLaws K {KeyK}.

#[global] Instance string_PyKeyLaws : PyKeyLaws string.
Proof. exact String.eqb_spec. Qed.

#[global] Instance Z_PyKeyLaws : PyKeyLaws Z.
Proof. exact Z.eqb_spec. Qed.

#[global] Instance option_PyKeyLaws {K} `{PyKeyLaws K} : PyKeyLaws (option K).
Proof.
  intros [a|] [b|]; unfold key_eqb, option_PyKey; simpl;
    try (constructor; congruence).
  destruct (key_eqb_spec a b); constructor; congruence.
Qed.

#[global] Instance pair_PyKeyLaws {K1 K2} `{PyKeyLaws K1} `{PyKeyLaws K2} :
  PyKeyLaws (K1 * K2).
Proof.
  intros [a1 a2] [b1 b2]; unfold key_eqb, pair_PyKey; simpl.
  destruct (key_eqb_spec a1 b1), (key_eqb_spec a2 b2); simpl;
    constructor; congruence.
Qed.

Section DictFacts.
Context {K V : Type} `{PyKeyLaws K}.
Implicit Types (k : K) (v : V) (d : PyDict.t K V).

Lemma key_eqb_refl k : key_eqb k k = true.
Proof. destruct (key_eqb_spec k k); congruence. Qed.

Lemma key_eqb_neq k k' : k <> k' -> key_eqb k k' = false.
Proof. intros; destruct (key_eqb_spec k k'); congruence. Qed.

Lemma get_set_same k v d : PyDict.get k (PyDict.set k v d) = Some v.
Proof.
  induction d as [|[k' v'] d IH]; simpl.
  - now rewrite key_eqb_refl.
  - destruct (key_eqb k k') eqn:E; simpl; rewrite E; auto.
Qed.

Lemma get_set_other k k' v d :
  k <> k' -> PyDict.get k (PyDict.set k' v d) = PyDict.get k d.
Proof.
  intros Hne. induction d as [|[k2 v2] d IH]; simpl.
  - now rewrite key_eqb_neq.
  - destruct (key_eqb_spec k' k2) as [->|]; simpl.
    + now rewrite key_eqb_neq.
    + now rewrite IH.
Qed.

Lemma get_upd_same dflt f k d :
  PyDict.get k (PyDict.upd dflt f k d) = Some (f (get_or (PyDict.get k d) dflt)).
Proof. apply get_set_same. Qed.

Lemma get_upd_other dflt f k k' d :
  k <> k' -> PyDict.get k (PyDict.upd dflt f k' d) = PyDict.get k d.
Proof. apply get_set_other. Qed.

Lemma keys_set_In k k' v d :
  In k (PyDict.keys (PyDict.set k' v d)) <-> k = k' \/ In k (PyDict.keys d).
Proof.
  unfold PyDict.keys. induction d as [|[k2 v2] d IH]; simpl.
  - intuition.
  - destruct (key_eqb_spec k' k2) as [->|]; simpl; intuition.
Qed.

Lemma mem_keys k d : PyDict.mem k d = true <-> In k (PyDict.keys d).
Proof.
  unfold PyDict.mem, PyDict.keys. induction d as [|[k' v'] d IH]; simpl.
  - intuition discriminate.
  - destruct (key_eqb_spec k k') as [->|]; [intuition|].
    rewrite IH. intuition congruence.
Qed.

Lemma get_In k v d : PyDict.get k d = Some v -> In (k, v) d.
Proof.
  induction d as [|[k' v'] d IH]; simpl; [discriminate|].
  destruct (key_eqb_spec k k') as [->|]; intros E.
  - left; congruence.
  - right; auto.
Qed.

Lemma NoDup_keys_set k v d :
  NoDup (PyDict.keys d) -> NoDup (PyDict.keys (PyDict.set k v d)).
Proof.
  unfold PyDict.keys. induction d as [|[k' v'] d IH]; simpl; intros Hnd.
  - constructor; [auto | constructor].
  - inversion Hnd as [|? ? Hnin Hnd']; subst.
    destruct (key_eqb_spec k k') as [->|Hne]; simpl.
    + constructor; auto.
    + constructor; auto.
      intros Hin. apply (keys_set_In k' k v d) in Hin. intuition.
Qed.

Lemma In_get k v d :
  NoDup (PyDict.keys d) -> In (k, v) d -> PyDict.get k d = Some v.
Proof.
  unfold PyDict.keys. induction d as [|[k' v'] d IH]; simpl; intros Hnd Hin; [tauto|].
  inversion Hnd as [|? ? Hnin Hnd']; subst.
  destruct Hin as [E|Hin].
  - inversion E; subst. now rewrite key_eqb_refl.
  - destruct (key_eqb_spec k k') as [->|]; auto.
    exfalso. apply Hnin. apply in_map_iff. now exists (k', v).
Qed.

Lemma keys_remove_In k k' d :
  In k (PyDict.keys (PyDict.remove k' d)) <-> k <> k' /\ In k (PyDict.keys d).
Proof.
  unfold PyDict.keys, PyDict.remove. rewrite !in_map_iff. split.
  - intros [[k2 v2] [E Hin]]. apply filter_In in Hin. simpl in *. subst.
    destruct Hin as [Hin Hb]. destruct (key_eqb_spec k' k); [discriminate|].
    split; [congruence|]. now exists (k, v2).
  - intros [Hne [[k2 v2] [E Hin]]]. simpl in *; subst. exists (k, v2). split; auto.
    apply filter_In. split; auto. simpl. rewrite key_eqb_neq; auto.
Qed.

End DictFacts.

(** ** The order of strings *)

Lemma ascii_compare_refl c : Ascii.compare c c = Eq.
Proof. unfold Ascii.compare. apply N.compare_refl. Qed.

Lemma ascii_compare_lt_trans a b c :
  Ascii.compare a b = Lt -> Ascii.compare b c = Lt -> Ascii.compare a c = Lt.
Proof.
  unfold Ascii.compare. rewrite !N.compare_lt_iff. apply N.lt_trans.
Qed.

Lemma string_compare_refl s : String.compare s s = Eq.
Proof.
  induction s as [|c s IH]; simpl; auto. now rewrite ascii_compare_refl.
Qed.

Lemma string_compare_lt_trans a :
  forall b c, String.compare a b = Lt -> String.compare b c = Lt ->
              String.compare a c = Lt.
Proof.
  induction a as [|x a IH]; intros [|y b] [|z c]; simpl; try congruence.
  destruct (Ascii.compare x y) eqn:Exy; try discriminate;
    destruct (Ascii.compare y z) eqn:Eyz; try discriminate; intros H1 H2.
  - apply Ascii.compare_eq_iff in Exy, Eyz. subst.
    rewrite ascii_compare_refl. eauto.
  - apply Ascii.compare_eq_iff in Exy. subst. now rewrite Eyz.
  - apply Ascii.compare_eq_iff in Eyz. subst. now rewrite Exy.
  - now rewrite (ascii_compare_lt_trans _ _ _ Exy Eyz).
Qed.

Lemma string_leb_refl s : String.leb s s = true.
Proof. unfold String.leb. now rewrite string_compare_refl. Qed.

Lemma string_leb_trans a b c :
  String.leb a b = true -> String.leb b c = true -> String.leb a c = true.
Proof.
  unfold String.leb.
  destruct (String.compare a b) eqn:Eab; try discriminate;
    destruct (String.compare b c) eqn:Ebc; try discriminate; intros _ _.
  - apply String.compare_eq_iff in Eab. subst. now rewrite Ebc.
  - apply String.compare_eq_iff in Eab. subst. now rewrite Ebc.
  - apply String.compare_eq_iff in Ebc. subst. now rewrite Eab.
  - now rewrite (string_compare_lt_trans _ _ _ Eab Ebc).
Qed.

Lemma key_leb_total k1 k2 : key_leb k1 k2 = false -> key_leb k2 k1 = true.
Proof.
  destruct k1 as [p1 n1], k2 as [p2 n2]. unfold key_leb; simpl. intros Hf.
  apply orb_false_iff in Hf. destruct Hf as [Hlt Hand].
  apply Z.ltb_ge in Hlt.
  destruct (Z.eqb_spec p1 p2) as [->|Hne]; simpl in Hand.
  - rewrite Z.eqb_refl. simpl.
    destruct (String.leb_total n1 n2) as [Hl|Hl]; [congruence|].
    rewrite Hl. apply orb_true_r.
  - apply orb_true_iff. left. apply Z.ltb_lt. lia.
Qed.

Lemma key_leb_trans k1 k2 k3 :
  key_leb k1 k2 = true -> key_leb k2 k3 = true -> key_leb k1 k3 = true.
Proof.
  destruct k1 as [p1 n1], k2 as [p2 n2], k3 as [p3 n3]. unfold key_leb; simpl.
  rewrite !orb_true_iff, !andb_true_iff, !Z.ltb_lt, !Z.eqb_eq.
  intros [H1|[H1 L1]] [H2|[H2 L2]]; try (left; lia).
  right. split; [lia|]. eapply string_leb_trans; eauto.
Qed.

(** ** Stable sorting *)

Section Sorting.
Context {A : Type} (leb : A -> A -> bool).
Hypothesis leb_total : forall x y, leb x y = false -> leb y x = true.
Hypothesis leb_trans : forall x y z, leb x y = true -> leb y z = true -> leb x z = true.

Let le (x y : A) : Prop := leb x y = true.

Lemma insert_by_perm x l : Permutation (x :: l) (insert_by leb x l).
Proof.
  induction l as [|y l IH]; simpl; auto.
  destruct (leb x y); auto.
  eapply perm_trans; [apply perm_swap|]. now constructor.
Qed.

Lemma sorted_by_perm l : Permutation l (sorted_by leb l).
Proof.
  induction l as [|x l IH]; simpl; auto.
  eapply perm_trans; [|apply insert_by_perm]. now constructor.
Qed.

Lemma sorted_by_In x l : In x (sorted_by leb l) <-> In x l.
Proof.
  split; apply Permutation_in; [apply Permutation_sym|]; apply sorted_by_perm.
Qed.

Lemma insert_by_sorted x l :
  StronglySorted le l -> StronglySorted le (insert_by leb x l).
Proof.
  induction l as [|y l IH]; simpl; intros Hs.
  - repeat constructor.
  - inversion Hs as [|? ? Hs' Hall]; subst.
    destruct (leb x y) eqn:Exy.
    + constructor; auto. constructor; auto.
      eapply Forall_impl; [|exact Hall]. intros z Hz. unfold le in *; eauto.
    + constructor; auto.
      apply Forall_forall. intros z Hz.
      apply (Permutation_in _ (Permutation_sym (insert_by_perm x l))) in Hz.
      destruct Hz as [<-|Hz].
      * now apply leb_total.
      * rewrite Forall_forall in Hall. auto.
Qed.

Lemma sorted_by_sorted l : StronglySorted le (sorted_by leb l).
Proof.
  induction l as [|x l IH]; simpl.
  - constructor.
  - now apply insert_by_sorted.
Qed.

(** In a sorted list an element is [leb] to every later one. *)
Lemma sorted_by_later l l1 a l2 b :
  sorted_by leb l = (l1 ++ a :: l2)%list -> In b l2 -> leb a b = true.
Proof.
  intros E Hb. pose proof (sorted_by_sorted l) as Hs. rewrite E in Hs.
  clear E. induction l1 as [|x l1 IH]; simpl in Hs.
  - inversion Hs as [|? ? _ Hall]; subst. rewrite Forall_forall in Hall.
    now apply Hall.
  - inversion Hs; auto.
Qed.

End Sorting.

(** ** The multi-setlist shape *)

Lemma artist_roles_get (c : Concert.t) (n : option string) :
  PyDict.get n (artist_roles c) =
  option_map (fun a => get_or (Artist.role a) "headliner") (roster_entry c n).
Proof.
  unfold artist_roles, roster_entry.
  induction (Concert.artists c) as [|a l IH] using rev_ind; simpl; auto.
  rewrite fold_left_app, rev_app_distr. simpl.
  destruct (key_eqb_spec (Artist.artist_name a) n) as [->|Hne].
  - now rewrite get_set_same.
  - rewrite get_set_other by congruence. exact IH.
Qed.

Lemma obj_key_setlist_obj c s : obj_key (setlist_obj c s) = sort_key c s.
Proof. reflexivity. Qed.

Lemma multi_loop_fold c l acc :
  formatted_setlists (fold_left (multi_step c) l acc) =
  (formatted_setlists acc ++ map (setlist_obj c) l)%list.
Proof.
  revert acc. induction l as [|s l IH]; intros acc; simpl.
  - now rewrite app_nil_r.
  - rewrite IH. simpl. now rewrite <- app_assoc.
Qed.

Lemma multi_loop_formatted c l :
  formatted_setlists (multi_loop c l) = map (setlist_obj c) (sorted_setlists c l).
Proof. unfold multi_loop. now rewrite multi_loop_fold. Qed.

Lemma detail_shape_multi c l :
  (2 <= List.length l)%nat ->
  fst (detail_shape c l) =
  MultiSetlist (formatted_setlists (multi_loop c l))
    (total_song_count (multi_loop c l)) (has_any_encore (multi_loop c l)).
Proof.
  destruct l as [|s1 [|s2 l]]; simpl; intros Hlen; try lia. reflexivity.
Qed.

Lemma StronglySorted_map {A B} (f : A -> B) (R : B -> B -> Prop) l :
  StronglySorted (fun x y => R (f x) (f y)) l -> StronglySorted R (map f l).
Proof.
  induction 1 as [|x l Hs IH Hall]; simpl; constructor; auto.
  apply Forall_forall. intros y Hy. apply in_map_iff in Hy.
  destruct Hy as [z [<- Hz]]. rewrite Forall_forall in Hall. auto.
Qed.

Lemma StronglySorted_later {A} (R : A -> A -> Prop) l1 a l2 b :
  StronglySorted R (l1 ++ a :: l2) -> In b l2 -> R a b.
Proof.
  induction l1 as [|x l1 IH]; simpl; intros Hs Hb.
  - inversion Hs as [|? ? _ Hall]; subst. rewrite Forall_forall in Hall. auto.
  - inversion Hs; auto.
Qed.

(** C7. For a concert with two or more setlists the emitted [setlists]
    array holds one object per input setlist; each object's role is the one
    the roster gives to its artist name ([headliner] when the name is not
    on the roster); the array is sorted by the pair of role priority and
    artist name, so names ascend within a priority; and no object with role
    [opener] comes after one with role [headliner] or
    [festival_performer], whatever the input order. *)
Theorem multi_setlists_sorted_by_role (db : Db) (cid : string) (c : Concert.t)
    (l : list Setlist.t) (Hlen : (2 <= List.length l)%nat) :
  exists objs total enc,
    ConcertDetail.shape (concert_detail db cid c l) = MultiSetlist objs total enc /\
    Permutation (map (setlist_obj c) l) objs /\
    (forall o, In o objs ->
       SetlistObj.artist_role o =
       match roster_entry c (SetlistObj.artist_name o) with
       | Some a => get_or (Artist.role a) "headliner"
       | None => "headliner"
       end) /\
    StronglySorted (fun x y => key_leb (obj_key x) (obj_key y) = true) objs /\
    (forall l1 a l2 b, objs = (l1 ++ a :: l2)%list -> In b l2 ->
       (role_priority (SetlistObj.artist_role a) < role_priority (SetlistObj.artist_role b)
        \/ (role_priority (SetlistObj.artist_role a) = role_priority (SetlistObj.artist_role b)
            /\ String.leb (get_or (SetlistObj.artist_name a) "")
                 (get_or (SetlistObj.artist_name b) "") = true))) /\
    (forall l1 a l2 b, objs = (l1 ++ a :: l2)%list -> In b l2 ->
       SetlistObj.artist_role b = "opener" ->
       SetlistObj.artist_role a <> "headliner" /\
       SetlistObj.artist_role a <> "festival_performer").
Proof.
  set (objs := map (setlist_obj c) (sorted_setlists c l)).
  assert (Hsorted : StronglySorted (fun x y => key_leb (obj_key x) (obj_key y) = true) objs).
  { apply StronglySorted_map.
    apply (sorted_by_sorted (fun x y => key_leb (sort_key c x) (sort_key c y))).
    - intros x y. apply key_leb_total.
    - intros x y z. apply key_leb_trans. }
  assert (Hlater : forall l1 a l2 b, objs = (l1 ++ a :: l2)%list -> In b l2 ->
            key_leb (obj_key a) (obj_key b) = true).
  { intros l1 a l2 b E Hb. rewrite E in Hsorted.
    exact (StronglySorted_later _ _ _ _ Hsorted Hb). }
  exists objs, (total_song_count (multi_loop c l)), (has_any_encore (multi_loop c l)).
  repeat split.
  - unfold concert_detail; simpl. rewrite detail_shape_multi by exact Hlen.
    now rewrite multi_loop_formatted.
  - apply Permutation_map. apply sorted_by_perm.
  - intros o Ho. apply in_map_iff in Ho. destruct Ho as [s [<- _]]. simpl.
    unfold role_of. rewrite artist_roles_get.
    now destruct (roster_entry c (Setlist.artist_name s)).
  - exact Hsorted.
  - intros l1 a l2 b E Hb. specialize (Hlater l1 a l2 b E Hb).
    unfold key_leb, obj_key in Hlater. simpl in Hlater.
    apply orb_true_iff in Hlater. destruct Hlater as [H|H].
    + left. now apply Z.ltb_lt.
    + right. apply andb_true_iff in H. destruct H as [H1 H2].
      split; [now apply Z.eqb_eq | exact H2].
  - intros Ha. specialize (Hlater l1 a l2 b H H0).
    unfold key_leb, obj_key in Hlater. simpl in Hlater.
    rewrite H1, Ha in Hlater. discriminate.
  - intros Ha. specialize (Hlater l1 a l2 b H H0).
    unfold key_leb, obj_key in Hlater. simpl in Hlater.
    rewrite H1, Ha in Hlater. discriminate.
Qed.

(** The bill of Headliner B and Opener A, headliner first in the input. *)
Lemma multi_setlists_sorted_by_role_witness :
  let l := [Sample.headliner_set; Sample.opener_set] in
  (2 <= List.length l)%nat /\
  exists objs total enc,
    ConcertDetail.shape
      (concert_detail (Sample.db [("c1", Sample.bill)] l) "c1" Sample.bill l)
    = MultiSetlist objs total enc /\
    StronglySorted (fun x y => key_leb (obj_key x) (obj_key y) = true) objs.
Proof.
  split; [simpl; lia|].
  destruct (multi_setlists_sorted_by_role
              (Sample.db [("c1", Sample.bill)] [Sample.headliner_set; Sample.opener_set])
              "c1" Sample.bill [Sample.headliner_set; Sample.opener_set])
    as (objs & total & enc & Hshape & _ & _ & Hsorted & _); [simpl; lia|].
  exists objs, total, enc. split; assumption.
Defined.

(** ** Concert-level tour name *)

(** C2. The concert-level [tour_name] is meant for setlists that all share
    one tour.  On the bill of "Headliner B" (tour "World Tour") and
    "Opener A" (no tour name) the detail object is of the multi-setlist
    shape and still carries [tour_name = "World Tour"]: the set
    [tour_names] only collects the names that are present, and its size
    is 1. *)
Theorem tour_name_despite_setlist_without_tour :
  let l := [Sample.headliner_set; Sample.opener_set] in
  let d := concert_detail (Sample.db [("c1", Sample.bill)] l) "c1" Sample.bill l in
  Setlist.tour_name Sample.opener_set = None /\
  (exists objs total enc, ConcertDetail.shape d = MultiSetlist objs total enc) /\
  ConcertDetail.tour_name d = Some "World Tour".
Proof.
  cbv zeta. split; [reflexivity|]. split.
  - do 3 eexists. vm_compute. reflexivity.
  - vm_compute. reflexivity.
Qed.

(** ** Statistics *)

(** C4. With one loaded concert and one setlist that refers to an unknown
    concert and has [song_count = 5], the run completes, no detail file is
    written for the orphan, and [stats.json] reports [total_songs = 5],
    while the setlists that match a loaded concert sum to 0: the loop that
    computes [total_songs] has no test on [concert_id]. *)
Theorem total_songs_counts_orphaned_setlist :
  let db := Sample.db [("c1", Sample.bill)] [Sample.orphan_set] in
  orphaned (all_concerts_data db) Sample.orphan_set = true /\
  song_count_of_matched (all_concerts_data db) (setlists db) = 0 /\
  exists fs st,
    export_to_json db Sample.empty_fs = (inr tt, fs) /\
    concert_details fs = [] /\
    stats_json fs = Some st /\
    Stats.concerts_with_setlists st = 0 /\
    Stats.total_songs st = 5.
Proof.
  cbv zeta. split; [reflexivity|]. split; [reflexivity|].
  do 2 eexists. split; [vm_compute; reflexivity|].
  repeat split; reflexivity.
Qed.

(** C5. A concert dated ["abcd-01-01"] has a non-empty date of at least 4
    characters; [int("abcd")] raises [ValueError] in the loop that fills
    [concerts_by_year_dict], the exception ends the run, and
    [stats.json], [songs.json] and the venue and artist details are never
    written. *)
Theorem non_numeric_year_aborts_run :
  let db := Sample.db [("c1", Sample.undated)] [] in
  (4 <= String.length (get_or (Concert.date Sample.undated) ""))%nat /\
  exists fs,
    export_to_json db Sample.empty_fs = (inl (ValueError "abcd"), fs) /\
    stats_json fs = None /\ songs_json fs = None /\
    venue_details fs = [] /\ artist_details fs = [].
Proof.
  cbv zeta. split; [simpl; lia|].
  eexists. split; [vm_compute; reflexivity|].
  repeat split; reflexivity.
Qed.

(** ** The closing song *)





(** ** Dictionaries built by the loader *)

Lemma NoDup_keys_fold_set {A K V} `{PyKeyLaws K} (f : A -> K) (g : A -> V) (l : list A) :
  forall d : PyDict.t K V, NoDup (PyDict.keys d) ->
    NoDup (PyDict.keys (fold_left (fun d x => PyDict.set (f x) (g x) d) l d)).
Proof.
  induction l as [|x l IH]; intros d Hd; simpl; auto.
  apply IH. now apply NoDup_keys_set.
Qed.

Lemma all_concerts_data_NoDup db : NoDup (PyDict.keys (all_concerts_data db)).
Proof. apply (NoDup_keys_fold_set fst snd). constructor. Qed.

Lemma artist_names_map_NoDup db : NoDup (PyDict.keys (artist_names_map db)).
Proof.
  apply (NoDup_keys_fold_set fst (fun doc => get_or (ArtistDoc.canonical_name (snd doc)) "")).
  constructor.
Qed.

Lemma venue_data_map_NoDup db : NoDup (PyDict.keys (venue_data_map db)).
Proof. apply (NoDup_keys_fold_set fst snd). constructor. Qed.

(** ** Venue and artist detail files *)

Lemma sorted_by_date_desc_In {A} (date : A -> string) (x : A) l :
  In x (sorted_by_date_desc date l) <-> In x l.
Proof. apply sorted_by_In. Qed.

(** C9. In every venue detail and every artist detail computed by a run,
    each listed concert is a loaded concert and its [has_setlist] is the
    stored [has_setlist] field of that concert, [false] when the field is
    absent; the setlist grouping is not consulted.  For the database with
    one concert without the field and one setlist for it, [concerts.json]
    has [hasSetlist = true] while the venue file and the artist file list
    the same concert with [has_setlist = false]. *)
Theorem details_copy_stored_has_setlist :
  (forall db item vd vc,
     venue_detail (all_concerts_data db) item = Some vd ->
     In vc (VenueDetail.concerts vd) ->
     exists c, PyDict.get (VenueConcert.id vc) (all_concerts_data db) = Some c /\
       VenueConcert.has_setlist vc = get_or (Concert.has_setlist c) false) /\
  (forall db t item ad ac,
     artist_detail (all_concerts_data db) t item = Some ad ->
     In ac (ArtistDetail.concerts ad) ->
     exists c, PyDict.get (ArtistConcert.id ac) (all_concerts_data db) = Some c /\
       ArtistConcert.has_setlist ac = get_or (Concert.has_setlist c) false) /\
  (exists db fs rows vd ad,
     export_to_json db Sample.empty_fs = (inr tt, fs) /\
     concerts_json fs = Some rows /\
     PyDict.get "v1.json" (venue_details fs) = Some vd /\
     PyDict.get "a1.json" (artist_details fs) = Some ad /\
     (exists r, In r rows /\ ConcertRow.id r = "c1" /\ ConcertRow.hasSetlist r = true) /\
     (exists vc, In vc (VenueDetail.concerts vd) /\ VenueConcert.id vc = "c1" /\
                 VenueConcert.has_setlist vc = false) /\
     (exists ac, In ac (ArtistDetail.concerts ad) /\ ArtistConcert.id ac = "c1" /\
                 ArtistConcert.has_setlist ac = false)).
Proof.
  split; [|split].
  - intros db [vid vdata] vd vc Hvd Hvc. unfold venue_detail in Hvd.
    destruct (concerts_at_venue (all_concerts_data db) vid) as [|x l] eqn:E;
      [discriminate|].
    rewrite <- E in Hvd. injection Hvd as <-. cbn [VenueDetail.concerts] in Hvc.
    apply sorted_by_date_desc_In in Hvc.
    unfold concerts_at_venue in Hvc. apply in_map_iff in Hvc.
    destruct Hvc as [[cid c] [<- Hin]]. apply filter_In in Hin.
    destruct Hin as [Hin _]. exists c. split; [|reflexivity].
    simpl. apply In_get; [apply all_concerts_data_NoDup | exact Hin].
  - intros db t [aid aname] ad ac Had Hac. unfold artist_detail in Had.
    destruct (concerts_for_artist (all_concerts_data db) aid) as [|x l] eqn:E;
      [discriminate|].
    rewrite <- E in Had. injection Had as <-. cbn [ArtistDetail.concerts] in Hac.
    apply sorted_by_date_desc_In in Hac.
    unfold concerts_for_artist in Hac. apply in_flat_map in Hac.
    destruct Hac as [[cid c] [Hin Hac]]. unfold artist_concert in Hac.
    destruct (find _ (Concert.artists c)) as [a|]; [|contradiction].
    destruct Hac as [<-|[]]. exists c. split; [|reflexivity].
    simpl. apply In_get; [apply all_concerts_data_NoDup | exact Hin].
  - exists Sample.one_show.
    do 4 eexists.
    split; [vm_compute; reflexivity|].
    split; [reflexivity|]. split; [reflexivity|]. split; [reflexivity|].
    split; [|split]; eexists; (split; [left; reflexivity|split; reflexivity]).
Qed.

(** The venue file of the one-show database. *)
Lemma details_copy_stored_has_setlist_witness :
  exists c,
    PyDict.get "c1" (all_concerts_data Sample.one_show) = Some c /\
    false = get_or (Concert.has_setlist c) false.
Proof.
  destruct (proj1 details_copy_stored_has_setlist Sample.one_show
              ("v1", Sample.venue_doc) _ _ eq_refl (or_introl eq_refl))
    as (c & Hget & Hflag).
  exists c. split; [exact Hget | exact Hflag].
Defined.

(** ** Counting loops *)

Lemma len_nil {A} : len (@nil A) = 0.
Proof. reflexivity. Qed.

Lemma len_cons {A} (x : A) l : len (x :: l) = 1 + len l.
Proof. unfold len. simpl List.length. lia. Qed.

Lemma len_app {A} (l1 l2 : list A) : len (l1 ++ l2) = len l1 + len l2.
Proof. unfold len. rewrite length_app. lia. Qed.

Lemma len_nonneg {A} (l : list A) : 0 <= len l.
Proof. unfold len. lia. Qed.

Lemma fold_left_eq {A B} (f g : B -> A -> B) (l : list A) :
  (forall b a, f b a = g b a) -> forall b, fold_left f l b = fold_left g l b.
Proof.
  intros Hfg. induction l as [|a l IH]; intros b; simpl; auto.
  now rewrite Hfg, IH.
Qed.

Lemma count_of_incr (k k' : string) (d : PyDict.t string Z) :
  count_of k (incr k' d) = count_of k d + (if key_eqb k k' then 1 else 0).
Proof.
  unfold count_of, incr. destruct (key_eqb_spec k k') as [->|Hne].
  - rewrite get_upd_same. reflexivity.
  - rewrite get_upd_other by exact Hne. simpl. lia.
Qed.

(** A loop that files each element under an optional key counts, for
    each key, the elements filed under it. *)
Lemma count_of_fold {A} (g : A -> option string) (k : string) (l : list A) :
  forall d,
    count_of k (fold_left (fun d x => match g x with
                                      | Some k' => incr k' d
                                      | None => d
                                      end) l d)
    = count_of k d + len (filter (fun x => key_eqb (g x) (Some k)) l).
Proof.
  induction l as [|x l IH]; intros d; simpl.
  - rewrite len_nil. lia.
  - rewrite IH. destruct (g x) as [k'|]; simpl.
    + rewrite count_of_incr.
      change (key_eqb (Some k') (Some k)) with (key_eqb k' k).
      destruct (key_eqb_spec k k') as [->|Hne].
      * rewrite key_eqb_refl, len_cons. lia.
      * rewrite key_eqb_neq by congruence. lia.
    + lia.
Qed.

Lemma truthy_key_eqb (o : option string) (k : string) :
  key_eqb (truthy_key o) (Some k) = negb (k =? "")%string && key_eqb o (Some k).
Proof.
  unfold truthy_key, truthy, key_eqb, option_PyKey, option_eqb, key_eqb, string_PyKey.
  destruct o as [s|]; [|now rewrite andb_false_r].
  destruct (s =? "")%string eqn:E1, (k =? "")%string eqn:E2, (s =? k)%string eqn:E3;
    simpl; try reflexivity;
    rewrite ?String.eqb_eq, ?String.eqb_neq in *; congruence.
Qed.

Lemma filter_truthy_key {A} (f : A -> option string) (k : string) (l : list A) :
  filter (fun x => key_eqb (truthy_key (f x)) (Some k)) l =
  if (k =? "")%string then [] else filter (fun x => key_eqb (f x) (Some k)) l.
Proof.
  induction l as [|x l IH]; simpl.
  - now destruct (k =? "")%string.
  - rewrite IH, truthy_key_eqb. destruct (k =? "")%string; reflexivity.
Qed.

Lemma count_roster_fold (k : string) (cs : list Concert.t) :
  forall d,
    count_of k (fold_left count_roster cs d) =
    count_of k d +
    if (k =? "")%string then 0
    else len (filter (fun a => key_eqb (Artist.artist_id a) (Some k))
                (flat_map Concert.artists cs)).
Proof.
  induction cs as [|c cs IH]; intros d; simpl.
  - destruct (k =? "")%string; rewrite ?len_nil; lia.
  - rewrite IH. unfold count_roster.
    rewrite (fold_left_eq _
               (fun d a => match truthy_key (Artist.artist_id a) with
                           | Some k' => incr k' d
                           | None => d
                           end)).
    + rewrite count_of_fold, filter_truthy_key, filter_app, len_app.
      destruct (k =? "")%string; rewrite ?len_nil; lia.
    + intros b a. unfold truthy_key. destruct (Artist.artist_id a); simpl; auto.
      now destruct (negb _).
Qed.

Lemma artist_concert_counts_spec acd (k : string) :
  count_of k (artist_concert_counts acd) =
  if (k =? "")%string then 0 else memberships acd k.
Proof.
  unfold artist_concert_counts. rewrite count_roster_fold.
  unfold count_of at 1. simpl. reflexivity.
Qed.

Lemma venue_concert_counts_spec acd (k : string) :
  count_of k (venue_concert_counts acd) =
  if (k =? "")%string then 0 else concerts_at acd k.
Proof.
  unfold venue_concert_counts.
  rewrite (fold_left_eq _
             (fun d c => match truthy_key (Concert.venue_id c) with
                         | Some k' => incr k' d
                         | None => d
                         end)).
  - rewrite count_of_fold, filter_truthy_key. unfold count_of at 1. simpl.
    destruct (k =? "")%string; rewrite ?len_nil; reflexivity.
  - intros b c. unfold truthy_key. destruct (Concert.venue_id c); simpl; auto.
    now destruct (negb _).
Qed.

Lemma fold_append_filter {A B} (p : A -> bool) (f : A -> B) (l : list A) :
  forall acc,
    fold_left (fun rows x => if p x then (rows ++ [f x])%list else rows) l acc =
    (acc ++ map f (filter p l))%list.
Proof.
  induction l as [|x l IH]; intros acc; simpl.
  - now rewrite app_nil_r.
  - rewrite IH. destruct (p x); simpl; auto. now rewrite <- app_assoc.
Qed.

(** ** The artist and venue directories *)

Lemma artist_rows_spec db acd :
  artist_rows db acd =
  map (fun item => {| ArtistRow.id := fst item; ArtistRow.name := snd item;
                      ArtistRow.concert_count := count_of (fst item) (artist_concert_counts acd) |})
      (filter (fun item => 0 <? count_of (fst item) (artist_concert_counts acd))
         (artist_names_map db)).
Proof.
  unfold artist_rows.
  exact (fold_append_filter
           (fun item => 0 <? count_of (fst item) (artist_concert_counts acd))
           (fun item => {| ArtistRow.id := fst item; ArtistRow.name := snd item;
                           ArtistRow.concert_count :=
                             count_of (fst item) (artist_concert_counts acd) |})
           (artist_names_map db) []).
Qed.

Lemma venue_rows_spec db acd :
  venue_rows db acd =
  map (fun item => {| VenueRow.id := fst item;
                      VenueRow.name := get_or (VenueDoc.canonical_name (snd item)) "";
                      VenueRow.city := get_or (VenueDoc.city (snd item)) "";
                      VenueRow.state := get_or (VenueDoc.state (snd item)) "";
                      VenueRow.concert_count := count_of (fst item) (venue_concert_counts acd) |})
      (filter (fun item => 0 <? count_of (fst item) (venue_concert_counts acd))
         (venue_data_map db)).
Proof.
  unfold venue_rows.
  exact (fold_append_filter
           (fun item => 0 <? count_of (fst item) (venue_concert_counts acd))
           (fun item => {| VenueRow.id := fst item;
                           VenueRow.name := get_or (VenueDoc.canonical_name (snd item)) "";
                           VenueRow.city := get_or (VenueDoc.city (snd item)) "";
                           VenueRow.state := get_or (VenueDoc.state (snd item)) "";
                           VenueRow.concert_count :=
                             count_of (fst item) (venue_concert_counts acd) |})
           (venue_data_map db) []).
Qed.

Lemma In_artists_out db acd r :
  In r (artists_out db acd) <->
  exists n, PyDict.get (ArtistRow.id r) (artist_names_map db) = Some n /\
    ArtistRow.id r <> "" /\ 0 < memberships acd (ArtistRow.id r) /\
    r = {| ArtistRow.id := ArtistRow.id r; ArtistRow.name := n;
           ArtistRow.concert_count := memberships acd (ArtistRow.id r) |}.
Proof.
  unfold artists_out. rewrite sorted_by_In, artist_rows_spec, in_map_iff.
  split.
  - intros [[aid n] [<- Hin]]. apply filter_In in Hin. destruct Hin as [Hin Hpos].
    simpl in *. apply Z.ltb_lt in Hpos. rewrite artist_concert_counts_spec in *.
    destruct (String.eqb_spec aid "") as [->|Hne]; [lia|].
    exists n. repeat split; auto.
    apply In_get; [apply artist_names_map_NoDup | exact Hin].
  - intros (n & Hget & Hne & Hpos & Hr). exists (ArtistRow.id r, n). simpl.
    rewrite artist_concert_counts_spec.
    apply String.eqb_neq in Hne. rewrite Hne. split; [now symmetry|].
    apply filter_In. split; [now apply get_In|]. simpl.
    rewrite artist_concert_counts_spec, Hne. now apply Z.ltb_lt.
Qed.

Lemma In_venues_out db acd r :
  In r (venues_out db acd) <->
  exists v, PyDict.get (VenueRow.id r) (venue_data_map db) = Some v /\
    VenueRow.id r <> "" /\ 0 < concerts_at acd (VenueRow.id r) /\
    r = {| VenueRow.id := VenueRow.id r;
           VenueRow.name := get_or (VenueDoc.canonical_name v) "";
           VenueRow.city := get_or (VenueDoc.city v) "";
           VenueRow.state := get_or (VenueDoc.state v) "";
           VenueRow.concert_count := concerts_at acd (VenueRow.id r) |}.
Proof.
  unfold venues_out. rewrite sorted_by_In, venue_rows_spec, in_map_iff.
  split.
  - intros [[vid v] [<- Hin]]. apply filter_In in Hin. destruct Hin as [Hin Hpos].
    simpl in *. apply Z.ltb_lt in Hpos. rewrite venue_concert_counts_spec in *.
    destruct (String.eqb_spec vid "") as [->|Hne]; [lia|].
    exists v. repeat split; auto.
    apply In_get; [apply venue_data_map_NoDup | exact Hin].
  - intros (v & Hget & Hne & Hpos & Hr). exists (VenueRow.id r, v). simpl.
    rewrite venue_concert_counts_spec.
    apply String.eqb_neq in Hne. rewrite Hne. split; [now symmetry|].
    apply filter_In. split; [now apply get_In|]. simpl.
    rewrite venue_concert_counts_spec, Hne. now apply Z.ltb_lt.
Qed.

Lemma key_leb_desc_count (c1 c2 : Z) (n1 n2 : string) :
  key_leb (- c1, n1) (- c2, n2) = true ->
  c2 < c1 \/ (c1 = c2 /\ String.leb n1 n2 = true).
Proof.
  unfold key_leb; simpl. rewrite orb_true_iff, andb_true_iff, Z.ltb_lt, Z.eqb_eq.
  intros [H|[H1 H2]]; [left; lia | right; split; [lia | exact H2]].
Qed.

Lemma NoDup_fst_filter {A B} (p : A * B -> bool) (l : list (A * B)) :
  NoDup (map fst l) -> NoDup (map fst (filter p l)).
Proof.
  induction l as [|x l IH]; simpl; intros Hnd; [constructor|].
  inversion Hnd as [|? ? Hnin Hnd']; subst.
  destruct (p x); simpl; [|auto].
  constructor; [|auto]. intros Hx. apply Hnin.
  apply in_map_iff in Hx. destruct Hx as (y & Ey & Hy).
  apply filter_In in Hy. apply in_map_iff. exists y. tauto.
Qed.

Lemma artists_out_ids_NoDup db acd : NoDup (map ArtistRow.id (artists_out db acd)).
Proof.
  unfold artists_out.
  apply (Permutation_NoDup (l := map ArtistRow.id (artist_rows db acd)));
    [apply Permutation_map, sorted_by_perm|].
  rewrite artist_rows_spec, map_map. simpl.
  apply NoDup_fst_filter. apply artist_names_map_NoDup.
Qed.

Lemma venues_out_ids_NoDup db acd : NoDup (map VenueRow.id (venues_out db acd)).
Proof.
  unfold venues_out.
  apply (Permutation_NoDup (l := map VenueRow.id (venue_rows db acd)));
    [apply Permutation_map, sorted_by_perm|].
  rewrite venue_rows_spec, map_map. simpl.
  apply NoDup_fst_filter. apply venue_data_map_NoDup.
Qed.

(** C8. Every entry of [artists.json] belongs to an artist document, and
    its [concert_count] is the number of roster entries with that artist id
    over all loaded concerts, whatever the role; every entry of
    [venues.json] belongs to a venue document, and its [concert_count] is
    the number of loaded concerts with that venue id.  Every count in
    either file is positive, so an entity whose count is 0 has no entry.
    In both files an entry is followed only by entries with a smaller
    count, or with the same count and a name that is not smaller in the
    order of strings.  Conversely every artist document and every venue
    document whose count is positive has its entry, with the fields of
    the document and that count, and no id has two entries. *)
Theorem directories_count_and_order (db : Db) :
  let acd := all_concerts_data db in
  (forall r, In r (artists_out db acd) ->
     PyDict.get (ArtistRow.id r) (artist_names_map db) = Some (ArtistRow.name r) /\
     ArtistRow.concert_count r = memberships acd (ArtistRow.id r) /\
     0 < ArtistRow.concert_count r) /\
  (forall r, In r (venues_out db acd) ->
     (exists v, PyDict.get (VenueRow.id r) (venue_data_map db) = Some v /\
                VenueRow.name r = get_or (VenueDoc.canonical_name v) "") /\
     VenueRow.concert_count r = concerts_at acd (VenueRow.id r) /\
     0 < VenueRow.concert_count r) /\
  (forall aid, memberships acd aid = 0 ->
     forall r, In r (artists_out db acd) -> ArtistRow.id r <> aid) /\
  (forall vid, concerts_at acd vid = 0 ->
     forall r, In r (venues_out db acd) -> VenueRow.id r <> vid) /\
  (forall l1 a l2 b, artists_out db acd = (l1 ++ a :: l2)%list -> In b l2 ->
     ArtistRow.concert_count b < ArtistRow.concert_count a \/
     (ArtistRow.concert_count a = ArtistRow.concert_count b /\
      String.leb (ArtistRow.name a) (ArtistRow.name b) = true)) /\
  (forall l1 a l2 b, venues_out db acd = (l1 ++ a :: l2)%list -> In b l2 ->
     VenueRow.concert_count b < VenueRow.concert_count a \/
     (VenueRow.concert_count a = VenueRow.concert_count b /\
      String.leb (VenueRow.name a) (VenueRow.name b) = true)) /\
  (forall aid n, PyDict.get aid (artist_names_map db) = Some n -> aid <> "" ->
     0 < memberships acd aid ->
     In {| ArtistRow.id := aid; ArtistRow.name := n;
           ArtistRow.concert_count := memberships acd aid |} (artists_out db acd)) /\
  (forall vid v, PyDict.get vid (venue_data_map db) = Some v -> vid <> "" ->
     0 < concerts_at acd vid ->
     In {| VenueRow.id := vid;
           VenueRow.name := get_or (VenueDoc.canonical_name v) "";
           VenueRow.city := get_or (VenueDoc.city v) "";
           VenueRow.state := get_or (VenueDoc.state v) "";
           VenueRow.concert_count := concerts_at acd vid |} (venues_out db acd)) /\
  NoDup (map ArtistRow.id (artists_out db acd)) /\
  NoDup (map VenueRow.id (venues_out db acd)).
Proof.
  intros acd.
  assert (HA : forall r, In r (artists_out db acd) ->
     PyDict.get (ArtistRow.id r) (artist_names_map db) = Some (ArtistRow.name r) /\
     ArtistRow.concert_count r = memberships acd (ArtistRow.id r) /\
     0 < ArtistRow.concert_count r).
  { intros r Hr. apply In_artists_out in Hr.
    destruct Hr as (n & Hget & _ & Hpos & Hr).
    destruct r as [rid rname rcount]. simpl in *.
    injection Hr as Hn Hc. subst. auto. }
  assert (HV : forall r, In r (venues_out db acd) ->
     (exists v, PyDict.get (VenueRow.id r) (venue_data_map db) = Some v /\
                VenueRow.name r = get_or (VenueDoc.canonical_name v) "") /\
     VenueRow.concert_count r = concerts_at acd (VenueRow.id r) /\
     0 < VenueRow.concert_count r).
  { intros r Hr. apply In_venues_out in Hr.
    destruct Hr as (v & Hget & _ & Hpos & Hr).
    destruct r as [rid rname rcity rstate rcount]. simpl in *.
    injection Hr as Hn _ _ Hc. subst.
    split; [exists v|]; auto. }
  split; [exact HA|]. split; [exact HV|].
  split; [|split; [|split; [|split; [|split; [|split; [|split]]]]]].
  - intros aid H0 r Hr E. subst aid. destruct (HA r Hr) as (_ & Hc & Hpos). lia.
  - intros vid H0 r Hr E. subst vid. destruct (HV r Hr) as (_ & Hc & Hpos). lia.
  - intros l1 a l2 b E Hb. apply key_leb_desc_count.
    change (key_leb (artist_key a) (artist_key b) = true).
    apply (sorted_by_later (fun x y => key_leb (artist_key x) (artist_key y)))
      with (l := artist_rows db acd) (l1 := l1) (l2 := l2); auto.
    + intros x y. apply key_leb_total.
    + intros x y z. apply key_leb_trans.
  - intros l1 a l2 b E Hb. apply key_leb_desc_count.
    change (key_leb (venue_key a) (venue_key b) = true).
    apply (sorted_by_later (fun x y => key_leb (venue_key x) (venue_key y)))
      with (l := venue_rows db acd) (l1 := l1) (l2 := l2); auto.
    + intros x y. apply key_leb_total.
    + intros x y z. apply key_leb_trans.
  - intros aid n Hget Hne Hpos. apply In_artists_out.
    cbn [ArtistRow.id]. exists n. auto.
  - intros vid v Hget Hne Hpos. apply In_venues_out.
    cbn [VenueRow.id]. exists v. auto.
  - apply artists_out_ids_NoDup.
  - apply venues_out_ids_NoDup.
Qed.

(** The row of Headliner B in the one-show database: the artist document
    has one roster entry, so the row is in [artists.json], with that
    count. *)
Lemma directories_count_and_order_witness :
  let acd := all_concerts_data Sample.one_show in
  let r := {| ArtistRow.id := "a1"; ArtistRow.name := "Headliner B";
              ArtistRow.concert_count := 1 |} in
  In r (artists_out Sample.one_show acd) /\
  ArtistRow.concert_count r = memberships acd (ArtistRow.id r).
Proof.
  cbv zeta.
  destruct (directories_count_and_order Sample.one_show)
    as (Hrows & _ & _ & _ & _ & _ & Hdocs & _).
  assert (Hin : In {| ArtistRow.id := "a1"; ArtistRow.name := "Headliner B";
                      ArtistRow.concert_count := 1 |}
                   (artists_out Sample.one_show (all_concerts_data Sample.one_show))).
  { apply (Hdocs "a1" "Headliner B"); [reflexivity | discriminate | reflexivity]. }
  split; [exact Hin | apply (Hrows _ Hin)].
Defined.

(** ** File names *)

Lemma rfind_dot_json (c : string) : rfind_dot (c ++ ".json") = Some (String.length c).
Proof.
  induction c as [|a c IH]; simpl.
  - reflexivity.
  - now rewrite IH.
Qed.

Lemma length_append_json (c : string) :
  String.length (c ++ ".json") = (String.length c + 5)%nat.
Proof. induction c as [|a c IH]; simpl; [reflexivity | now rewrite IH]. Qed.

Lemma substring_append (c t : string) : substring 0 (String.length c) (c ++ t) = c.
Proof.
  induction c as [|a c IH]; simpl.
  - now destruct t.
  - now rewrite IH.
Qed.

Lemma stem_json (c : string) : c <> "" -> stem (c ++ ".json") = c.
Proof.
  intros Hc. unfold stem. rewrite rfind_dot_json, length_append_json.
  assert (Hlen : (0 < String.length c)%nat) by (destruct c; simpl; [congruence | lia]).
  replace ((0 <? String.length c)%nat) with true by (symmetry; now apply Nat.ltb_lt).
  replace ((String.length c <? String.length c + 5 - 1)%nat) with true
    by (symmetry; apply Nat.ltb_lt; lia).
  simpl. apply substring_append.
Qed.

Lemma glob_json_json (c : string) : glob_json (c ++ ".json") = true.
Proof.
  unfold glob_json. induction c as [|a c IH].
  - reflexivity.
  - change ((String a c ++ ".json")%string) with (String a (c ++ ".json")).
    cbn [ends_with]. rewrite IH. apply orb_true_r.
Qed.

(** ** Runs *)

Lemma bind_ok {A B} (m : Run A) (k : A -> Run B) fs a fs' :
  m fs = (inr a, fs') -> bind m k fs = k a fs'.
Proof. unfold bind. now intros ->. Qed.

Lemma keeps_ret {A} (a : A) : keeps_concert_files (ret a).
Proof. intros fs; split; reflexivity. Qed.

Lemma keeps_raise {A} (e : Exn) : keeps_concert_files (@raise A e).
Proof. intros fs; split; reflexivity. Qed.

Lemma keeps_bind {A B} (m : Run A) (k : A -> Run B) :
  keeps_concert_files m -> (forall a, keeps_concert_files (k a)) ->
  keeps_concert_files (bind m k).
Proof.
  intros Hm Hk fs. unfold bind. specialize (Hm fs).
  destruct (m fs) as [[e|a] fs1]; simpl in *; auto.
  destruct (Hk a fs1) as [H1 H2]. destruct Hm as [H3 H4]. split; congruence.
Qed.

Lemma keeps_for_each {A} (l : list A) (body : A -> Run unit) :
  (forall x, keeps_concert_files (body x)) -> keeps_concert_files (for_each l body).
Proof.
  intros Hb. induction l as [|x l IH]; simpl.
  - apply keeps_ret.
  - apply keeps_bind; auto.
Qed.

Lemma keeps_fold_run {A S} (body : S -> A -> Run S) (l : list A) :
  (forall s x, keeps_concert_files (body s x)) ->
  forall s, keeps_concert_files (fold_run body l s).
Proof.
  intros Hb. induction l as [|x l IH]; intros s; simpl.
  - apply keeps_ret.
  - apply keeps_bind; auto.
Qed.

Lemma keeps_int_of s : keeps_concert_files (int_of s).
Proof. unfold int_of. destruct (py_int s); [apply keeps_ret | apply keeps_raise]. Qed.

Lemma keeps_export_tail db acd ids artists venues :
  keeps_concert_files (export_tail db acd ids artists venues).
Proof.
  unfold export_tail.
  apply keeps_bind.
  { apply keeps_fold_run. intros d c. unfold year_step.
    destruct (_ && _); [|apply keeps_ret].
    apply keeps_bind; [apply keeps_int_of | intros; apply keeps_ret]. }
  intros by_year. apply keeps_bind; [intros fs; split; reflexivity|]. intros _.
  apply keeps_bind; [intros fs; split; reflexivity|]. intros _.
  apply keeps_bind.
  { apply keeps_for_each. intros item.
    destruct (venue_detail acd item); [intros fs; split; reflexivity | apply keeps_ret]. }
  intros _. unfold write_artist_details.
  apply keeps_for_each. intros item.
  destruct (artist_detail acd _ item); [intros fs; split; reflexivity | apply keeps_ret].
Qed.

(** ** Grouping, detail files and the flag *)

Lemma keys_fold_set {A K V} `{PyKeyLaws K} (f : A -> K) (g : A -> V) (k : K) (l : list A) :
  forall d : PyDict.t K V,
    In k (PyDict.keys (fold_left (fun d x => PyDict.set (f x) (g x) d) l d)) <->
    In k (PyDict.keys d) \/ In k (map f l).
Proof.
  induction l as [|x l IH]; intros d; simpl.
  - tauto.
  - rewrite IH, keys_set_In. intuition.
Qed.

Lemma all_concerts_data_keys db cid :
  In cid (PyDict.keys (all_concerts_data db)) <-> In cid (map fst (concerts db)).
Proof.
  unfold all_concerts_data. rewrite (keys_fold_set fst snd). simpl. tauto.
Qed.

Lemma groupable_spec acd s cid :
  groupable acd s = Some cid <->
  Setlist.concert_id s = Some cid /\ cid <> "" /\ PyDict.mem cid acd = true.
Proof.
  unfold groupable. destruct (Setlist.concert_id s) as [c|]; [|intuition discriminate].
  destruct (String.eqb_spec c "") as [->|Hne]; simpl.
  - split; [discriminate|]. intros (E & Hc & _). congruence.
  - destruct (PyDict.mem c acd) eqn:Em.
    + split.
      * intros E. injection E as <-. auto.
      * intros (E & _). exact E.
    + split; [discriminate|]. intros (E & _ & Hm). congruence.
Qed.

Lemma setlists_by_concert_keys_from acd docs cid :
  forall d : PyDict.t string (list Setlist.t),
    In cid (PyDict.keys
              (fold_left
                 (fun d s => match groupable acd s with
                             | Some c => PyDict.upd [] (fun l => (l ++ [s])%list) c d
                             | None => d
                             end) docs d)) <->
    In cid (PyDict.keys d) \/ exists s, In s docs /\ groupable acd s = Some cid.
Proof.
  induction docs as [|s docs IH]; intros d; simpl.
  - split; [auto|]. intros [H|[s [[] _]]]. exact H.
  - rewrite IH. destruct (groupable acd s) as [c|] eqn:E.
    + unfold PyDict.upd. rewrite keys_set_In. split.
      * intros [[->|H]|[s' [Hs' E']]]; eauto.
      * intros [H|[s' [[<-|Hs'] E']]]; eauto.
        left. left. congruence.
    + split.
      * intros [H|[s' [Hs' E']]]; eauto.
      * intros [H|[s' [[<-|Hs'] E']]]; eauto. congruence.
Qed.

Lemma setlists_by_concert_keys acd docs cid :
  In cid (PyDict.keys (setlists_by_concert acd docs)) <->
  exists s, In s docs /\ groupable acd s = Some cid.
Proof.
  unfold setlists_by_concert. rewrite setlists_by_concert_keys_from. simpl. tauto.
Qed.

Lemma existsb_eqb_In (x : string) (l : list string) :
  existsb (String.eqb x) l = true <-> In x l.
Proof.
  rewrite existsb_exists. split.
  - intros [y [Hy E]]. apply String.eqb_eq in E. now subst.
  - intros H. exists x. split; [exact H | apply String.eqb_refl].
Qed.

Lemma write_concert_details_ok db acd groups :
  (forall item, In item groups -> PyDict.mem (fst item) acd = true) ->
  forall fs, exists fs',
    write_concert_details db acd groups fs = (inr tt, fs') /\
    forall name,
      In name (PyDict.keys (concert_details fs')) <->
      In name (PyDict.keys (concert_details fs)) \/
      exists cid, In cid (PyDict.keys groups) /\ name = cid ++ ".json".
Proof.
  unfold write_concert_details.
  induction groups as [|[cid l] groups IH]; intros Hmem fs.
  - exists fs. split; [reflexivity|]. intros name. split; [auto|].
    intros [H|[c [[] _]]]. exact H.
  - assert (Hc : exists c, PyDict.get cid acd = Some c).
    { specialize (Hmem (cid, l) (or_introl eq_refl)). unfold PyDict.mem in Hmem.
      simpl in Hmem. destruct (PyDict.get cid acd) as [c|]; [eauto|discriminate]. }
    destruct Hc as [c Hc].
    set (fs1 := {| concerts_json := concerts_json fs;
                   concert_details :=
                     PyDict.set (cid ++ ".json") (concert_detail db cid c l)
                       (concert_details fs);
                   artists_json := artists_json fs; venues_json := venues_json fs;
                   stats_json := stats_json fs; songs_json := songs_json fs;
                   venue_details := venue_details fs;
                   artist_details := artist_details fs |}).
    destruct (IH (fun item Hin => Hmem item (or_intror Hin)) fs1) as (fs' & Hrun & Hkeys).
    exists fs'. split.
    + cbn [for_each]. erewrite bind_ok; [exact Hrun|].
      unfold lookup. cbn [fst snd]. rewrite Hc. reflexivity.
    + intros name. rewrite Hkeys. unfold fs1. cbn [concert_details].
      rewrite keys_set_In. simpl. split.
      * intros [[->|H]|[c' [Hc' ->]]]; eauto.
      * intros [H|[c' [[<-|Hc'] ->]]]; eauto.
Qed.

Lemma cleanup_loop_ok (ids existing : list string) :
  forall fs, exists fs',
    for_each existing
      (fun file => if existsb (String.eqb (stem file)) ids then ret tt
                   else with_concert_details (PyDict.remove file)) fs = (inr tt, fs') /\
    concerts_json fs' = concerts_json fs /\
    forall name,
      In name (PyDict.keys (concert_details fs')) <->
      In name (PyDict.keys (concert_details fs)) /\
      ~ (In name existing /\ ~ In (stem name) ids).
Proof.
  induction existing as [|file existing IH]; intros fs.
  - exists fs. split; [reflexivity|]. split; [reflexivity|]. intros name. simpl. tauto.
  - cbn [for_each]. destruct (existsb (String.eqb (stem file)) ids) eqn:E.
    + destruct (IH fs) as (fs' & Hrun & Hcj & Hkeys). exists fs'.
      split; [exact Hrun|]. split; [exact Hcj|].
      intros name. rewrite Hkeys. apply existsb_eqb_In in E. simpl.
      split; intros [H1 H2]; split; auto.
      * intros [[<-|Hin] Hn]; tauto.
      * intros [Hin Hn]. apply H2. tauto.
    + set (fs1 := {| concerts_json := concerts_json fs;
                     concert_details := PyDict.remove file (concert_details fs);
                     artists_json := artists_json fs; venues_json := venues_json fs;
                     stats_json := stats_json fs; songs_json := songs_json fs;
                     venue_details := venue_details fs;
                     artist_details := artist_details fs |}).
      destruct (IH fs1) as (fs' & Hrun & Hcj & Hkeys). exists fs'.
      split; [exact Hrun|]. split; [exact Hcj|].
      intros name. rewrite Hkeys. unfold fs1. cbn [concert_details].
      rewrite keys_remove_In.
      assert (Hnot : ~ In (stem file) ids).
      { intros H. apply existsb_eqb_In in H. congruence. }
      simpl. split.
      * intros [[Hne Hin] H2]. split; [exact Hin|].
        intros [[<-|Hex] Hn]; [congruence | tauto].
      * intros [Hin H2]. split; [split; [|exact Hin]|].
        -- intros ->. apply H2. tauto.
        -- intros [Hex Hn]. apply H2. tauto.
Qed.

Lemma cleanup_stale_ok (ids : list string) :
  forall fs, exists fs',
    cleanup_stale ids fs = (inr tt, fs') /\
    concerts_json fs' = concerts_json fs /\
    forall name,
      In name (PyDict.keys (concert_details fs')) <->
      In name (PyDict.keys (concert_details fs)) /\
      (glob_json name = true -> In (stem name) ids).
Proof.
  intros fs. unfold cleanup_stale, bind, read.
  destruct (cleanup_loop_ok ids (filter glob_json (PyDict.keys (concert_details fs))) fs)
    as (fs' & Hrun & Hcj & Hkeys).
  exists fs'. split; [exact Hrun|]. split; [exact Hcj|].
  intros name. rewrite Hkeys, filter_In. split.
  - intros [Hin Hn]. split; [exact Hin|]. intros Hg.
    destruct (in_dec string_dec (stem name) ids) as [Hs|Hs]; [exact Hs|].
    exfalso. apply Hn. tauto.
  - intros [Hin Hg]. split; [exact Hin|]. intros [[_ Hglob] Hn]. auto.
Qed.

Lemma update_hasSetlist_id ids row :
  ConcertRow.id (update_hasSetlist ids row) = ConcertRow.id row.
Proof. unfold update_hasSetlist. now destruct (existsb _ ids). Qed.

Lemma update_hasSetlist_flag ids doc :
  ConcertRow.hasSetlist (update_hasSetlist ids (concert_row doc)) =
  existsb (String.eqb (fst doc)) ids.
Proof.
  unfold update_hasSetlist. destruct doc as [cid c]. simpl.
  now destruct (existsb (String.eqb cid) ids).
Qed.

Lemma orphaned_false acd s cid :
  Setlist.concert_id s = Some cid ->
  (orphaned acd s = false <-> PyDict.mem cid acd = true).
Proof.
  unfold orphaned. intros ->. destruct (PyDict.mem cid acd); simpl; intuition congruence.
Qed.

(** C1. Document ids are not empty.  Whatever the output tree was before
    the run, and whether or not a later stage raises, after the run
    [concerts.json] holds one record per loaded concert, in stream order,
    and for each record: [hasSetlist] is true exactly when some setlist
    that is not orphaned has this concert's id as its [concert_id], and
    exactly when the file [<id>.json] is in [concert_details/].  No other
    [*.json] file is left there: the stem of each is the [concert_id] of a
    setlist that is not orphaned. *)
Theorem hasSetlist_iff_detail_file (db : Db) (fs0 : FS)
    (Hids : forall doc, In doc (concerts db) -> fst doc <> "") :
  let acd := all_concerts_data db in
  let fs := snd (export_to_json db fs0) in
  exists rows,
    concerts_json fs = Some rows /\
    map ConcertRow.id rows = map fst (concerts db) /\
    (forall r, In r rows ->
       (ConcertRow.hasSetlist r = true <->
        exists s, In s (setlists db) /\ orphaned acd s = false /\
                  Setlist.concert_id s = Some (ConcertRow.id r)) /\
       (ConcertRow.hasSetlist r = true <->
        In (ConcertRow.id r ++ ".json") (PyDict.keys (concert_details fs)))) /\
    (forall name, In name (PyDict.keys (concert_details fs)) -> glob_json name = true ->
       exists s, In s (setlists db) /\ orphaned acd s = false /\
                 Setlist.concert_id s = Some (stem name)).
Proof.
  intros acd fs.
  set (groups := setlists_by_concert acd (setlists db)).
  set (ids := PyDict.keys groups).
  set (rows := map (update_hasSetlist ids) (concerts_list db)).
  assert (Hgroups : forall cid, In cid ids <->
            exists s, In s (setlists db) /\ Setlist.concert_id s = Some cid /\
                      cid <> "" /\ PyDict.mem cid acd = true).
  { intros cid. unfold ids, groups. rewrite setlists_by_concert_keys.
    split; intros [s [Hs H]]; exists s; (split; [exact Hs|]); now apply groupable_spec. }
  assert (Hmem : forall item, In item groups -> PyDict.mem (fst item) acd = true).
  { intros item Hin. assert (Hk : In (fst item) ids) by (apply in_map; exact Hin).
    apply Hgroups in Hk. destruct Hk as (s & _ & _ & _ & Hm). exact Hm. }
  destruct (write_concert_details_ok db acd groups Hmem fs0) as (fs1 & Hrun1 & Hkeys1).
  destruct (cleanup_stale_ok ids fs1) as (fs2 & Hrun2 & _ & Hkeys2).
  set (fs3 := {| concerts_json := Some rows; concert_details := concert_details fs2;
                 artists_json := artists_json fs2; venues_json := venues_json fs2;
                 stats_json := stats_json fs2; songs_json := songs_json fs2;
                 venue_details := venue_details fs2;
                 artist_details := artist_details fs2 |}).
  set (rest := write_artists_json (artists_out db acd) ;;;
               write_venues_json (venues_out db acd) ;;;
               export_tail db acd ids (artists_out db acd) (venues_out db acd)).
  assert (Hrun : export_to_json db fs0 = rest fs3).
  { unfold export_to_json. fold acd. fold groups. fold ids.
    erewrite bind_ok; [|exact Hrun1]. erewrite bind_ok; [|exact Hrun2].
    erewrite bind_ok; [|reflexivity]. reflexivity. }
  assert (Hkeep : keeps_concert_files rest).
  { unfold rest. apply keeps_bind; [intros x; split; reflexivity|]. intros _.
    apply keeps_bind; [intros x; split; reflexivity|]. intros _.
    apply keeps_export_tail. }
  destruct (Hkeep fs3) as [Hcj Hcd].
  exists rows. unfold fs. rewrite Hrun, Hcj, Hcd. cbn [fs3 concerts_json concert_details].
  split; [reflexivity|]. split.
  { unfold rows, concerts_list. rewrite !map_map. apply map_ext.
    intros [cid c]. now rewrite update_hasSetlist_id. }
  split.
  2:{ intros name Hin Hglob. apply Hkeys2 in Hin. destruct Hin as [_ Hstem].
      apply Hgroups in Hstem; [|exact Hglob].
      destruct Hstem as (s & Hs & Hc & _ & Hm). exists s. split; [exact Hs|].
      split; [|exact Hc]. now apply (orphaned_false acd s Hc). }
  intros r Hr. unfold rows, concerts_list in Hr. rewrite map_map in Hr.
  apply in_map_iff in Hr. destruct Hr as [doc [<- Hdoc]].
  rewrite update_hasSetlist_flag, update_hasSetlist_id.
  replace (ConcertRow.id (concert_row doc)) with (fst doc) by now destruct doc.
  rewrite existsb_eqb_In.
  assert (Hne : fst doc <> "") by (apply Hids; exact Hdoc).
  assert (Hloaded : PyDict.mem (fst doc) acd = true).
  { apply mem_keys. apply all_concerts_data_keys. now apply in_map. }
  split.
  - rewrite Hgroups. split.
    + intros (s & Hs & Hc & _ & Hm). exists s. split; [exact Hs|]. split; [|exact Hc].
      now apply (orphaned_false acd s Hc).
    + intros (s & Hs & _ & Hc). exists s. auto.
  - rewrite Hkeys2, Hkeys1, glob_json_json, stem_json by exact Hne. split.
    + intros Hin. split; [|auto]. right. exists (fst doc). auto.
    + intros [_ H]. now apply H.
Qed.

(** The one-show database, run on an empty output tree. *)
Lemma hasSetlist_iff_detail_file_witness :
  exists rows,
    concerts_json (snd (export_to_json Sample.one_show Sample.empty_fs)) = Some rows /\
    map ConcertRow.id rows = ["c1"].
Proof.
  destruct (hasSetlist_iff_detail_file Sample.one_show Sample.empty_fs)
    as (rows & Hrows & Hmap & _ & _).
  - intros doc [<-|[]]. simpl. discriminate.
  - exists rows. split; [exact Hrows | exact Hmap].
Defined.

(** ** Song counts *)

Lemma concert_of_orphaned acd s :
  orphaned acd s = match concert_of acd s with Some _ => false | None => true end.
Proof.
  unfold orphaned, concert_of, PyDict.mem.
  destruct (Setlist.concert_id s) as [cid|]; [|reflexivity].
  now destruct (PyDict.get cid acd).
Qed.

Lemma credit_song_counts n song primary :
  forall acc,
    song_counts (fold_left (credit_song n song) primary acc) = song_counts acc /\
    song_cover_counts (fold_left (credit_song n song) primary acc) = song_cover_counts acc.
Proof.
  induction primary as [|a primary IH]; intros acc; simpl; [auto|].
  destruct (IH (credit_song n song acc a)) as [H1 H2]. rewrite H1, H2. auto.
Qed.

Lemma credit_closing_counts n primary :
  forall acc,
    song_counts (fold_left (credit_closing n) primary acc) = song_counts acc /\
    song_cover_counts (fold_left (credit_closing n) primary acc) = song_cover_counts acc.
Proof.
  induction primary as [|a primary IH]; intros acc; simpl; [auto|].
  destruct (IH (credit_closing n acc a)) as [H1 H2]. rewrite H1, H2. auto.
Qed.

Lemma truthy_key_name (o : option string) :
  truthy_key o = if (get_or o "" =? "")%string then None else Some (get_or o "").
Proof.
  unfold truthy_key, truthy. destruct o as [s|]; simpl; [|reflexivity].
  now destruct (s =? "")%string.
Qed.

Lemma song_step_counts primary acc song :
  song_counts (song_step primary acc song) = count_step name_key (song_counts acc) song /\
  song_cover_counts (song_step primary acc song) =
  count_step cover_key (song_cover_counts acc) song.
Proof.
  unfold song_step, count_step, cover_key, name_key. rewrite truthy_key_name.
  destruct (get_or (Song.name song) "" =? "")%string.
  - now destruct (truthy_flag (Song.is_cover song)).
  - match goal with |- context [fold_left ?f primary ?a] =>
      destruct (credit_song_counts (get_or (Song.name song) "") song primary a) as [H1 H2]
    end.
    rewrite H1, H2. simpl. now destruct (truthy_flag (Song.is_cover song)).
Qed.

Lemma songs_loop_counts primary songs :
  forall acc,
    song_counts (fold_left (song_step primary) songs acc) =
    fold_left (count_step name_key) songs (song_counts acc) /\
    song_cover_counts (fold_left (song_step primary) songs acc) =
    fold_left (count_step cover_key) songs (song_cover_counts acc).
Proof.
  induction songs as [|song songs IH]; intros acc; simpl; [auto|].
  destruct (IH (song_step primary acc song)) as [H1 H2].
  destruct (song_step_counts primary acc song) as [H3 H4].
  rewrite H1, H2, H3, H4. auto.
Qed.

Lemma closing_step_counts primary songs acc :
  song_counts (closing_step primary songs acc) = song_counts acc /\
  song_cover_counts (closing_step primary songs acc) = song_cover_counts acc.
Proof.
  unfold closing_step. destruct (last_song songs) as [x|]; [|auto].
  destruct (_ =? _)%string; [auto|]. apply credit_closing_counts.
Qed.

Lemma song_pass_counts_from acd docs :
  forall acc,
    song_counts (fold_left (setlist_step acd) docs acc) =
    fold_left (count_step name_key) (played acd docs) (song_counts acc) /\
    song_cover_counts (fold_left (setlist_step acd) docs acc) =
    fold_left (count_step cover_key) (played acd docs) (song_cover_counts acc).
Proof.
  induction docs as [|s docs IH]; intros acc; simpl; [auto|].
  destruct (IH (setlist_step acd acc s)) as [H1 H2]. rewrite H1, H2.
  rewrite !fold_left_app. unfold setlist_step. rewrite concert_of_orphaned.
  destruct (concert_of acd s) as [c|]; simpl; [|auto].
  destruct (closing_step_counts (primary_artists c) (Setlist.songs s)
              (fold_left (song_step (primary_artists c)) (Setlist.songs s) acc)) as [H3 H4].
  destruct (songs_loop_counts (primary_artists c) (Setlist.songs s) acc) as [H5 H6].
  rewrite H3, H4, H5, H6. auto.
Qed.

Lemma song_pass_counts acd docs :
  song_counts (song_pass acd docs) = fold_left (count_step name_key) (played acd docs) [] /\
  song_cover_counts (song_pass acd docs) =
  fold_left (count_step cover_key) (played acd docs) [].
Proof. apply (song_pass_counts_from acd docs empty_acc). Qed.

Lemma count_step_keys (key : Song.t -> option string) (k : string) (l : list Song.t) :
  forall d,
    In k (PyDict.keys (fold_left (count_step key) l d)) <->
    In k (PyDict.keys d) \/ exists song, In song l /\ key song = Some k.
Proof.
  induction l as [|x l IH]; intros d; simpl.
  - split; [auto|]. intros [H|[song [[] _]]]. exact H.
  - rewrite IH. unfold count_step. destruct (key x) as [k'|] eqn:E.
    + unfold incr, PyDict.upd. rewrite keys_set_In. split.
      * intros [[->|H]|[song [Hs E']]]; eauto.
      * intros [H|[song [[<-|Hs] E']]]; eauto. left. left. congruence.
    + split.
      * intros [H|[song [Hs E']]]; eauto.
      * intros [H|[song [[<-|Hs] E']]]; eauto. congruence.
Qed.

Lemma count_step_NoDup (key : Song.t -> option string) (l : list Song.t) :
  forall d, NoDup (PyDict.keys d) -> NoDup (PyDict.keys (fold_left (count_step key) l d)).
Proof.
  induction l as [|x l IH]; intros d Hd; simpl; auto.
  apply IH. unfold count_step. destruct (key x); auto.
  unfold incr, PyDict.upd. now apply NoDup_keys_set.
Qed.

Lemma truthy_key_Some (o : option string) (k : string) :
  truthy_key o = Some k <-> o = Some k /\ k <> "".
Proof.
  unfold truthy_key, truthy. destruct o as [s|]; [|intuition discriminate].
  destruct (String.eqb_spec s ""); simpl; split.
  - discriminate.
  - intros [E Hk]. congruence.
  - intros E. split; congruence.
  - tauto.
Qed.

Lemma song_counts_spec acd docs (n : string) :
  count_of n (song_counts (song_pass acd docs)) =
  if (n =? "")%string then 0 else times_played acd docs n.
Proof.
  destruct (song_pass_counts acd docs) as [-> _].
  unfold name_key. rewrite (count_of_fold (fun song => truthy_key (Song.name song))).
  rewrite filter_truthy_key. unfold count_of. simpl.
  destruct (n =? "")%string; reflexivity.
Qed.

Lemma cover_key_eqb song (n : string) :
  key_eqb (cover_key song) (Some n) =
  negb (n =? "")%string && (song_named n song && truthy_flag (Song.is_cover song)).
Proof.
  unfold cover_key, name_key, song_named.
  destruct (truthy_flag (Song.is_cover song)).
  - rewrite truthy_key_eqb. now rewrite andb_true_r.
  - now rewrite !andb_false_r.
Qed.

Lemma song_cover_counts_spec acd docs (n : string) :
  count_of n (song_cover_counts (song_pass acd docs)) =
  if (n =? "")%string then 0 else times_covered acd docs n.
Proof.
  destruct (song_pass_counts acd docs) as [_ ->].
  rewrite (count_of_fold cover_key). unfold count_of at 1. simpl.
  unfold times_covered.
  induction (played acd docs) as [|song l IH]; simpl.
  - now destruct (n =? "")%string.
  - rewrite cover_key_eqb. destruct (n =? "")%string eqn:E; simpl.
    + exact IH.
    + destruct (song_named n song && truthy_flag (Song.is_cover song));
        [rewrite !len_cons, IH | exact IH]; reflexivity.
Qed.

Lemma times_covered_le acd docs n : times_covered acd docs n <= times_played acd docs n.
Proof.
  unfold times_covered, times_played.
  induction (played acd docs) as [|song l IH]; simpl; [lia|].
  destruct (song_named n song); simpl; [|exact IH].
  destruct (truthy_flag (Song.is_cover song)); rewrite ?len_cons; lia.
Qed.

(** The comparison [k > n / 2] of an integer with a true quotient. *)
Lemma gt_int_float_half (k n : Z) :
  gt_int_float k (true_div n 2) = (n <? 2 * k).
Proof.
  remember (2 * k) as m eqn:Hm.
  unfold gt_int_float, true_div, Qle_bool, Qdiv, Qmult, Qinv, inject_Z. simpl.
  destruct (Z.leb_spec (k * 2) (n * 1 * 1)), (Z.ltb_spec n m); simpl; auto; lia.
Qed.

Lemma gt_int_float_spec (k : Z) (x : Q) :
  gt_int_float k x = true <-> (x < inject_Z k)%Q.
Proof.
  unfold gt_int_float. rewrite negb_true_iff. split.
  - intros H. apply Qnot_le_lt. intros Hle. apply Qle_bool_iff in Hle. congruence.
  - intros H. destruct (Qle_bool (inject_Z k) x) eqn:E; [|reflexivity].
    apply Qle_bool_iff in E. exfalso. exact (Qlt_not_le _ _ H E).
Qed.

Lemma len_pos_In {A} (x : A) (l : list A) : In x l -> 0 < len l.
Proof.
  destruct l; [contradiction|]. intros _. rewrite len_cons.
  pose proof (len_nonneg l). lia.
Qed.

Lemma len_pos_ex {A} (l : list A) : 0 < len l -> exists x, In x l.
Proof.
  destruct l as [|x l]; intros H.
  - unfold len in H. simpl in H. lia.
  - exists x. now left.
Qed.

Lemma song_named_key song (n : string) :
  name_key song = Some n <-> song_named n song = true /\ n <> "".
Proof.
  unfold name_key, song_named. rewrite truthy_key_Some.
  destruct (key_eqb_spec (Song.name song) (Some n)); intuition congruence.
Qed.

(** C6. Every entry of [all_songs] has a non-empty name; its
    [times_heard] is N, the number of songs with that name over the
    setlists that are not orphaned, and N is positive; with K the number
    of those flagged as covers, [is_mostly_cover] is true exactly when
    K exceeds the exact quotient N / 2, that is when N < 2 K.  So K = N / 2
    (in particular 2 K = N) is not flagged and K = N / 2 + 1 is.  Every
    non-empty name that occurs has an entry. *)
Theorem mostly_cover_is_strict_majority (db : Db) :
  let acd := all_concerts_data db in
  let out := songs_data (song_pass acd (setlists db)) in
  (forall e, In e (SongsData.all_songs out) ->
     let N := times_played acd (setlists db) (SongEntry.name e) in
     let K := times_covered acd (setlists db) (SongEntry.name e) in
     SongEntry.name e <> "" /\
     SongEntry.times_heard e = N /\ 0 < N /\ 0 <= K <= N /\
     (SongEntry.is_mostly_cover e = true <-> (inject_Z N / 2 < inject_Z K)%Q) /\
     (SongEntry.is_mostly_cover e = true <-> N < 2 * K) /\
     (2 * K = N -> SongEntry.is_mostly_cover e = false) /\
     (K = N / 2 -> SongEntry.is_mostly_cover e = false) /\
     (K = N / 2 + 1 -> SongEntry.is_mostly_cover e = true)) /\
  (forall n, n <> "" -> 0 < times_played acd (setlists db) n ->
     exists e, In e (SongsData.all_songs out) /\ SongEntry.name e = n).
Proof.
  intros acd out. unfold out. cbn [songs_data SongsData.all_songs].
  set (acc := song_pass acd (setlists db)).
  assert (Hnd : NoDup (PyDict.keys (song_counts acc))).
  { unfold acc. destruct (song_pass_counts acd (setlists db)) as [-> _].
    apply count_step_NoDup. constructor. }
  assert (Hkeys : forall n, In n (PyDict.keys (song_counts acc)) <->
                    exists song, In song (played acd (setlists db)) /\
                                 song_named n song = true /\ n <> "").
  { intros n. unfold acc. destruct (song_pass_counts acd (setlists db)) as [-> _].
    rewrite count_step_keys. simpl. split.
    - intros [[]|[song [Hs Hk]]]. exists song. split; [exact Hs|]. now apply song_named_key.
    - intros [song [Hs Hk]]. right. exists song. split; [exact Hs|]. now apply song_named_key. }
  split.
  - intros e He. unfold all_songs, sorted_desc in He. apply sorted_by_In in He.
    apply in_map_iff in He. destruct He as [[n th] [<- Hin]].
    cbn [song_entry SongEntry.name SongEntry.times_heard SongEntry.is_mostly_cover].
    assert (Hk : In n (PyDict.keys (song_counts acc))) by (apply in_map_iff; now exists (n, th)).
    apply Hkeys in Hk. destruct Hk as (song & Hs & Hnamed & Hne).
    assert (Hth : th = times_played acd (setlists db) n).
    { pose proof (song_counts_spec acd (setlists db) n) as Hc. fold acc in Hc.
      unfold count_of in Hc. rewrite (In_get _ _ _ Hnd Hin) in Hc. simpl in Hc.
      apply String.eqb_neq in Hne. now rewrite Hne in Hc. }
    assert (Hcov : get_or (PyDict.get n (song_cover_counts acc)) 0 =
                   times_covered acd (setlists db) n).
    { pose proof (song_cover_counts_spec acd (setlists db) n) as Hc. fold acc in Hc.
      unfold count_of in Hc. apply String.eqb_neq in Hne. now rewrite Hne in Hc. }
    rewrite Hcov, Hth. clear Hcov Hth Hin th.
    assert (Hpos : 0 < times_played acd (setlists db) n).
    { unfold times_played. apply (len_pos_In song). apply filter_In. auto. }
    pose proof (times_covered_le acd (setlists db) n) as Hle.
    assert (H0 : 0 <= times_covered acd (setlists db) n) by apply len_nonneg.
    set (N := times_played acd (setlists db) n) in *.
    set (K := times_covered acd (setlists db) n) in *.
    assert (Hiff : gt_int_float K (true_div N 2) = true <-> N < 2 * K).
    { rewrite gt_int_float_half. apply Z.ltb_lt. }
    repeat split; try assumption.
    + intros H. now apply gt_int_float_spec.
    + intros H. now apply gt_int_float_spec.
    + now apply Hiff.
    + now apply Hiff.
    + intros E. rewrite gt_int_float_half. apply Z.ltb_ge. lia.
    + intros E. rewrite gt_int_float_half. apply Z.ltb_ge.
      pose proof (Z.mul_div_le N 2). lia.
    + intros E. apply Hiff.
      pose proof (Z.mod_pos_bound N 2). pose proof (Z.div_mod N 2). lia.
  - intros n Hne Hpos. unfold times_played in Hpos. apply len_pos_ex in Hpos.
    destruct Hpos as [song Hs]. apply filter_In in Hs. destruct Hs as [Hs Hnamed].
    assert (Hk : In n (PyDict.keys (song_counts acc))) by (apply Hkeys; eauto).
    apply in_map_iff in Hk. destruct Hk as [[n' th] [E Hin]]. simpl in E. subst n'.
    exists (song_entry (song_cover_counts acc) (n, th)). split; [|reflexivity].
    unfold all_songs, sorted_desc. apply sorted_by_In. apply in_map_iff. now exists (n, th).
Qed.

(** The entry of "Intro" in the one-show database. *)
Lemma mostly_cover_is_strict_majority_witness :
  let acd := all_concerts_data Sample.one_show in
  let e := {| SongEntry.name := "Intro"; SongEntry.times_heard := 1;
              SongEntry.is_mostly_cover := false |} in
  In e (SongsData.all_songs (songs_data (song_pass acd (setlists Sample.one_show)))) /\
  SongEntry.times_heard e = times_played acd (setlists Sample.one_show) "Intro".
Proof.
  cbv zeta. split; [left; reflexivity|].
  apply (proj1 (mostly_cover_is_strict_majority Sample.one_show)).
  left; reflexivity.
Defined.

(** ** Opening, encore and closing tables *)

Lemma zsum_from (l : list Z) : forall a, fold_left Z.add l a = a + zsum l.
Proof.
  unfold zsum. induction l as [|x l IH]; intros a; simpl; [lia|].
  rewrite (IH (a + x)), (IH x). lia.
Qed.

Lemma zsum_cons (x : Z) (l : list Z) : zsum (x :: l) = x + zsum l.
Proof. unfold zsum. simpl. apply zsum_from. Qed.

Lemma zsum_ge_term (l : list Z) (x : Z) :
  (forall y, In y l -> 0 <= y) -> In x l -> x <= zsum l.
Proof.
  induction l as [|y l IH]; intros Hpos Hin; [contradiction|].
  rewrite zsum_cons.
  assert (H0 : 0 <= zsum l).
  { clear -Hpos. induction l as [|z l IH]; [unfold zsum; simpl; lia|].
    rewrite zsum_cons. specialize (Hpos z) as Hz.
    assert (0 <= zsum l) by (apply IH; intros w Hw; apply Hpos; simpl in *; tauto).
    assert (0 <= z) by (apply Hpos; simpl; tauto). lia. }
  destruct Hin as [->|Hin].
  - lia.
  - assert (0 <= y) by (apply Hpos; now left).
    assert (x <= zsum l) by (apply IH; auto; intros w Hw; apply Hpos; now right). lia.
Qed.

Lemma get2_incr2 (a n a' n' : string) (t : Counts2) :
  get2 a n (incr2 a' n' t) =
  get2 a n t + (if (a =? a')%string && (n =? n')%string then 1 else 0).
Proof.
  unfold get2, incr2. destruct (String.eqb_spec a a') as [->|Hne]; simpl.
  - rewrite get_upd_same. simpl.
    change (get_or (PyDict.get n (incr n' (get_or (PyDict.get a' t) []))) 0)
      with (count_of n (incr n' (get_or (PyDict.get a' t) []))).
    rewrite count_of_incr. reflexivity.
  - rewrite get_upd_other by exact Hne. lia.
Qed.

Lemma get2_credit_all (a n n' : string) (primary : list Artist.t) :
  forall t,
    get2 a n (credit_all primary n' t) =
    get2 a n t + (if (n =? n')%string then billed primary a else 0).
Proof.
  unfold credit_all, billed.
  induction primary as [|art primary IH]; intros t; simpl.
  - destruct (n =? n')%string; [rewrite len_nil|]; lia.
  - rewrite IH, get2_incr2. unfold artist_named at 2.
    rewrite (String.eqb_sym (get_or (Artist.artist_name art) "") a).
    destruct (a =? get_or (Artist.artist_name art) "")%string,
             (n =? n')%string; simpl; rewrite ?len_cons; lia.
Qed.

Lemma get2_tally cond primary (a n : string) t song :
  n <> "" ->
  get2 a n (tally cond primary t song) =
  get2 a n t + (if song_named n song && cond song then billed primary a else 0).
Proof.
  intros Hn. unfold tally.
  destruct (song_named n song) eqn:En; simpl.
  - assert (Hk : name_key song = Some n) by (apply song_named_key; auto).
    rewrite Hk. destruct (cond song); [|lia].
    rewrite get2_credit_all, String.eqb_refl. reflexivity.
  - destruct (name_key song) as [n'|] eqn:Hk; [|lia].
    destruct (cond song); [|lia]. rewrite get2_credit_all.
    destruct (String.eqb_spec n n') as [<-|]; [|lia].
    apply song_named_key in Hk. destruct Hk as [Hk _]. congruence.
Qed.

Lemma get2_tally_fold cond primary (a n : string) songs :
  n <> "" ->
  forall t,
    get2 a n (fold_left (tally cond primary) songs t) =
    get2 a n t +
    len (filter (fun song => song_named n song && cond song) songs) * billed primary a.
Proof.
  intros Hn. induction songs as [|song songs IH]; intros t; simpl.
  - unfold len. simpl. lia.
  - rewrite IH, get2_tally by exact Hn.
    destruct (song_named n song && cond song); rewrite ?len_cons; lia.
Qed.

Lemma credit_song_tables n song primary :
  forall acc,
    opening_songs (fold_left (credit_song n song) primary acc) =
      (if is_opening song then credit_all primary n (opening_songs acc)
       else opening_songs acc) /\
    encore_songs (fold_left (credit_song n song) primary acc) =
      (if is_encore song then credit_all primary n (encore_songs acc)
       else encore_songs acc) /\
    closing_songs (fold_left (credit_song n song) primary acc) = closing_songs acc.
Proof.
  unfold credit_all.
  induction primary as [|art primary IH]; intros acc; simpl.
  - destruct (is_opening song), (is_encore song); auto.
  - destruct (IH (credit_song n song acc art)) as (H1 & H2 & H3).
    rewrite H1, H2, H3. simpl.
    destruct (is_opening song), (is_encore song); auto.
Qed.

Lemma song_step_tables primary acc song :
  opening_songs (song_step primary acc song) = tally is_opening primary (opening_songs acc) song /\
  encore_songs (song_step primary acc song) = tally is_encore primary (encore_songs acc) song /\
  closing_songs (song_step primary acc song) = closing_songs acc.
Proof.
  unfold song_step, tally, name_key. rewrite truthy_key_name.
  destruct (get_or (Song.name song) "" =? "")%string; [auto|].
  match goal with |- context [fold_left ?f primary ?a] =>
    destruct (credit_song_tables (get_or (Song.name song) "") song primary a)
      as (H1 & H2 & H3)
  end.
  rewrite H1, H2, H3. auto.
Qed.

Lemma songs_loop_tables primary songs :
  forall acc,
    opening_songs (fold_left (song_step primary) songs acc) =
      fold_left (tally is_opening primary) songs (opening_songs acc) /\
    encore_songs (fold_left (song_step primary) songs acc) =
      fold_left (tally is_encore primary) songs (encore_songs acc) /\
    closing_songs (fold_left (song_step primary) songs acc) = closing_songs acc.
Proof.
  induction songs as [|song songs IH]; intros acc; simpl; [auto|].
  destruct (IH (song_step primary acc song)) as (H1 & H2 & H3).
  destruct (song_step_tables primary acc song) as (H4 & H5 & H6).
  rewrite H1, H2, H3, H4, H5, H6. auto.
Qed.

Lemma credit_closing_tables n primary :
  forall acc,
    opening_songs (fold_left (credit_closing n) primary acc) = opening_songs acc /\
    encore_songs (fold_left (credit_closing n) primary acc) = encore_songs acc /\
    closing_songs (fold_left (credit_closing n) primary acc) =
      credit_all primary n (closing_songs acc).
Proof.
  unfold credit_all.
  induction primary as [|art primary IH]; intros acc; simpl; [auto|].
  destruct (IH (credit_closing n acc art)) as (H1 & H2 & H3).
  rewrite H1, H2, H3. auto.
Qed.

Lemma closing_step_tables primary songs acc :
  opening_songs (closing_step primary songs acc) = opening_songs acc /\
  encore_songs (closing_step primary songs acc) = encore_songs acc /\
  closing_songs (closing_step primary songs acc) =
    match last_song songs with
    | Some x =>
        match name_key x with
        | Some n => credit_all primary n (closing_songs acc)
        | None => closing_songs acc
        end
    | None => closing_songs acc
    end.
Proof.
  unfold closing_step. destruct (last_song songs) as [x|]; [|auto].
  unfold name_key. rewrite truthy_key_name.
  destruct (get_or (Song.name x) "" =? "")%string; [auto|].
  apply credit_closing_tables.
Qed.

Lemma get2_closing (a n : string) primary songs acc :
  n <> "" ->
  get2 a n (closing_songs (closing_step primary songs acc)) =
  get2 a n (closing_songs acc) +
  match last_song songs with
  | Some x => if song_named n x then billed primary a else 0
  | None => 0
  end.
Proof.
  intros Hn. destruct (closing_step_tables primary songs acc) as (_ & _ & ->).
  destruct (last_song songs) as [x|]; [|lia].
  destruct (song_named n x) eqn:En.
  - assert (Hk : name_key x = Some n) by (apply song_named_key; auto).
    rewrite Hk, get2_credit_all, String.eqb_refl. reflexivity.
  - destruct (name_key x) as [n'|] eqn:Hk; [|lia].
    rewrite get2_credit_all. destruct (String.eqb_spec n n') as [<-|]; [|lia].
    apply song_named_key in Hk. destruct Hk as [Hk _]. congruence.
Qed.

Lemma song_pass_tables_from acd (a n : string) docs :
  n <> "" ->
  forall acc,
    get2 a n (opening_songs (fold_left (setlist_step acd) docs acc)) =
      get2 a n (opening_songs acc) + credits is_opening acd docs a n /\
    get2 a n (encore_songs (fold_left (setlist_step acd) docs acc)) =
      get2 a n (encore_songs acc) + credits is_encore acd docs a n /\
    get2 a n (closing_songs (fold_left (setlist_step acd) docs acc)) =
      get2 a n (closing_songs acc) + closing_credits acd docs a n.
Proof.
  intros Hn. unfold credits, closing_credits.
  induction docs as [|s docs IH]; intros acc; simpl.
  - unfold zsum. simpl. repeat split; lia.
  - destruct (IH (setlist_step acd acc s)) as (H1 & H2 & H3).
    rewrite H1, H2, H3, !zsum_cons. clear H1 H2 H3 IH.
    unfold setlist_step. destruct (concert_of acd s) as [c|]; [|repeat split; lia].
    set (primary := primary_artists c). set (songs := Setlist.songs s).
    destruct (closing_step_tables primary songs (fold_left (song_step primary) songs acc))
      as (H1 & H2 & _).
    destruct (songs_loop_tables primary songs acc) as (H4 & H5 & H6).
    rewrite H1, H2, H4, H5, get2_closing, H6, !get2_tally_fold by exact Hn.
    repeat split; lia.
Qed.

Lemma song_pass_tables acd docs (a n : string) :
  n <> "" ->
  get2 a n (opening_songs (song_pass acd docs)) = credits is_opening acd docs a n /\
  get2 a n (encore_songs (song_pass acd docs)) = credits is_encore acd docs a n /\
  get2 a n (closing_songs (song_pass acd docs)) = closing_credits acd docs a n.
Proof.
  intros Hn. destruct (song_pass_tables_from acd a docs Hn empty_acc) as (H1 & H2 & H3).
  unfold song_pass. rewrite H1, H2, H3. unfold get2. simpl. repeat split; lia.
Qed.

Lemma billed_pos primary art :
  In art primary -> 1 <= billed primary (get_or (Artist.artist_name art) "").
Proof.
  intros Hin. unfold billed.
  assert (H : 0 < len (filter (artist_named (get_or (Artist.artist_name art) "")) primary)).
  { apply (len_pos_In art). apply filter_In. split; [exact Hin|].
    unfold artist_named. apply String.eqb_refl. }
  lia.
Qed.

Lemma credits_ge cond acd docs s c (a n : string) :
  In s docs -> concert_of acd s = Some c ->
  len (filter (fun song => song_named n song && cond song) (Setlist.songs s))
  * billed (primary_artists c) a <= credits cond acd docs a n.
Proof.
  intros Hs Hc. unfold credits.
  set (f := fun s0 : Setlist.t => match concert_of acd s0 with
                                  | Some c0 => _
                                  | None => 0
                                  end).
  replace (_ * _) with (f s) by (unfold f; now rewrite Hc).
  apply zsum_ge_term; [|now apply in_map].
  intros y Hy. apply in_map_iff in Hy. destruct Hy as [s' [<- _]]. unfold f.
  destruct (concert_of acd s'); [|lia].
  apply Z.mul_nonneg_nonneg; apply len_nonneg.
Qed.

Lemma closing_credits_ge acd docs s c x (a n : string) :
  In s docs -> concert_of acd s = Some c -> last_song (Setlist.songs s) = Some x ->
  song_named n x = true ->
  billed (primary_artists c) a <= closing_credits acd docs a n.
Proof.
  intros Hs Hc Hx Hn. unfold closing_credits.
  set (f := fun s0 : Setlist.t => match concert_of acd s0, last_song (Setlist.songs s0) with
                                  | Some c0, Some x0 => _
                                  | _, _ => 0
                                  end).
  replace (billed (primary_artists c) a) with (f s)
    by (unfold f; now rewrite Hc, Hx, Hn).
  apply zsum_ge_term; [|now apply in_map].
  intros y Hy. apply in_map_iff in Hy. destruct Hy as [s' [<- _]]. unfold f.
  destruct (concert_of acd s'); [|lia].
  destruct (last_song (Setlist.songs s')) as [x'|]; [|lia].
  destruct (song_named n x'); [apply len_nonneg | lia].
Qed.

(** C10. In the song analytics pass, for a non-empty song name [n] and an
    artist name [a], each of the three tables holds at [a], [n] the number
    of pairs of a qualifying song named [n], in a setlist that is not
    orphaned, and a primary roster entry named [a] of that setlist's
    concert; the setlist's own artist is not consulted.  Hence every
    position-1 opening song and every encore song of such a setlist, and
    its closing song, is counted for every primary artist of the concert.
    On two nights of Headliner B with Opener A, the exported tables list
    under Headliner B the opener's "Warm Up" as opening and as closing
    song and the opener's "Borrowed" as encore song, each twice, though
    every setlist that contains them is Opener A's. *)
Theorem songs_credited_to_primary_artists :
  (forall db a n, n <> "" ->
     let acd := all_concerts_data db in
     let acc := song_pass acd (setlists db) in
     get2 a n (opening_songs acc) = credits is_opening acd (setlists db) a n /\
     get2 a n (encore_songs acc) = credits is_encore acd (setlists db) a n /\
     get2 a n (closing_songs acc) = closing_credits acd (setlists db) a n) /\
  (forall db s c art,
     let acd := all_concerts_data db in
     let acc := song_pass acd (setlists db) in
     let a := get_or (Artist.artist_name art) "" in
     In s (setlists db) -> concert_of acd s = Some c -> In art (primary_artists c) ->
     (forall song n, In song (Setlist.songs s) -> Song.name song = Some n -> n <> "" ->
        (is_opening song = true -> 1 <= get2 a n (opening_songs acc)) /\
        (is_encore song = true -> 1 <= get2 a n (encore_songs acc))) /\
     (forall x n, last_song (Setlist.songs s) = Some x -> Song.name x = Some n -> n <> "" ->
        1 <= get2 a n (closing_songs acc))) /\
  (let db := Sample.two_shows in
   let out := songs_data (song_pass (all_concerts_data db) (setlists db)) in
   (forall s song, In s (setlists db) -> In song (Setlist.songs s) ->
      Song.name song = Some "Warm Up" \/ Song.name song = Some "Borrowed" ->
      Setlist.artist_name s = Some "Opener A") /\
   PyDict.get "Headliner B" (SongsData.opening_songs_by_artist out)
     = Some [("Intro", 2); ("Warm Up", 2)] /\
   PyDict.get "Headliner B" (SongsData.closing_songs_by_artist out)
     = Some [("Hit", 2); ("Warm Up", 2)] /\
   PyDict.get "Headliner B" (SongsData.encore_songs_by_artist out)
     = Some [("Farewell", 2); ("Borrowed", 2)] /\
   PyDict.get "Opener A" (SongsData.opening_songs_by_artist out) = None).
Proof.
  split; [|split].
  - intros db a n Hn acd acc. now apply song_pass_tables.
  - intros db s c art acd acc a Hs Hc Hart.
    pose proof (billed_pos _ _ Hart) as Hb. fold a in Hb.
    split.
    + intros song n Hsong Hname Hn.
      destruct (song_pass_tables acd (setlists db) a Hn) as (Ho & He & _).
      fold acc in Ho, He.
      assert (Hnamed : song_named n song = true).
      { unfold song_named. rewrite Hname. apply key_eqb_refl. }
      split; intros Hcond.
      * rewrite Ho.
        eapply Z.le_trans; [|apply (credits_ge is_opening acd (setlists db) s a n Hs Hc)].
        assert (0 < len (filter (fun song0 => song_named n song0 && is_opening song0)
                           (Setlist.songs s))).
        { apply (len_pos_In song). apply filter_In. split; [exact Hsong|].
          now rewrite Hnamed, Hcond. }
        nia.
      * rewrite He.
        eapply Z.le_trans; [|apply (credits_ge is_encore acd (setlists db) s a n Hs Hc)].
        assert (0 < len (filter (fun song0 => song_named n song0 && is_encore song0)
                           (Setlist.songs s))).
        { apply (len_pos_In song). apply filter_In. split; [exact Hsong|].
          now rewrite Hnamed, Hcond. }
        nia.
    + intros x n Hx Hname Hn.
      destruct (song_pass_tables acd (setlists db) a Hn) as (_ & _ & Hcl).
      fold acc in Hcl. rewrite Hcl.
      eapply Z.le_trans; [exact Hb|].
      apply (closing_credits_ge acd (setlists db) s a n Hs Hc Hx).
      unfold song_named. rewrite Hname. apply key_eqb_refl.
  - cbv zeta. split.
    + intros s song Hs Hsong Hname. simpl in Hs.
      destruct Hs as [<-|[<-|[<-|[<-|[]]]]]; try reflexivity;
        simpl in Hsong; destruct Hsong as [<-|[<-|[<-|[]]]];
        destruct Hname as [H|H]; discriminate H.
    + repeat split; vm_compute; reflexivity.
Qed.

(** The opener's "Warm Up" over the two nights. *)
Lemma songs_credited_to_primary_artists_witness :
  1 <= get2 "Headliner B" "Warm Up"
         (opening_songs (song_pass (all_concerts_data Sample.two_shows)
                           (setlists Sample.two_shows))).
Proof.
  refine (proj1 (proj1 (proj1 (proj2 songs_credited_to_primary_artists)
            Sample.two_shows Sample.opener_set Sample.bill
            (Sample.artist "a1" "Headliner B" "headliner") _ _ _)
            (Sample.song 1 "Warm Up" 0 true) "Warm Up" _ _ _) _).
  - right; left; reflexivity.
  - reflexivity.
  - left; reflexivity.
  - left; reflexivity.
  - reflexivity.
  - discriminate.
  - reflexivity.
Defined.

(* ================================================================= *)
(** * The run as a whole *)

(** ** The loops that write files *)

Lemma FS_eta (fs : FS) :
  {| concerts_json := concerts_json fs; concert_details := concert_details fs;
     artists_json := artists_json fs; venues_json := venues_json fs;
     stats_json := stats_json fs; songs_json := songs_json fs;
     venue_details := venue_details fs; artist_details := artist_details fs |} = fs.
Proof. now destruct fs. Qed.

Section OptionalWrites.
Context {A V : Type}.
Variable W : (PyDict.t string V -> PyDict.t string V) -> Run unit.
Variable L : (PyDict.t string V -> PyDict.t string V) -> FS -> FS.
Hypothesis W_L : forall f fs, W f fs = (inr tt, L f fs).
Hypothesis L_L : forall f g fs, L f (L g fs) = L (fun d => f (g d)) fs.
Hypothesis L_id : forall fs, L (fun d => d) fs = fs.
Variable name : A -> string.
Variable content : A -> option V.

Lemma for_each_writes (l : list A) :
  forall fs,
    for_each l
      (fun item => match content item with
                   | Some v => W (PyDict.set (name item) v)
                   | None => ret tt
                   end) fs
    = (inr tt,
       L (put_files
            (flat_map (fun item => match content item with
                                   | Some v => [(name item, v)]
                                   | None => []
                                   end) l)) fs).
Proof.
  induction l as [|item l IH]; intros fs.
  - simpl. unfold ret. f_equal. symmetry. apply L_id.
  - cbn [for_each flat_map]. destruct (content item) as [v|].
    + erewrite bind_ok; [|apply W_L]. rewrite IH, L_L. reflexivity.
    + erewrite bind_ok; [|reflexivity]. rewrite IH. reflexivity.
Qed.

End OptionalWrites.

Lemma write_venue_details_effect db fs :
  write_venue_details db (all_concerts_data db) fs =
  (inr tt, map_venue_details (put_files (venue_files db)) fs).
Proof.
  unfold write_venue_details, venue_files.
  apply (for_each_writes with_venue_details map_venue_details).
  - reflexivity.
  - reflexivity.
  - intros fs'. apply FS_eta.
Qed.

Lemma write_artist_details_effect db fs :
  write_artist_details db (all_concerts_data db) fs =
  (inr tt, map_artist_details (put_files (artist_files db)) fs).
Proof.
  unfold write_artist_details, artist_files.
  apply (for_each_writes with_artist_details map_artist_details).
  - reflexivity.
  - reflexivity.
  - intros fs'. apply FS_eta.
Qed.

Lemma groups_loaded db item :
  In item (setlists_by_concert (all_concerts_data db) (setlists db)) ->
  fst item <> "" /\ exists c, PyDict.get (fst item) (all_concerts_data db) = Some c.
Proof.
  intros Hin.
  assert (Hk : In (fst item)
                 (PyDict.keys (setlists_by_concert (all_concerts_data db) (setlists db))))
    by (apply in_map; exact Hin).
  apply setlists_by_concert_keys in Hk. destruct Hk as (s & _ & Hg).
  apply groupable_spec in Hg. destruct Hg as (_ & Hne & Hm). split; [exact Hne|].
  unfold PyDict.mem in Hm.
  destruct (PyDict.get (fst item) (all_concerts_data db)) as [c|]; [eauto|discriminate].
Qed.

Lemma write_concert_details_loop db acd groups :
  (forall item, In item groups -> exists c, PyDict.get (fst item) acd = Some c) ->
  forall fs,
    write_concert_details db acd groups fs =
    (inr tt,
     map_concert_details
       (put_files
          (flat_map
             (fun item =>
                match PyDict.get (fst item) acd with
                | Some c => [(fst item ++ ".json", concert_detail db (fst item) c (snd item))]
                | None => []
                end) groups)) fs).
Proof.
  unfold write_concert_details.
  induction groups as [|item groups IH]; intros Hmem fs.
  - simpl. unfold ret. f_equal. symmetry. apply FS_eta.
  - destruct (Hmem item (or_introl eq_refl)) as [c Hc].
    cbn [for_each flat_map]. rewrite Hc.
    erewrite bind_ok.
    2:{ unfold bind, lookup. rewrite Hc. reflexivity. }
    rewrite IH by (intros it Hit; apply Hmem; now right). reflexivity.
Qed.

Lemma write_concert_details_effect db fs :
  write_concert_details db (all_concerts_data db)
    (setlists_by_concert (all_concerts_data db) (setlists db)) fs =
  (inr tt, map_concert_details (put_files (detail_files db)) fs).
Proof.
  apply write_concert_details_loop. intros item Hin. now apply groups_loaded.
Qed.

Lemma cleanup_loop_effect (ids existing : list string) :
  forall fs,
    for_each existing
      (fun file => if existsb (String.eqb (stem file)) ids then ret tt
                   else with_concert_details (PyDict.remove file)) fs
    = (inr tt,
       map_concert_details
         (fun d => fold_left
                     (fun d file => if existsb (String.eqb (stem file)) ids then d
                                    else PyDict.remove file d) existing d) fs).
Proof.
  induction existing as [|file existing IH]; intros fs.
  - simpl. unfold ret. f_equal. symmetry. apply FS_eta.
  - cbn [for_each fold_left]. destruct (existsb (String.eqb (stem file)) ids).
    + erewrite bind_ok; [|reflexivity]. apply IH.
    + erewrite bind_ok; [|reflexivity]. rewrite IH. reflexivity.
Qed.

Lemma cleanup_stale_effect ids fs :
  cleanup_stale ids fs = (inr tt, map_concert_details (prune ids) fs).
Proof.
  unfold cleanup_stale, bind, read. rewrite cleanup_loop_effect. reflexivity.
Qed.

Lemma fold_run_years (l : list Concert.t) :
  forall d fs, fold_run year_step l d fs = (by_year_from l d, fs).
Proof.
  induction l as [|c l IH]; intros d fs; [reflexivity|].
  cbn [fold_run by_year_from]. unfold bind, year_step.
  change (negb (get_or (Concert.date c) "" =? "")%string
          && (4 <=? py_len (get_or (Concert.date c) ""))%nat) with (dated c).
  change (py_prefix 4 (get_or (Concert.date c) "")) with (year_text c).
  destruct (dated c).
  - unfold bind, int_of. destruct (py_int (year_text c)) as [y|]; [|reflexivity].
    unfold ret. apply IH.
  - unfold ret. apply IH.
Qed.

(** The run is the closed form: it ends as [outcome] says and leaves the
    tree [tree_after]. *)
Lemma export_to_json_effect db fs0 :
  export_to_json db fs0 = (outcome db, tree_after db fs0).
Proof.
  unfold export_to_json.
  erewrite bind_ok; [|apply write_concert_details_effect].
  erewrite bind_ok; [|apply cleanup_stale_effect].
  erewrite bind_ok; [|reflexivity].
  erewrite bind_ok; [|reflexivity].
  erewrite bind_ok; [|reflexivity].
  unfold export_tail, concerts_by_year_dict, outcome, tree_after.
  unfold bind at 1. rewrite fold_run_years. fold (by_year db).
  destruct (by_year db) as [e|y]; [reflexivity|].
  erewrite bind_ok; [|reflexivity].
  erewrite bind_ok; [|reflexivity].
  erewrite bind_ok; [|apply write_venue_details_effect].
  rewrite write_artist_details_effect. reflexivity.
Qed.

(** ** How a run ends *)

Lemma by_year_from_ok (l : list Concert.t) :
  forall d,
    (exists y, by_year_from l d = inr y) <->
    (forall c, In c l -> dated c = true -> py_int (year_text c) <> None).
Proof.
  induction l as [|c l IH]; intros d; simpl.
  - split; [intros _ c [] | eauto].
  - destruct (dated c) eqn:Ed.
    + destruct (py_int (year_text c)) as [y|] eqn:Ey.
      * rewrite IH. split.
        -- intros H c' [<-|Hc'] Hd; [congruence | now apply H].
        -- intros H c' Hc' Hd. apply H; auto.
      * split.
        -- intros [y Hy]. discriminate.
        -- intros H. exfalso. apply (H c); auto.
    + rewrite IH. split.
      * intros H c' [<-|Hc'] Hd; [congruence | now apply H].
      * intros H c' Hc' Hd. apply H; auto.
Qed.






(** ** Directories *)

Section MoreDictFacts.
Context {K V : Type} `{PyKeyLaws K}.
Implicit Types (k : K) (v : V) (d : PyDict.t K V).

Lemma set_get_id k v d : PyDict.get k d = Some v -> PyDict.set k v d = d.
Proof.
  induction d as [|[k' v'] d IH]; simpl; [discriminate|].
  destruct (key_eqb_spec k k') as [->|Hne]; intros E.
  - congruence.
  - now rewrite IH.
Qed.

Lemma get_remove k k' d :
  PyDict.get k (PyDict.remove k' d) = if key_eqb k k' then None else PyDict.get k d.
Proof.
  unfold PyDict.remove. induction d as [|[k2 v2] d IH]; simpl.
  - now destruct (key_eqb k k').
  - destruct (key_eqb_spec k' k2) as [->|Hne]; simpl.
    + rewrite IH. destruct (key_eqb_spec k k2); reflexivity.
    + rewrite IH. destruct (key_eqb_spec k k') as [->|];
        [now rewrite key_eqb_neq by congruence | reflexivity].
Qed.

Lemma get_keys_None k d : ~ In k (PyDict.keys d) -> PyDict.get k d = None.
Proof.
  intros Hn. destruct (PyDict.get k d) as [v|] eqn:E; [|reflexivity].
  exfalso. apply Hn. apply get_In in E. apply in_map_iff. now exists (k, v).
Qed.

End MoreDictFacts.

Lemma put_files_get_other {V} (files : list (string * V)) (k : string) :
  ~ In k (map fst files) ->
  forall d, PyDict.get k (put_files files d) = PyDict.get k d.
Proof.
  unfold put_files. induction files as [|[k' v'] files IH]; intros Hn d; simpl; [reflexivity|].
  simpl in Hn. rewrite IH by tauto. apply get_set_other. intros ->. tauto.
Qed.

Lemma put_files_get {V} (files : list (string * V)) (k : string) (v : V) :
  NoDup (map fst files) -> In (k, v) files ->
  forall d, PyDict.get k (put_files files d) = Some v.
Proof.
  induction files as [|[k' v'] files IH]; intros Hnd Hin d; [contradiction|].
  simpl in Hnd. inversion Hnd as [|? ? Hnin Hnd']; subst.
  change (put_files ((k', v') :: files) d) with (put_files files (PyDict.set k' v' d)).
  destruct Hin as [E|Hin].
  - injection E as -> ->. rewrite put_files_get_other by exact Hnin.
    apply get_set_same.
  - now apply IH.
Qed.

Lemma put_files_id {V} (files : list (string * V)) :
  forall d, (forall k v, In (k, v) files -> PyDict.get k d = Some v) ->
            put_files files d = d.
Proof.
  induction files as [|[k v] files IH]; intros d Hall; [reflexivity|].
  change (put_files ((k, v) :: files) d) with (put_files files (PyDict.set k v d)).
  rewrite set_get_id by (apply Hall; now left).
  apply IH. intros k' v' Hin. apply Hall. now right.
Qed.

(** Writing the same files twice is writing them once. *)
Lemma put_files_twice {V} (files : list (string * V)) (d : PyDict.t string V) :
  NoDup (map fst files) -> put_files files (put_files files d) = put_files files d.
Proof.
  intros Hnd. apply put_files_id. intros k v Hin. now apply put_files_get.
Qed.

Lemma prune_loop_get (ids existing : list string) (k : string) :
  forall d : PyDict.t string ConcertDetail.t,
    PyDict.get k
      (fold_left (fun d file => if existsb (String.eqb (stem file)) ids then d
                                else PyDict.remove file d) existing d)
    = if existsb (fun file => (k =? file)%string
                              && negb (existsb (String.eqb (stem file)) ids)) existing
      then None else PyDict.get k d.
Proof.
  induction existing as [|file existing IH]; intros d; simpl; [reflexivity|].
  rewrite IH. destruct (existsb (String.eqb (stem file)) ids); simpl.
  - now rewrite andb_false_r.
  - rewrite andb_true_r, get_remove.
    change (key_eqb k file) with (k =? file)%string.
    destruct (k =? file)%string; simpl; [|reflexivity].
    now destruct (existsb _ existing).
Qed.

Lemma prune_get_kept ids (d : PyDict.t string ConcertDetail.t) (k : string) :
  (glob_json k = true -> In (stem k) ids) ->
  PyDict.get k (prune ids d) = PyDict.get k d.
Proof.
  intros Hk. unfold prune. rewrite prune_loop_get.
  destruct (existsb _ (filter glob_json (PyDict.keys d))) eqn:E; [|reflexivity].
  exfalso. apply existsb_exists in E. destruct E as (file & Hfile & Hb).
  apply filter_In in Hfile. destruct Hfile as [_ Hglob].
  apply andb_true_iff in Hb. destruct Hb as [Heq Hnot].
  apply String.eqb_eq in Heq. subst file.
  apply negb_true_iff in Hnot.
  assert (Hin : existsb (String.eqb (stem k)) ids = true)
    by (apply existsb_eqb_In; auto).
  congruence.
Qed.

Lemma prune_keys ids (d : PyDict.t string ConcertDetail.t) (name : string) :
  In name (PyDict.keys (prune ids d)) <->
  In name (PyDict.keys d) /\ (glob_json name = true -> In (stem name) ids).
Proof.
  set (fs := {| concerts_json := None; concert_details := d; artists_json := None;
                venues_json := None; stats_json := None; songs_json := None;
                venue_details := []; artist_details := [] |}).
  destruct (cleanup_stale_ok ids fs) as (fs' & Hrun & _ & Hkeys).
  rewrite cleanup_stale_effect in Hrun. injection Hrun as <-.
  exact (Hkeys name).
Qed.

Lemma prune_id ids (d : PyDict.t string ConcertDetail.t) :
  (forall name, In name (PyDict.keys d) -> glob_json name = true -> In (stem name) ids) ->
  prune ids d = d.
Proof.
  intros Hall. unfold prune.
  assert (Hex : forall file, In file (filter glob_json (PyDict.keys d)) ->
                  existsb (String.eqb (stem file)) ids = true).
  { intros file Hf. apply filter_In in Hf. apply existsb_eqb_In. now apply Hall. }
  revert Hex. generalize (filter glob_json (PyDict.keys d)) as existing.
  induction existing as [|file existing IH]; intros Hex; simpl; [reflexivity|].
  rewrite (Hex file) by now left. apply IH. intros f Hf. apply Hex. now right.
Qed.

Lemma length_append (a t : string) :
  String.length (a ++ t) = (String.length a + String.length t)%nat.
Proof. induction a as [|x a IH]; simpl; [reflexivity | now rewrite IH]. Qed.

Lemma append_cancel_r (a b t : string) : a ++ t = b ++ t -> a = b.
Proof.
  intros E.
  assert (Hlen : String.length a = String.length b).
  { apply (f_equal String.length) in E. rewrite !length_append in E. lia. }
  revert b E Hlen. induction a as [|x a IH]; intros [|y b] E Hlen; simpl in *;
    try discriminate; [reflexivity|].
  injection E as -> E. f_equal. apply IH; [exact E | lia].
Qed.

Section OptionalFiles.
Context {A V : Type} (name : A -> string) (content : A -> option V).

Let files_of (l : list A) : list (string * V) :=
  flat_map (fun item => match content item with
                        | Some v => [(name item, v)]
                        | None => []
                        end) l.

Lemma optional_files_In (l : list A) (k : string) (v : V) :
  In (k, v) (files_of l) <->
  exists item, In item l /\ content item = Some v /\ k = name item.
Proof.
  unfold files_of. rewrite in_flat_map. split.
  - intros (item & Hin & Hkv). exists item. split; [exact Hin|].
    destruct (content item) as [v'|]; [|contradiction].
    destruct Hkv as [E|[]]. injection E as <- <-. auto.
  - intros (item & Hin & Hc & ->). exists item. split; [exact Hin|].
    rewrite Hc. now left.
Qed.

Lemma optional_files_names (l : list A) (k : string) :
  In k (map fst (files_of l)) -> In k (map name l).
Proof.
  intros Hin. apply in_map_iff in Hin. destruct Hin as ([k' v] & <- & Hin).
  apply optional_files_In in Hin. destruct Hin as (item & Hitem & _ & ->).
  simpl. now apply in_map.
Qed.

Lemma optional_files_NoDup (l : list A) :
  NoDup (map name l) -> NoDup (map fst (files_of l)).
Proof.
  induction l as [|item l IH]; intros Hnd; [constructor|].
  simpl in Hnd. inversion Hnd as [|? ? Hnin Hnd']; subst.
  unfold files_of. cbn [flat_map]. fold (files_of l).
  destruct (content item) as [v|]; simpl; [|auto].
  constructor; [|auto]. intros Hin. apply Hnin. now apply optional_files_names.
Qed.

End OptionalFiles.

Lemma NoDup_map_json (l : list string) :
  NoDup l -> NoDup (map (fun c => c ++ ".json") l).
Proof.
  induction 1 as [|c l Hnin Hnd IH]; simpl; constructor; auto.
  intros Hin. apply in_map_iff in Hin. destruct Hin as (c' & E & Hc').
  apply append_cancel_r in E. now subst.
Qed.

Lemma NoDup_json_names {V} (d : PyDict.t string V) :
  NoDup (PyDict.keys d) -> NoDup (map (fun item => fst item ++ ".json") d).
Proof.
  intros Hnd. apply NoDup_map_json in Hnd. unfold PyDict.keys in Hnd.
  now rewrite map_map in Hnd.
Qed.

Lemma setlists_by_concert_NoDup acd docs :
  NoDup (PyDict.keys (setlists_by_concert acd docs)).
Proof.
  unfold setlists_by_concert.
  assert (H : forall d : PyDict.t string (list Setlist.t), NoDup (PyDict.keys d) ->
            NoDup (PyDict.keys
                     (fold_left
                        (fun d s => match groupable acd s with
                                    | Some cid => PyDict.upd [] (fun l => (l ++ [s])%list) cid d
                                    | None => d
                                    end) docs d))).
  { induction docs as [|s docs IH]; intros d Hd; simpl; auto.
    apply IH. destruct (groupable acd s); auto.
    unfold PyDict.upd. now apply NoDup_keys_set. }
  apply H. constructor.
Qed.

Lemma detail_files_optional db :
  detail_files db =
  flat_map
    (fun item =>
       match match PyDict.get (fst item) (all_concerts_data db) with
             | Some c => Some (concert_detail db (fst item) c (snd item))
             | None => None
             end with
       | Some v => [(fst item ++ ".json", v)]
       | None => []
       end)
    (setlists_by_concert (all_concerts_data db) (setlists db)).
Proof.
  unfold detail_files. apply flat_map_ext. intros item.
  now destruct (PyDict.get (fst item) (all_concerts_data db)).
Qed.

Lemma detail_files_NoDup db : NoDup (map fst (detail_files db)).
Proof.
  rewrite detail_files_optional.
  apply (optional_files_NoDup (fun item => fst item ++ ".json")
           (fun item => match PyDict.get (fst item) (all_concerts_data db) with
                        | Some c => Some (concert_detail db (fst item) c (snd item))
                        | None => None
                        end)).
  apply NoDup_json_names. apply setlists_by_concert_NoDup.
Qed.

Lemma detail_files_In db (k : string) (v : ConcertDetail.t) :
  In (k, v) (detail_files db) <->
  exists cid l c,
    In (cid, l) (setlists_by_concert (all_concerts_data db) (setlists db)) /\
    PyDict.get cid (all_concerts_data db) = Some c /\
    k = cid ++ ".json" /\ v = concert_detail db cid c l.
Proof.
  rewrite detail_files_optional, optional_files_In. split.
  - intros ([cid l] & Hin & Hc & ->). simpl in *.
    destruct (PyDict.get cid (all_concerts_data db)) as [c|] eqn:E; [|discriminate].
    injection Hc as <-. exists cid, l, c. auto.
  - intros (cid & l & c & Hin & Hc & -> & ->). exists (cid, l). simpl.
    rewrite Hc. auto.
Qed.

Lemma detail_files_kept db (k : string) (v : ConcertDetail.t) :
  In (k, v) (detail_files db) ->
  glob_json k = true /\ In (stem k) (concert_ids_with_setlists db).
Proof.
  intros Hin. apply detail_files_In in Hin.
  destruct Hin as (cid & l & c & Hin & _ & -> & _).
  destruct (groups_loaded db (cid, l) Hin) as [Hne _]. simpl in Hne.
  rewrite glob_json_json, stem_json by exact Hne. split; [reflexivity|].
  unfold concert_ids_with_setlists. apply in_map_iff. now exists (cid, l).
Qed.

Lemma detail_files_after db (d0 : PyDict.t string ConcertDetail.t) (k : string)
    (v : ConcertDetail.t) :
  In (k, v) (detail_files db) ->
  PyDict.get k (prune (concert_ids_with_setlists db) (put_files (detail_files db) d0))
  = Some v.
Proof.
  intros Hin. destruct (detail_files_kept db k v Hin) as [_ Hstem].
  rewrite prune_get_kept by (intros _; exact Hstem).
  apply put_files_get; [apply detail_files_NoDup | exact Hin].
Qed.

(** X3. After a run, for every concert id that has a group of setlists,
    the file [<id>.json] of [concert_details/] holds the detail object
    built from that concert and that group: the clean-up removes no file
    written by the same run, and no later write replaces it. *)
Theorem detail_file_holds_group (db : Db) (fs0 : FS) (cid : string) (l : list Setlist.t)
    (Hgroup : PyDict.get cid (setlists_by_concert (all_concerts_data db) (setlists db))
              = Some l) :
  exists c,
    PyDict.get cid (all_concerts_data db) = Some c /\
    PyDict.get (cid ++ ".json") (concert_details (snd (export_to_json db fs0)))
    = Some (concert_detail db cid c l).
Proof.
  apply get_In in Hgroup.
  destruct (groups_loaded db (cid, l) Hgroup) as [_ [c Hc]]. simpl in Hc.
  exists c. split; [exact Hc|].
  rewrite export_to_json_effect. cbn [snd tree_after concert_details].
  apply detail_files_after. apply detail_files_In. exists cid, l, c. auto.
Qed.

Lemma detail_file_holds_group_witness :
  exists c,
    PyDict.get "c1" (all_concerts_data Sample.one_show) = Some c /\
    PyDict.get "c1.json" (concert_details (snd (export_to_json Sample.one_show Sample.empty_fs)))
    = Some (concert_detail Sample.one_show "c1" c [Sample.headliner_set]).
Proof.
  exact (detail_file_holds_group Sample.one_show Sample.empty_fs "c1" eq_refl).
Defined.

(** X4. A file of [concert_details/] whose name does not end in [.json]
    is neither written nor removed by a run: it is there afterwards, with
    the same content, exactly if it was there before. *)
Theorem other_files_untouched (db : Db) (fs0 : FS) (name : string)
    (Hname : glob_json name = false) :
  PyDict.get name (concert_details (snd (export_to_json db fs0))) =
  PyDict.get name (concert_details fs0).
Proof.
  rewrite export_to_json_effect. cbn [snd tree_after concert_details].
  rewrite prune_get_kept by (intros H; congruence).
  apply put_files_get_other. intros Hin. apply in_map_iff in Hin.
  destruct Hin as ([k v] & <- & Hin). apply detail_files_kept in Hin.
  simpl in Hname. destruct Hin as [Hglob _]. congruence.
Qed.

Lemma other_files_untouched_witness :
  PyDict.get "README" (concert_details (snd (export_to_json Sample.one_show Sample.empty_fs)))
  = PyDict.get "README" (concert_details Sample.empty_fs).
Proof.
  exact (other_files_untouched Sample.one_show Sample.empty_fs "README" eq_refl).
Defined.

Lemma venue_files_NoDup db : NoDup (map fst (venue_files db)).
Proof.
  unfold venue_files.
  apply (optional_files_NoDup (fun item => fst item ++ ".json")
           (venue_detail (all_concerts_data db))).
  apply NoDup_json_names. apply venue_data_map_NoDup.
Qed.

Lemma artist_files_NoDup db : NoDup (map fst (artist_files db)).
Proof.
  unfold artist_files.
  apply (optional_files_NoDup (fun item => fst item ++ ".json")
           (artist_detail (all_concerts_data db)
              (artist_songs (all_concerts_data db) (setlists db)))).
  apply NoDup_json_names. apply artist_names_map_NoDup.
Qed.

Lemma details_after_twice db (d0 : PyDict.t string ConcertDetail.t) :
  let ids := concert_ids_with_setlists db in
  let d1 := prune ids (put_files (detail_files db) d0) in
  prune ids (put_files (detail_files db) d1) = d1.
Proof.
  intros ids d1.
  assert (Hput : put_files (detail_files db) d1 = d1).
  { apply put_files_id. intros k v Hin. now apply detail_files_after. }
  rewrite Hput. apply prune_id. intros name Hin Hglob.
  apply prune_keys in Hin. destruct Hin as [_ Hstem]. auto.
Qed.

(** X5. Running the export again on the tree it has just left, with the
    same database snapshot and clock reading, ends the same way and
    leaves that tree unchanged. *)
Theorem export_twice (db : Db) (fs0 : FS) :
  export_to_json db (snd (export_to_json db fs0)) =
  (fst (export_to_json db fs0), snd (export_to_json db fs0)).
Proof.
  rewrite !export_to_json_effect. cbn [fst snd]. f_equal.
  unfold tree_after at 1. cbn [tree_after concert_details stats_json songs_json
                                venue_details artist_details].
  rewrite details_after_twice.
  unfold tree_after. destruct (by_year db) as [e|y]; [reflexivity|].
  rewrite (put_files_twice _ _ (venue_files_NoDup db)).
  rewrite (put_files_twice _ _ (artist_files_NoDup db)). reflexivity.
Qed.

(** ** The grouping of setlists *)

Lemma group_from acd (cid : string) (docs : list Setlist.t) :
  forall d : PyDict.t string (list Setlist.t),
    PyDict.get cid
      (fold_left
         (fun d s => match groupable acd s with
                     | Some c => PyDict.upd [] (fun l => (l ++ [s])%list) c d
                     | None => d
                     end) docs d)
    = match filter (in_group acd cid) docs with
      | [] => PyDict.get cid d
      | x :: l => Some (get_or (PyDict.get cid d) [] ++ x :: l)%list
      end.
Proof.
  induction docs as [|s docs IH]; intros d; simpl; [reflexivity|].
  rewrite IH. unfold in_group at 2.
  destruct (groupable acd s) as [c|] eqn:Eg.
  - change (key_eqb (Some c) (Some cid)) with (c =? cid)%string.
    destruct (String.eqb_spec c cid) as [->|Hne].
    + rewrite get_upd_same. simpl.
      destruct (filter (in_group acd cid) docs); simpl;
        [reflexivity | now rewrite <- app_assoc].
    + rewrite get_upd_other by congruence. reflexivity.
  - reflexivity.
Qed.

(** X6. The group of a concert id is the list of the setlists whose
    [concert_id] is that id, in stream order, provided the id is non-empty
    and belongs to a loaded concert; an id without such a setlist has no
    group, so no group is ever empty. *)
Theorem group_is_filter_in_stream_order (db : Db) (cid : string) :
  let acd := all_concerts_data db in
  PyDict.get cid (setlists_by_concert acd (setlists db)) =
    match filter (in_group acd cid) (setlists db) with
    | [] => None
    | l => Some l
    end /\
  (forall s, in_group acd cid s = true <->
             Setlist.concert_id s = Some cid /\ cid <> "" /\ PyDict.mem cid acd = true).
Proof.
  intros acd. split.
  - unfold setlists_by_concert. rewrite group_from. simpl.
    now destruct (filter (in_group acd cid) (setlists db)).
  - intros s. unfold in_group. rewrite <- groupable_spec.
    destruct (key_eqb_spec (groupable acd s) (Some cid)); intuition congruence.
Qed.

(** ** Aggregates of the multi-setlist shape *)

Lemma zsum_perm (l l' : list Z) : Permutation l l' -> zsum l = zsum l'.
Proof.
  induction 1 as [|x l l' _ IH|x y l|l1 l2 l3 _ IH1 _ IH2].
  - reflexivity.
  - rewrite !zsum_cons. lia.
  - rewrite !zsum_cons. lia.
  - congruence.
Qed.

Lemma multi_loop_totals c (l : list Setlist.t) :
  forall acc,
    total_song_count (fold_left (multi_step c) l acc) =
      total_song_count acc + zsum (map (fun s => get_or (Setlist.song_count s) 0) l) /\
    has_any_encore (fold_left (multi_step c) l acc) =
      has_any_encore acc || existsb (fun s => get_or (Setlist.has_encore s) false) l.
Proof.
  induction l as [|s l IH]; intros acc; simpl.
  - unfold zsum. simpl. split; [lia | now rewrite orb_false_r].
  - destruct (IH (multi_step c acc s)) as [H1 H2]. rewrite H1, H2, zsum_cons. simpl.
    split; [lia|].
    destruct (get_or (Setlist.has_encore s) false); simpl;
      [now rewrite orb_true_r | reflexivity].
Qed.

Lemma existsb_perm {A} (p : A -> bool) (l l' : list A) :
  Permutation l l' -> existsb p l = existsb p l'.
Proof.
  intros Hp. apply eq_true_iff_eq. rewrite !existsb_exists.
  split; intros (x & Hx & Hpx); exists x; split; auto.
  - now apply (Permutation_in _ Hp).
  - now apply (Permutation_in _ (Permutation_sym Hp)).
Qed.

(** X7. In a detail object of the multi-setlist shape,
    [total_song_count] is the sum of the stored [song_count] of the
    concert's setlists (0 for a missing one), [has_encore] is true exactly
    when some setlist has a true [has_encore], and the [setlists] array has
    one object per setlist with that setlist's songs in order. *)
Theorem multi_shape_aggregates (db : Db) (cid : string) (c : Concert.t)
    (l : list Setlist.t) (Hlen : List.length l <> 1%nat) :
  exists objs,
    ConcertDetail.shape (concert_detail db cid c l) =
      MultiSetlist objs
        (zsum (map (fun s => get_or (Setlist.song_count s) 0) l))
        (existsb (fun s => get_or (Setlist.has_encore s) false) l) /\
    List.length objs = List.length l /\
    Permutation (map (fun s => (Setlist.artist_name s, map song_obj (Setlist.songs s))) l)
                (map (fun o => (SetlistObj.artist_name o, SetlistObj.songs o)) objs).
Proof.
  assert (Hperm : Permutation l (sorted_setlists c l)) by apply sorted_by_perm.
  exists (map (setlist_obj c) (sorted_setlists c l)).
  split; [|split].
  - unfold concert_detail. cbn [ConcertDetail.shape].
    assert (Hshape : fst (detail_shape c l) =
              MultiSetlist (formatted_setlists (multi_loop c l))
                (total_song_count (multi_loop c l)) (has_any_encore (multi_loop c l))).
    { destruct l as [|s1 [|s2 l]]; simpl in Hlen; try congruence; reflexivity. }
    rewrite Hshape, multi_loop_formatted. unfold multi_loop.
    match goal with |- context [fold_left (multi_step c) ?sl ?a] =>
      destruct (multi_loop_totals c sl a) as [H1 H2]
    end.
    rewrite H1, H2. simpl. f_equal.
    + symmetry. apply zsum_perm. now apply Permutation_map.
    + symmetry. now apply existsb_perm.
  - rewrite length_map. symmetry. now apply Permutation_length.
  - rewrite map_map. simpl.
    apply (Permutation_map
             (fun s => (Setlist.artist_name s, map song_obj (Setlist.songs s)))) in Hperm.
    exact Hperm.
Qed.

Lemma multi_shape_aggregates_witness :
  let l := [Sample.headliner_set; Sample.opener_set] in
  exists objs,
    ConcertDetail.shape (concert_detail Sample.one_show "c1" Sample.bill l) =
      MultiSetlist objs 5 false.
Proof.
  destruct (multi_shape_aggregates Sample.one_show "c1" Sample.bill
              [Sample.headliner_set; Sample.opener_set])
    as (objs & Hshape & _); [simpl; lia|].
  exists objs. exact Hshape.
Defined.

(** ** The concert-level tour name *)

Lemma set_add_In (x t : string) (s : list string) :
  In t (set_add x s) <-> t = x \/ In t s.
Proof.
  unfold set_add. destruct (existsb (String.eqb x) s) eqn:E.
  - apply existsb_eqb_In in E. split; [auto|]. intros [->|H]; auto.
  - rewrite in_app_iff. simpl. intuition.
Qed.

Lemma set_add_NoDup (x : string) (s : list string) : NoDup s -> NoDup (set_add x s).
Proof.
  intros Hnd. unfold set_add. destruct (existsb (String.eqb x) s) eqn:E; [exact Hnd|].
  assert (Hnin : ~ In x s).
  { intros H. apply existsb_eqb_In in H. congruence. }
  clear E. induction Hnd as [|y s Hy Hnd IH]; simpl.
  - constructor; [tauto | constructor].
  - constructor.
    + rewrite in_app_iff. simpl. intros [H|[H|[]]]; [tauto|].
      apply Hnin. now left.
    + apply IH. intros H. apply Hnin. now right.
Qed.

Lemma on_tour_truthy (s : Setlist.t) (t : string) :
  on_tour t s <-> Setlist.tour_name s = Some t /\ truthy (Some t) = true.
Proof.
  unfold on_tour, truthy. rewrite negb_true_iff, String.eqb_neq. tauto.
Qed.

Lemma multi_loop_tour_names c (l : list Setlist.t) :
  forall acc, NoDup (tour_names acc) ->
    NoDup (tour_names (fold_left (multi_step c) l acc)) /\
    forall t, In t (tour_names (fold_left (multi_step c) l acc)) <->
              In t (tour_names acc) \/ exists s, In s l /\ on_tour t s.
Proof.
  induction l as [|s l IH]; intros acc Hnd; simpl.
  - split; [exact Hnd|]. intros t. split; [auto|]. intros [H|(s & [] & _)]. exact H.
  - assert (Hstep : NoDup (tour_names (multi_step c acc s)) /\
                    forall t, In t (tour_names (multi_step c acc s)) <->
                              In t (tour_names acc) \/ on_tour t s).
    { unfold multi_step; cbn [tour_names]. destruct (Setlist.tour_name s) as [t0|] eqn:Et.
      - destruct (truthy (Some t0)) eqn:Etr.
        + split; [now apply set_add_NoDup|]. intros t. rewrite set_add_In.
          rewrite on_tour_truthy, Et. split.
          * intros [->|H]; auto.
          * intros [H|[E _]]; [auto|]. left. congruence.
        + split; [exact Hnd|]. intros t. rewrite on_tour_truthy, Et. split; [auto|].
          intros [H|[E Ht]]; [exact H|]. injection E as ->. congruence.
      - split; [exact Hnd|]. intros t. unfold on_tour. rewrite Et.
        split; [auto|]. intros [H|[E _]]; [exact H | discriminate]. }
    destruct Hstep as [Hnd1 Hin1]. destruct (IH _ Hnd1) as [Hnd2 Hin2].
    split; [exact Hnd2|]. intros t. rewrite Hin2, Hin1. split.
    + intros [[H|H]|(s' & Hs' & H)]; eauto.
    + intros [H|(s' & [<-|Hs'] & H)]; eauto.
Qed.

Lemma NoDup_only (t : string) (r : list string) :
  NoDup r -> In t r -> (forall x, In x r -> x = t) -> r = [t].
Proof.
  intros Hnd Hin Hall. destruct r as [|a r]; [contradiction|].
  assert (a = t) by (apply Hall; now left). subst a.
  destruct r as [|b r]; [reflexivity|].
  assert (b = t) by (apply Hall; right; now left). subst b.
  inversion Hnd as [|? ? Hnin _]. exfalso. apply Hnin. now left.
Qed.

(** X8. Whatever the number of setlists, the detail object carries the
    concert-level [tour_name] [t] exactly when some setlist of the concert
    has the non-empty tour name [t] and every non-empty tour name among
    the concert's setlists is [t]; setlists without a tour name do not
    count either way. *)
Theorem tour_name_iff_one_name_present (db : Db) (cid : string) (c : Concert.t)
    (l : list Setlist.t) (t : string) :
  ConcertDetail.tour_name (concert_detail db cid c l) = Some t <->
  (exists s, In s l /\ on_tour t s) /\
  (forall s t', In s l -> on_tour t' s -> t' = t).
Proof.
  unfold concert_detail. cbn [ConcertDetail.tour_name].
  assert (Hmulti :
    match tour_names (multi_loop c l) with [t0] => Some t0 | _ => None end = Some t <->
    (exists s, In s l /\ on_tour t s) /\
    (forall s t', In s l -> on_tour t' s -> t' = t)).
  { unfold multi_loop.
    match goal with |- context [fold_left (multi_step c) ?sl ?a] =>
      destruct (multi_loop_tour_names c sl a (NoDup_nil _)) as [Hnd Hin];
      remember (tour_names (fold_left (multi_step c) sl a)) as r eqn:Hr
    end.
    clear Hr.
    assert (Hin' : forall t0, In t0 r <-> exists s, In s l /\ on_tour t0 s).
    { intros t0. rewrite Hin. simpl. split.
      - intros [[]|(s & Hs & H)]. exists s. split; [|exact H].
        now apply (sorted_by_In _ s l) in Hs.
      - intros (s & Hs & H). right. exists s. split; [|exact H].
        now apply (sorted_by_In _ s l). }
    split.
    - intros E. destruct r as [|a [|b r']]; try discriminate.
      injection E as ->. split.
      + apply Hin'. now left.
      + intros s t' Hs Ht'.
        assert (H : In t' [t]) by (apply Hin'; eauto).
        destruct H as [<-|[]]. reflexivity.
    - intros [Hex Hall].
      rewrite (@NoDup_only t r Hnd); [reflexivity | now apply Hin' |].
      intros x Hx. apply Hin' in Hx. destruct Hx as (s & Hs & Hx). eauto. }
  destruct l as [|s1 [|s2 l]]; try exact Hmulti.
  cbn [detail_shape snd]. split.
  - intros E. destruct (truthy (Setlist.tour_name s1)) eqn:Etr; [|discriminate].
    assert (Hon : on_tour t s1).
    { apply on_tour_truthy. split; [exact E|]. now rewrite <- E. }
    split; [exists s1; split; [now left | exact Hon]|].
    intros s t' [<-|[]] [Ht' _]. destruct Hon as [Ht _]. congruence.
  - intros [(s & [<-|[]] & Hon) _]. apply on_tour_truthy in Hon.
    destruct Hon as [E Htr]. rewrite E, Htr. reflexivity.
Qed.

(** ** Counters over any key *)

Section CounterFacts.
Context {K : Type} `{PyKeyLaws K}.
Implicit Types (k : K) (d : PyDict.t K Z).

Lemma incr_get k k' d :
  get_or (PyDict.get k (incr k' d)) 0 =
  get_or (PyDict.get k d) 0 + (if key_eqb k k' then 1 else 0).
Proof.
  unfold incr. destruct (key_eqb_spec k k') as [->|Hne].
  - rewrite get_upd_same. reflexivity.
  - rewrite get_upd_other by exact Hne. simpl. lia.
Qed.

Lemma incr_fold_get k (ks : list K) :
  forall d,
    get_or (PyDict.get k (fold_left (fun d k' => incr k' d) ks d)) 0 =
    get_or (PyDict.get k d) 0 + len (filter (key_eqb k) ks).
Proof.
  induction ks as [|k' ks IH]; intros d; simpl.
  - unfold len. simpl. lia.
  - rewrite IH, incr_get. destruct (key_eqb k k'); rewrite ?len_cons; lia.
Qed.

Lemma incr_fold_keys k (ks : list K) :
  forall d,
    In k (PyDict.keys (fold_left (fun d k' => incr k' d) ks d)) <->
    In k (PyDict.keys d) \/ In k ks.
Proof.
  induction ks as [|k' ks IH]; intros d; simpl; [tauto|].
  rewrite IH. unfold incr, PyDict.upd. rewrite keys_set_In. intuition.
Qed.

Lemma incr_fold_NoDup (ks : list K) :
  forall d, NoDup (PyDict.keys d) ->
            NoDup (PyDict.keys (fold_left (fun d k' => incr k' d) ks d)).
Proof.
  induction ks as [|k' ks IH]; intros d Hd; simpl; auto.
  apply IH. unfold incr, PyDict.upd. now apply NoDup_keys_set.
Qed.

Lemma zsum_values_set k (v : Z) d :
  zsum (PyDict.values (PyDict.set k v d)) =
  zsum (PyDict.values d) - get_or (PyDict.get k d) 0 + v.
Proof.
  unfold PyDict.values. induction d as [|[k' v'] d IH]; simpl.
  - rewrite zsum_cons. unfold zsum. simpl. lia.
  - destruct (key_eqb_spec k k') as [->|Hne]; simpl; rewrite !zsum_cons.
    + simpl. lia.
    + rewrite IH. lia.
Qed.

Lemma zsum_values_incr k d :
  zsum (PyDict.values (incr k d)) = zsum (PyDict.values d) + 1.
Proof. unfold incr, PyDict.upd. rewrite zsum_values_set. lia. Qed.

(** The counts of a counter add up to the number of increments. *)
Lemma incr_fold_total (ks : list K) :
  forall d,
    zsum (PyDict.values (fold_left (fun d k' => incr k' d) ks d)) =
    zsum (PyDict.values d) + len ks.
Proof.
  induction ks as [|k' ks IH]; intros d; simpl.
  - unfold len. simpl. lia.
  - rewrite IH, zsum_values_incr, len_cons. lia.
Qed.

End CounterFacts.

(** ** Statistics *)

Lemma by_year_from_years (l : list Concert.t) :
  forall d y, by_year_from l d = inr y ->
    y = fold_left (fun d yr => incr yr d) (years_of l) d /\
    len (years_of l) = len (filter dated l).
Proof.
  induction l as [|c l IH]; intros d y; simpl.
  - intros E. injection E as <-. split; reflexivity.
  - unfold years_of. cbn [flat_map]. fold (years_of l).
    destruct (dated c).
    + destruct (py_int (year_text c)) as [yr|]; [|discriminate].
      intros E. destruct (IH _ _ E) as [-> Hlen]. simpl.
      split; [reflexivity|]. rewrite !len_cons. lia.
    + intros E. destruct (IH _ _ E) as [-> Hlen]. simpl. auto.
Qed.

Lemma pair_leb_total (a b : Z * Z) : pair_leb a b = false -> pair_leb b a = true.
Proof.
  destruct a as [a1 a2], b as [b1 b2]. unfold pair_leb; simpl.
  rewrite orb_false_iff, andb_false_iff, orb_true_iff, andb_true_iff.
  rewrite !Z.ltb_ge, !Z.ltb_lt, !Z.eqb_eq, Z.eqb_neq, Z.leb_gt, Z.leb_le. lia.
Qed.

Lemma pair_leb_trans (a b c : Z * Z) :
  pair_leb a b = true -> pair_leb b c = true -> pair_leb a c = true.
Proof.
  destruct a as [a1 a2], b as [b1 b2], c as [c1 c2]. unfold pair_leb; simpl.
  rewrite !orb_true_iff, !andb_true_iff, !Z.ltb_lt, !Z.eqb_eq, !Z.leb_le. lia.
Qed.

Lemma NoDup_before {A B} (f : A -> B) (l1 l2 : list A) (a b : A) :
  NoDup (map f (l1 ++ a :: l2)) -> In b l2 -> f a <> f b.
Proof.
  rewrite map_app. simpl. intros Hnd Hb E.
  apply NoDup_remove_2 in Hnd. apply Hnd. rewrite in_app_iff. right.
  rewrite E. now apply in_map.
Qed.

Lemma run_ok_by_year db fs0 :
  fst (export_to_json db fs0) = inr tt -> exists y, by_year db = inr y.
Proof.
  rewrite export_to_json_effect. cbn [fst]. unfold outcome.
  destruct (by_year db) as [e|y]; [discriminate | eauto].
Qed.

(** X9. After a run that returns, [concerts_by_year] of [stats.json]
    lists a year with the count [n] exactly when [n] is positive and is
    the number of loaded concerts that pass the date test and whose date
    prefix [int] reads as that year; the years descend strictly, so no
    year is listed twice; and the counts add up to the number of loaded
    concerts that pass the date test. *)
Theorem concerts_by_year_counts (db : Db) (fs0 : FS)
    (Hok : fst (export_to_json db fs0) = inr tt) :
  let cs := PyDict.values (all_concerts_data db) in
  exists st,
    stats_json (snd (export_to_json db fs0)) = Some st /\
    (forall yr n, In (yr, n) (Stats.concerts_by_year st) <->
                  0 < n /\ n = len (filter (Z.eqb yr) (years_of cs))) /\
    (forall l1 a l2 b, Stats.concerts_by_year st = (l1 ++ a :: l2)%list -> In b l2 ->
                       fst b < fst a) /\
    zsum (map snd (Stats.concerts_by_year st)) = len (filter dated cs).
Proof.
  intros cs. destruct (run_ok_by_year db fs0 Hok) as [y Hy].
  rewrite export_to_json_effect. cbn [snd tree_after stats_json]. rewrite Hy.
  eexists. split; [reflexivity|]. cbn [stats Stats.concerts_by_year].
  unfold by_year in Hy. fold cs in Hy.
  destruct (by_year_from_years _ _ Hy) as [Hfold Hlen].
  assert (Hnd : NoDup (PyDict.keys y)).
  { rewrite Hfold. apply incr_fold_NoDup. constructor. }
  assert (Hget : forall yr, get_or (PyDict.get yr y) 0 = len (filter (Z.eqb yr) (years_of cs))).
  { intros yr. rewrite Hfold. rewrite (incr_fold_get yr (years_of cs) []). reflexivity. }
  assert (Hkeys : forall yr, In yr (PyDict.keys y) <-> In yr (years_of cs)).
  { intros yr. rewrite Hfold, incr_fold_keys. simpl. tauto. }
  assert (Hperm : Permutation y (concerts_by_year y)) by apply sorted_by_perm.
  split; [|split].
  - intros yr n. unfold concerts_by_year. rewrite sorted_by_In. split.
    + intros Hin. pose proof (In_get _ _ _ Hnd Hin) as Hg.
      specialize (Hget yr). rewrite Hg in Hget. simpl in Hget. split; [|exact Hget].
      assert (Hk : In yr (years_of cs)) by (apply Hkeys; apply in_map_iff; now exists (yr, n)).
      rewrite Hget. apply (len_pos_In yr). apply filter_In. split; [exact Hk|].
      apply Z.eqb_refl.
    + intros [Hpos ->]. apply len_pos_ex in Hpos. destruct Hpos as [yr' Hyr'].
      apply filter_In in Hyr'. destruct Hyr' as [Hin Heq]. apply Z.eqb_eq in Heq. subst yr'.
      apply Hkeys in Hin. apply in_map_iff in Hin. destruct Hin as ([yr' n'] & E & Hin).
      simpl in E. subst yr'. pose proof (In_get _ _ _ Hnd Hin) as Hg.
      specialize (Hget yr). rewrite Hg in Hget. simpl in Hget. now rewrite <- Hget.
  - intros l1 a l2 b E Hb.
    assert (Hle : pair_leb b a = true).
    { apply (sorted_by_later (fun x y0 : Z * Z => pair_leb y0 x)) with
        (l := y) (l1 := l1) (l2 := l2); auto.
      - intros x0 y0. apply pair_leb_total.
      - intros x0 y0 z0 H1 H2. eapply pair_leb_trans; eauto. }
    assert (Hne : fst a <> fst b).
    { apply (NoDup_before fst l1 l2 a b); [|exact Hb].
      rewrite <- E. eapply Permutation_NoDup; [|exact Hnd].
      unfold PyDict.keys. now apply Permutation_map. }
    unfold pair_leb in Hle. apply orb_true_iff in Hle. destruct Hle as [H|H].
    + now apply Z.ltb_lt.
    + apply andb_true_iff in H. destruct H as [H _]. apply Z.eqb_eq in H. congruence.
  - rewrite <- (zsum_perm (Permutation_map snd Hperm)).
    change (map snd y) with (PyDict.values y).
    rewrite Hfold, (incr_fold_total (years_of cs) []). unfold zsum at 1. simpl. exact Hlen.
Qed.

Lemma concerts_by_year_counts_witness :
  exists st,
    stats_json (snd (export_to_json Sample.two_shows Sample.empty_fs)) = Some st /\
    zsum (map snd (Stats.concerts_by_year st)) = 2.
Proof.
  destruct (concerts_by_year_counts Sample.two_shows Sample.empty_fs eq_refl)
    as (st & Hst & _ & _ & Hsum).
  exists st. split; [exact Hst | exact Hsum].
Defined.

Lemma set_fresh {K V} `{PyKeyLaws K} (k : K) (v : V) (d : PyDict.t K V) :
  ~ In k (PyDict.keys d) -> PyDict.set k v d = (d ++ [(k, v)])%list.
Proof.
  unfold PyDict.keys. induction d as [|[k' v'] d IH]; simpl; intros Hn; [reflexivity|].
  rewrite key_eqb_neq by (intros ->; tauto). rewrite IH by tauto. reflexivity.
Qed.

Lemma fold_set_distinct {V} (l : list (string * V)) :
  forall d : PyDict.t string V,
    NoDup (PyDict.keys d ++ map fst l) ->
    fold_left (fun d doc => PyDict.set (fst doc) (snd doc) d) l d = (d ++ l)%list.
Proof.
  induction l as [|[k v] l IH]; intros d Hnd; simpl.
  - now rewrite app_nil_r.
  - simpl in Hnd. rewrite set_fresh.
    + rewrite IH.
      * now rewrite <- app_assoc.
      * unfold PyDict.keys. rewrite map_app, <- app_assoc. exact Hnd.
    + apply NoDup_remove_2 in Hnd. intros Hin. apply Hnd. apply in_app_iff. now left.
Qed.

Lemma all_concerts_data_distinct db :
  NoDup (map fst (concerts db)) -> all_concerts_data db = concerts db.
Proof.
  intros Hnd. unfold all_concerts_data. now rewrite fold_set_distinct.
Qed.

Lemma filter_all {A} (p : A -> bool) (l : list A) :
  (forall x, In x l -> p x = true) -> filter p l = l.
Proof.
  induction l as [|x l IH]; intros Hall; simpl; [reflexivity|].
  rewrite (Hall x) by now left. f_equal. apply IH. intros y Hy. apply Hall. now right.
Qed.

Lemma filter_map_swap {A B} (f : A -> B) (p : B -> bool) (l : list A) :
  filter p (map f l) = map f (filter (fun x => p (f x)) l).
Proof.
  induction l as [|x l IH]; simpl; [reflexivity|].
  rewrite IH. now destruct (p (f x)).
Qed.

Lemma len_map {A B} (f : A -> B) (l : list A) : len (map f l) = len l.
Proof. unfold len. now rewrite length_map. Qed.

Lemma len_filter_members (ids l : list string) :
  NoDup ids -> NoDup l -> incl ids l ->
  len (filter (fun x => existsb (String.eqb x) ids) l) = len ids.
Proof.
  intros Hids Hl Hincl. unfold len. f_equal. apply Permutation_length.
  apply NoDup_Permutation; [now apply NoDup_filter | exact Hids |].
  intros x. rewrite filter_In, existsb_eqb_In. split; [tauto|]. auto.
Qed.

Lemma update_hasSetlist_date ids row :
  ConcertRow.date (update_hasSetlist ids row) = ConcertRow.date row.
Proof. unfold update_hasSetlist. now destruct (existsb _ ids). Qed.

Lemma artists_out_pos db a :
  In a (artists_out db (all_concerts_data db)) -> 0 < ArtistRow.concert_count a.
Proof.
  intros Ha. apply In_artists_out in Ha. destruct Ha as (n & _ & _ & Hpos & Ha).
  rewrite Ha. exact Hpos.
Qed.

Lemma venues_out_pos db v :
  In v (venues_out db (all_concerts_data db)) -> 0 < VenueRow.concert_count v.
Proof.
  intros Hv. apply In_venues_out in Hv. destruct Hv as (w & _ & _ & Hpos & Hv).
  rewrite Hv. exact Hpos.
Qed.

(** X10. Document ids are distinct.  After a run that returns, the
    numbers of [stats.json] agree with the index files of the same run:
    [total_concerts] is the number of [concerts.json] records with a
    non-empty date, [concerts_with_setlists] the number of records with
    [hasSetlist] true, [total_artists] and [total_venues] the lengths of
    [artists.json] and [venues.json], and [top_artists] and [top_venues]
    are their first 10 entries, name and count. *)
Theorem stats_agree_with_index_files (db : Db) (fs0 : FS)
    (Hok : fst (export_to_json db fs0) = inr tt)
    (Hids : NoDup (map fst (concerts db))) :
  let fs := snd (export_to_json db fs0) in
  exists st rows arts vens,
    stats_json fs = Some st /\ concerts_json fs = Some rows /\
    artists_json fs = Some arts /\ venues_json fs = Some vens /\
    Stats.total_concerts st =
      len (filter (fun r => negb (ConcertRow.date r =? "")%string) rows) /\
    Stats.concerts_with_setlists st = len (filter ConcertRow.hasSetlist rows) /\
    Stats.total_artists st = len arts /\
    Stats.total_venues st = len vens /\
    Stats.top_artists st =
      map (fun a => (ArtistRow.name a, ArtistRow.concert_count a)) (firstn 10 arts) /\
    Stats.top_venues st =
      map (fun v => (VenueRow.name v, VenueRow.concert_count v)) (firstn 10 vens).
Proof.
  intros fs. unfold fs. destruct (run_ok_by_year db fs0 Hok) as [y Hy].
  rewrite export_to_json_effect.
  cbn [snd tree_after stats_json concerts_json artists_json venues_json]. rewrite Hy.
  do 4 eexists. do 4 (split; [reflexivity|]).
  cbn [stats Stats.total_concerts Stats.concerts_with_setlists Stats.total_artists
       Stats.total_venues Stats.top_artists Stats.top_venues].
  set (acd := all_concerts_data db). set (ids := concert_ids_with_setlists db).
  repeat split.
  - unfold acd. rewrite (all_concerts_data_distinct db Hids).
    unfold PyDict.values, concerts_list. rewrite map_map.
    rewrite !filter_map_swap, !len_map. f_equal. apply filter_ext.
    intros [cid c]. rewrite update_hasSetlist_date. simpl.
    unfold truthy. now destruct (Concert.date c).
  - unfold concerts_list. rewrite map_map, filter_map_swap, len_map.
    rewrite (filter_ext _ (fun doc => existsb (String.eqb (fst doc)) ids))
      by (intros doc; apply update_hasSetlist_flag).
    rewrite <- (len_map fst), <- (filter_map_swap fst (fun x => existsb (String.eqb x) ids)).
    symmetry.
    apply len_filter_members; [apply setlists_by_concert_NoDup | exact Hids |].
    intros cid Hcid. unfold ids, concert_ids_with_setlists in Hcid.
    apply setlists_by_concert_keys in Hcid. destruct Hcid as (s & _ & Hg).
    apply groupable_spec in Hg. destruct Hg as (_ & _ & Hm).
    apply mem_keys in Hm. now apply all_concerts_data_keys in Hm.
  - f_equal. apply filter_all. intros a Ha. apply Z.ltb_lt.
    now apply (artists_out_pos db).
  - f_equal. apply filter_all. intros v Hv. apply Z.ltb_lt.
    now apply (venues_out_pos db).
Qed.

Lemma stats_agree_with_index_files_witness :
  exists st rows,
    stats_json (snd (export_to_json Sample.two_shows Sample.empty_fs)) = Some st /\
    concerts_json (snd (export_to_json Sample.two_shows Sample.empty_fs)) = Some rows /\
    Stats.concerts_with_setlists st = len (filter ConcertRow.hasSetlist rows).
Proof.
  destruct (stats_agree_with_index_files Sample.two_shows Sample.empty_fs eq_refl)
    as (st & rows & arts & vens & Hst & Hrows & _ & _ & _ & Hcount & _).
  - simpl. repeat constructor; simpl; intuition discriminate.
  - exists st, rows. repeat split; assumption.
Defined.

(** ** The list of all songs *)

Lemma count_step_as_incr (key : Song.t -> option string) (l : list Song.t) :
  forall d,
    fold_left (count_step key) l d =
    fold_left (fun d k => incr k d)
      (flat_map (fun song => match key song with Some n => [n] | None => [] end) l) d.
Proof.
  induction l as [|song l IH]; intros d; simpl; [reflexivity|].
  rewrite fold_left_app, IH. unfold count_step.
  now destruct (key song).
Qed.

Lemma song_counts_as_incr acd docs :
  song_counts (song_pass acd docs) =
  fold_left (fun d k => incr k d) (names_played acd docs) [].
Proof.
  destruct (song_pass_counts acd docs) as [-> _]. apply count_step_as_incr.
Qed.

(** X11. [all_songs] has exactly one entry for each distinct non-empty
    song name played in a setlist that is not orphaned; the entries
    descend by [times_heard]; their [times_heard] add up to the number
    of played songs with a non-empty name; and [total_unique_songs] is the
    number of distinct names. *)
Theorem all_songs_distinct_and_sorted (db : Db) :
  let acd := all_concerts_data db in
  let out := songs_data (song_pass acd (setlists db)) in
  let names := names_played acd (setlists db) in
  NoDup (map SongEntry.name (SongsData.all_songs out)) /\
  (forall n, In n (map SongEntry.name (SongsData.all_songs out)) <-> In n names) /\
  (forall l1 a l2 b, SongsData.all_songs out = (l1 ++ a :: l2)%list -> In b l2 ->
     SongEntry.times_heard b <= SongEntry.times_heard a) /\
  zsum (map SongEntry.times_heard (SongsData.all_songs out)) = len names /\
  SongsData.total_unique_songs out = len (nodup string_dec names).
Proof.
  intros acd out names. unfold out. cbn [songs_data SongsData.all_songs
                                         SongsData.total_unique_songs].
  set (acc := song_pass acd (setlists db)).
  assert (Hcounts : song_counts acc = fold_left (fun d k => incr k d) names [])
    by apply song_counts_as_incr.
  assert (Hnd : NoDup (PyDict.keys (song_counts acc))).
  { rewrite Hcounts. apply incr_fold_NoDup. constructor. }
  assert (Hperm : Permutation (map (song_entry (song_cover_counts acc)) (song_counts acc))
                    (all_songs acc)) by apply sorted_by_perm.
  assert (Hnames : map SongEntry.name (map (song_entry (song_cover_counts acc)) (song_counts acc))
                   = PyDict.keys (song_counts acc)).
  { rewrite map_map. apply map_ext. now intros [n th]. }
  assert (Hth : map SongEntry.times_heard
                  (map (song_entry (song_cover_counts acc)) (song_counts acc))
                = PyDict.values (song_counts acc)).
  { rewrite map_map. apply map_ext. now intros [n th]. }
  assert (Hkeys : forall n, In n (PyDict.keys (song_counts acc)) <-> In n names).
  { intros n. rewrite Hcounts, incr_fold_keys. simpl. tauto. }
  split; [|split; [|split; [|split]]].
  - eapply Permutation_NoDup; [apply Permutation_map; exact Hperm|].
    now rewrite Hnames.
  - intros n. rewrite <- Hkeys, <- Hnames. split; apply Permutation_in;
      [apply Permutation_sym|]; apply Permutation_map; exact Hperm.
  - intros l1 a l2 b E Hb. apply Z.leb_le.
    apply (sorted_by_later (fun x y : SongEntry.t =>
                              SongEntry.times_heard y <=? SongEntry.times_heard x))
      with (l := map (song_entry (song_cover_counts acc)) (song_counts acc))
           (l1 := l1) (l2 := l2); auto.
    + intros x y H. apply Z.leb_le. apply Z.leb_gt in H. lia.
    + intros x y z H1 H2. apply Z.leb_le. apply Z.leb_le in H1, H2. lia.
  - rewrite <- (zsum_perm (Permutation_map SongEntry.times_heard Hperm)), Hth, Hcounts.
    rewrite (incr_fold_total names []). unfold zsum at 1. simpl. reflexivity.
  - unfold len. f_equal. rewrite <- (Permutation_length Hperm), length_map.
    replace (List.length (song_counts acc))
      with (List.length (PyDict.keys (song_counts acc)))
      by (unfold PyDict.keys; apply length_map).
    apply Permutation_length. apply NoDup_Permutation; [exact Hnd | apply NoDup_nodup |].
    intros n. rewrite nodup_In. apply Hkeys.
Qed.

(** ** The tables by artist *)

Lemma In_set {K V} `{PyKeyLaws K} (k k' : K) (v v' : V) (d : PyDict.t K V) :
  In (k', v') (PyDict.set k v d) -> (k' = k /\ v' = v) \/ In (k', v') d.
Proof.
  induction d as [|[k2 v2] d IH]; simpl.
  - intros [E|[]]. injection E as <- <-. auto.
  - destruct (key_eqb_spec k k2) as [->|Hne]; simpl.
    + intros [E|Hin]; [injection E as <- <-; auto | auto].
    + intros [E|Hin]; [auto|]. destruct (IH Hin); auto.
Qed.

Lemma wf2_incr2 (a n : string) (t : Counts2) : wf2 t -> wf2 (incr2 a n t).
Proof.
  intros [Hnd Hin].
  assert (Hinner : NoDup (PyDict.keys (get_or (PyDict.get a t) []))).
  { destruct (PyDict.get a t) as [d|] eqn:E; simpl; [|constructor].
    apply get_In in E. eauto. }
  unfold incr2, PyDict.upd. split.
  - now apply NoDup_keys_set.
  - intros a' d' Hd'. apply In_set in Hd'. destruct Hd' as [[-> ->]|Hd']; [|eauto].
    unfold incr, PyDict.upd. now apply NoDup_keys_set.
Qed.

Lemma wf2_credit_all primary n t : wf2 t -> wf2 (credit_all primary n t).
Proof.
  unfold credit_all. revert t.
  induction primary as [|art primary IH]; intros t Ht; simpl; auto.
  apply IH. now apply wf2_incr2.
Qed.

Lemma wf2_tally_fold cond primary songs :
  forall t, wf2 t -> wf2 (fold_left (tally cond primary) songs t).
Proof.
  induction songs as [|song songs IH]; intros t Ht; simpl; auto.
  apply IH. unfold tally. destruct (name_key song); auto.
  destruct (cond song); auto. now apply wf2_credit_all.
Qed.

Lemma setlist_step_tables acd acc s :
  match concert_of acd s with
  | Some c =>
      opening_songs (setlist_step acd acc s) =
        fold_left (tally is_opening (primary_artists c)) (Setlist.songs s) (opening_songs acc) /\
      encore_songs (setlist_step acd acc s) =
        fold_left (tally is_encore (primary_artists c)) (Setlist.songs s) (encore_songs acc) /\
      closing_songs (setlist_step acd acc s) =
        match last_song (Setlist.songs s) with
        | Some x =>
            match name_key x with
            | Some n => credit_all (primary_artists c) n (closing_songs acc)
            | None => closing_songs acc
            end
        | None => closing_songs acc
        end
  | None => setlist_step acd acc s = acc
  end.
Proof.
  unfold setlist_step. destruct (concert_of acd s) as [c|]; [|reflexivity].
  destruct (closing_step_tables (primary_artists c) (Setlist.songs s)
              (fold_left (song_step (primary_artists c)) (Setlist.songs s) acc))
    as (H1 & H2 & H3).
  destruct (songs_loop_tables (primary_artists c) (Setlist.songs s) acc) as (H4 & H5 & H6).
  rewrite H1, H2, H3, H4, H5, H6. auto.
Qed.

Lemma song_pass_wf acd docs :
  forall acc,
    wf2 (opening_songs acc) -> wf2 (encore_songs acc) -> wf2 (closing_songs acc) ->
    wf2 (opening_songs (fold_left (setlist_step acd) docs acc)) /\
    wf2 (encore_songs (fold_left (setlist_step acd) docs acc)) /\
    wf2 (closing_songs (fold_left (setlist_step acd) docs acc)).
Proof.
  induction docs as [|s docs IH]; intros acc Ho He Hc; simpl; [auto|].
  pose proof (setlist_step_tables acd acc s) as Hstep.
  destruct (concert_of acd s) as [c|].
  - destruct Hstep as (H1 & H2 & H3). apply IH.
    + rewrite H1. now apply wf2_tally_fold.
    + rewrite H2. now apply wf2_tally_fold.
    + rewrite H3. destruct (last_song (Setlist.songs s)); auto.
      destruct (name_key t); auto. now apply wf2_credit_all.
  - rewrite Hstep. now apply IH.
Qed.

Lemma wf2_nil : wf2 [].
Proof. split; [constructor | intros a d []]. Qed.

Lemma get2_credit_all_empty (a n : string) primary t :
  n <> "" -> get2 a "" (credit_all primary n t) = get2 a "" t.
Proof.
  intros Hn. rewrite get2_credit_all.
  destruct (String.eqb_spec "" n); [congruence | lia].
Qed.

Lemma get2_tally_fold_empty cond primary (a : string) songs :
  forall t, get2 a "" (fold_left (tally cond primary) songs t) = get2 a "" t.
Proof.
  induction songs as [|song songs IH]; intros t; simpl; [reflexivity|].
  rewrite IH. unfold tally. destruct (name_key song) as [n|] eqn:E; [|reflexivity].
  destruct (cond song); [|reflexivity].
  apply get2_credit_all_empty. apply song_named_key in E. tauto.
Qed.

Lemma song_pass_empty_name acd (a : string) docs :
  forall acc,
    get2 a "" (opening_songs (fold_left (setlist_step acd) docs acc)) =
      get2 a "" (opening_songs acc) /\
    get2 a "" (encore_songs (fold_left (setlist_step acd) docs acc)) =
      get2 a "" (encore_songs acc) /\
    get2 a "" (closing_songs (fold_left (setlist_step acd) docs acc)) =
      get2 a "" (closing_songs acc).
Proof.
  induction docs as [|s docs IH]; intros acc; simpl; [auto|].
  destruct (IH (setlist_step acd acc s)) as (H1 & H2 & H3). rewrite H1, H2, H3.
  pose proof (setlist_step_tables acd acc s) as Hstep.
  destruct (concert_of acd s) as [c|].
  - destruct Hstep as (-> & -> & ->). rewrite !get2_tally_fold_empty.
    split; [reflexivity|]. split; [reflexivity|].
    destruct (last_song (Setlist.songs s)) as [x|]; [|reflexivity].
    destruct (name_key x) as [n|] eqn:E; [|reflexivity].
    apply get2_credit_all_empty. apply song_named_key in E. tauto.
  - rewrite Hstep. auto.
Qed.

Lemma by_artist_get_from (a : string) (l : Counts2) :
  forall out : SongTable,
    NoDup (PyDict.keys l) ->
    PyDict.get a
      (fold_left
         (fun out item =>
            match filter (fun st => 2 <=? snd st) (snd item) with
            | [] => out
            | filtered => PyDict.set (fst item) (sorted_desc snd filtered) out
            end) l out)
    = match PyDict.get a l with
      | Some d =>
          match filter (fun st => 2 <=? snd st) d with
          | [] => PyDict.get a out
          | filtered => Some (sorted_desc snd filtered)
          end
      | None => PyDict.get a out
      end.
Proof.
  induction l as [|[a' d'] l IH]; intros out Hnd; [reflexivity|].
  unfold PyDict.keys in Hnd. simpl in Hnd. inversion Hnd as [|? ? Hnin Hnd']; subst.
  cbn [fold_left fst snd]. rewrite IH by exact Hnd'. cbn [PyDict.get].
  change (key_eqb a a') with (a =? a')%string.
  destruct (String.eqb_spec a a') as [->|Hne].
  - rewrite get_keys_None by exact Hnin.
    destruct (filter (fun st => 2 <=? snd st) d') as [|x f]; [reflexivity|].
    apply get_set_same.
  - destruct (filter (fun st => 2 <=? snd st) d') as [|x f].
    + reflexivity.
    + rewrite get_set_other by exact Hne. reflexivity.
Qed.

Lemma by_artist_get (a : string) (t : Counts2) :
  NoDup (PyDict.keys t) ->
  PyDict.get a (by_artist t) =
  match PyDict.get a t with
  | Some d =>
      match filter (fun st => 2 <=? snd st) d with
      | [] => None
      | filtered => Some (sorted_desc snd filtered)
      end
  | None => None
  end.
Proof.
  intros Hnd. unfold by_artist. rewrite by_artist_get_from by exact Hnd.
  destruct (PyDict.get a t) as [d|]; [|reflexivity].
  now destruct (filter (fun st => 2 <=? snd st) d).
Qed.

Lemma sorted_desc_descending (l : list (string * Z)) : descending (sorted_desc snd l).
Proof.
  intros l1 x l2 y E Hy. apply Z.leb_le.
  apply (sorted_by_later (fun u v : string * Z => snd v <=? snd u))
    with (l := l) (l1 := l1) (l2 := l2); auto.
  - intros u v H. apply Z.leb_le. apply Z.leb_gt in H. lia.
  - intros u v w H1 H2. apply Z.leb_le. apply Z.leb_le in H1, H2. lia.
Qed.

Lemma by_artist_lists (t : Counts2) (count : string -> string -> Z) :
  wf2 t ->
  (forall a n, get2 a n t = if (n =? "")%string then 0 else count a n) ->
  lists_heard_twice (by_artist t) count.
Proof.
  intros [Hnd Hinner] Hcount a. rewrite by_artist_get by exact Hnd.
  destruct (PyDict.get a t) as [d|] eqn:Ea.
  - assert (Hd : NoDup (PyDict.keys d)) by (apply get_In in Ea; eauto).
    assert (Hget2 : forall n, get2 a n t = get_or (PyDict.get n d) 0).
    { intros n. unfold get2. now rewrite Ea. }
    assert (Hin : forall n k, In (n, k) d /\ 2 <= k <-> n <> "" /\ 2 <= k /\ k = count a n).
    { intros n k. split.
      - intros [Hnk Hk]. apply (In_get _ _ _ Hd) in Hnk.
        specialize (Hcount a n). rewrite Hget2, Hnk in Hcount. simpl in Hcount.
        destruct (String.eqb_spec n ""); [lia|]. auto.
      - intros (Hn & Hk & ->). split; [|exact Hk].
        specialize (Hcount a n). rewrite Hget2 in Hcount.
        apply String.eqb_neq in Hn. rewrite Hn in Hcount.
        destruct (PyDict.get n d) as [k'|] eqn:En; simpl in Hcount; [|lia].
        apply get_In in En. now rewrite <- Hcount. }
    destruct (filter (fun st => 2 <=? snd st) d) as [|x f] eqn:Ef.
    + intros n Hn.
      destruct (Z.lt_ge_cases (count a n) 2) as [Hlt|Hge]; [exact Hlt|].
      assert (Hnk : In (n, count a n) d /\ 2 <= count a n) by (apply Hin; auto).
      assert (Hf : In (n, count a n) (filter (fun st => 2 <=? snd st) d)).
      { apply filter_In. split; [tauto|]. apply Z.leb_le. tauto. }
      rewrite Ef in Hf. contradiction.
    + rewrite <- Ef. split; [|split].
      * intros E. apply (f_equal (@List.length _)) in E.
        unfold sorted_desc in E.
        rewrite <- (Permutation_length (sorted_by_perm _ _)), Ef in E. discriminate.
      * apply sorted_desc_descending.
      * intros n k. unfold sorted_desc. rewrite sorted_by_In, filter_In. simpl.
        rewrite Z.leb_le. apply Hin.
  - intros n Hn. specialize (Hcount a n). unfold get2 in Hcount. rewrite Ea in Hcount.
    simpl in Hcount. apply String.eqb_neq in Hn. rewrite Hn in Hcount. lia.
Qed.

(** X12. In [songs.json], each of the three tables by artist lists under
    an artist name exactly the non-empty song names whose count for that
    artist is at least 2, each with its count, most frequent first; a
    name with a smaller count is left out, and an artist without any
    listed song is not a key of the table. *)
Theorem tables_list_songs_heard_twice (db : Db) :
  let acd := all_concerts_data db in
  let out := songs_data (song_pass acd (setlists db)) in
  lists_heard_twice (SongsData.opening_songs_by_artist out)
    (credits is_opening acd (setlists db)) /\
  lists_heard_twice (SongsData.encore_songs_by_artist out)
    (credits is_encore acd (setlists db)) /\
  lists_heard_twice (SongsData.closing_songs_by_artist out)
    (closing_credits acd (setlists db)).
Proof.
  intros acd out. unfold out. cbn [songs_data SongsData.opening_songs_by_artist
    SongsData.encore_songs_by_artist SongsData.closing_songs_by_artist].
  destruct (song_pass_wf acd (setlists db) empty_acc wf2_nil wf2_nil wf2_nil)
    as (Wo & We & Wc).
  assert (Hcount : forall a n,
    get2 a n (opening_songs (song_pass acd (setlists db))) =
      (if (n =? "")%string then 0 else credits is_opening acd (setlists db) a n) /\
    get2 a n (encore_songs (song_pass acd (setlists db))) =
      (if (n =? "")%string then 0 else credits is_encore acd (setlists db) a n) /\
    get2 a n (closing_songs (song_pass acd (setlists db))) =
      (if (n =? "")%string then 0 else closing_credits acd (setlists db) a n)).
  { intros a n. destruct (String.eqb_spec n "") as [->|Hn].
    - destruct (song_pass_empty_name acd a (setlists db) empty_acc) as (H1 & H2 & H3).
      unfold song_pass. rewrite H1, H2, H3. auto.
    - now apply song_pass_tables. }
  split; [|split]; apply by_artist_lists; auto; intros a n; apply Hcount.
Qed.

(** ** Venue and artist files against the index files *)


Lemma sorted_by_date_desc_later {A} (date : A -> string) (l l1 l2 : list A) (a b : A) :
  sorted_by_date_desc date l = (l1 ++ a :: l2)%list -> In b l2 ->
  String.leb (date b) (date a) = true.
Proof.
  intros E Hb.
  apply (sorted_by_later (fun x y : A => String.leb (date y) (date x)))
    with (l := l) (l1 := l1) (l2 := l2); auto.
  - intros x y H. destruct (String.leb_total (date y) (date x)) as [H'|H']; congruence.
  - intros x y z H1 H2. eapply string_leb_trans; eauto.
Qed.




Lemma artist_concert_some (aid : string) (item : string * Concert.t) :
  match artist_concert aid item with
  | Some ac =>
      ArtistConcert.id ac = fst item /\
      exists a, find (has_artist_id aid) (Concert.artists (snd item)) = Some a /\
                ArtistConcert.role ac = get_or (Artist.role a) "headliner"
  | None => filter (has_artist_id aid) (Concert.artists (snd item)) = []
  end.
Proof.
  destruct item as [cid c]. unfold artist_concert.
  change (fun a => key_eqb (Artist.artist_id a) (Some aid)) with (has_artist_id aid).
  destruct (find (has_artist_id aid) (Concert.artists c)) as [a|] eqn:E.
  - split; [reflexivity|]. exists a. auto.
  - simpl. induction (Concert.artists c) as [|x l IH]; simpl in *; [reflexivity|].
    destruct (has_artist_id aid x); [discriminate | auto].
Qed.

Lemma concerts_for_artist_len (aid : string) (acd : PyDict.t string Concert.t) :
  len (concerts_for_artist acd aid) <= memberships acd aid /\
  (0 < memberships acd aid -> 0 < len (concerts_for_artist acd aid)).
Proof.
  unfold concerts_for_artist, memberships, PyDict.values.
  change (fun a => key_eqb (Artist.artist_id a) (Some aid)) with (has_artist_id aid).
  induction acd as [|item acd IH]; simpl.
  - unfold len. simpl. lia.
  - rewrite filter_app, !len_app. destruct IH as [IH1 IH2].
    pose proof (artist_concert_some aid item) as Hitem.
    pose proof (len_nonneg (filter (has_artist_id aid) (Concert.artists (snd item)))) as H0.
    pose proof (len_nonneg
                  (flat_map (fun item0 => match artist_concert aid item0 with
                                          | Some c => [c]
                                          | None => []
                                          end) acd)) as H1.
    destruct (artist_concert aid item) as [ac|].
    + destruct Hitem as (_ & a & Hfind & _). apply find_some in Hfind.
      assert (Hpos : 0 < len (filter (has_artist_id aid) (Concert.artists (snd item)))).
      { apply (len_pos_In a). now apply filter_In. }
      rewrite len_cons. change (len (@nil ArtistConcert.t)) with 0. lia.
    + rewrite Hitem. change (len (@nil ArtistConcert.t)) with 0.
      change (len (@nil Artist.t)) with 0. lia.
Qed.

Lemma concerts_for_artist_In (aid : string) (acd : PyDict.t string Concert.t) ac :
  In ac (concerts_for_artist acd aid) ->
  exists c a, In (ArtistConcert.id ac, c) acd /\
              find (has_artist_id aid) (Concert.artists c) = Some a /\
              ArtistConcert.role ac = get_or (Artist.role a) "headliner".
Proof.
  intros Hac. unfold concerts_for_artist in Hac. apply in_flat_map in Hac.
  destruct Hac as ([cid c] & Hitem & Hac).
  pose proof (artist_concert_some aid (cid, c)) as Hsome.
  destruct (artist_concert aid (cid, c)) as [ac'|]; [|contradiction].
  destruct Hac as [<-|[]]. destruct Hsome as (Hid & a & Hfind & Hrole).
  exists c, a. simpl in *. rewrite Hid. auto.
Qed.

Lemma concerts_for_artist_NoDup (aid : string) (acd : PyDict.t string Concert.t) :
  NoDup (PyDict.keys acd) -> NoDup (map ArtistConcert.id (concerts_for_artist acd aid)).
Proof.
  unfold PyDict.keys. induction acd as [|item acd IH]; intros Hnd; [constructor|].
  simpl in Hnd. inversion Hnd as [|? ? Hnin Hnd']; subst.
  change (concerts_for_artist (item :: acd) aid)
    with ((match artist_concert aid item with Some c => [c] | None => [] end
           ++ concerts_for_artist acd aid)%list).
  pose proof (artist_concert_some aid item) as Hsome.
  destruct (artist_concert aid item) as [ac|]; simpl; [|auto].
  constructor; [|auto]. intros Hx. apply in_map_iff in Hx.
  destruct Hx as (ac' & Eid & Hac'). apply concerts_for_artist_In in Hac'.
  destruct Hac' as (c & _ & Hc & _). apply Hnin. destruct Hsome as [Hid _].
  rewrite <- Hid, <- Eid. apply in_map_iff. now exists (ArtistConcert.id ac', c).
Qed.

Lemma artist_detail_spec acd (t : Counts2) (aid name : string) :
  NoDup (PyDict.keys acd) ->
  match artist_detail acd t (aid, name) with
  | Some ad =>
      ArtistDetail.id ad = aid /\ ArtistDetail.name ad = name /\
      ArtistDetail.top_songs ad = top_songs t aid /\
      ArtistDetail.concert_count ad = len (ArtistDetail.concerts ad) /\
      0 < ArtistDetail.concert_count ad <= memberships acd aid /\
      NoDup (map ArtistConcert.id (ArtistDetail.concerts ad)) /\
      (forall ac, In ac (ArtistDetail.concerts ad) ->
         exists c a, PyDict.get (ArtistConcert.id ac) acd = Some c /\
                     find (has_artist_id aid) (Concert.artists c) = Some a /\
                     ArtistConcert.role ac = get_or (Artist.role a) "headliner") /\
      (forall l1 a l2 b, ArtistDetail.concerts ad = (l1 ++ a :: l2)%list -> In b l2 ->
         String.leb (ArtistConcert.date b) (ArtistConcert.date a) = true)
  | None => memberships acd aid = 0
  end.
Proof.
  intros Hnd. unfold artist_detail.
  destruct (concerts_for_artist_len aid acd) as [Hle Hpos].
  pose proof (concerts_for_artist_NoDup aid acd Hnd) as Hids.
  pose proof (concerts_for_artist_In aid acd) as Hin.
  destruct (concerts_for_artist acd aid) as [|x l] eqn:E.
  - assert (0 <= memberships acd aid) by apply len_nonneg.
    change (len (@nil ArtistConcert.t)) with 0 in Hpos. lia.
  - cbn [ArtistDetail.id ArtistDetail.name ArtistDetail.top_songs
         ArtistDetail.concert_count ArtistDetail.concerts].
    assert (Hperm : Permutation (x :: l) (sorted_by_date_desc ArtistConcert.date (x :: l)))
      by apply sorted_by_perm.
    do 3 (split; [reflexivity|]).
    split; [unfold len; f_equal; now apply Permutation_length|].
    split; [rewrite len_cons in *; pose proof (len_nonneg l); lia|].
    split; [eapply Permutation_NoDup; [apply Permutation_map; exact Hperm | exact Hids]|].
    split.
    + intros ac Hac. apply (Permutation_in _ (Permutation_sym Hperm)) in Hac.
      destruct (Hin ac Hac) as (c & a & Hc & Hrest). exists c, a.
      split; [now apply In_get | exact Hrest].
    + intros l1 a l2 b. apply sorted_by_date_desc_later.
Qed.

Lemma concerts_for_artist_iff (aid : string) (acd : PyDict.t string Concert.t) ac :
  In ac (concerts_for_artist acd aid) <->
  exists cid c, In (cid, c) acd /\ artist_concert aid (cid, c) = Some ac.
Proof.
  unfold concerts_for_artist. rewrite in_flat_map. split.
  - intros ([cid c] & Hitem & Hac). exists cid, c. split; [exact Hitem|].
    destruct (artist_concert aid (cid, c)) as [ac'|]; [|contradiction].
    destruct Hac as [<-|[]]. reflexivity.
  - intros (cid & c & Hitem & Hsome). exists (cid, c). split; [exact Hitem|].
    rewrite Hsome. now left.
Qed.

Lemma artist_concert_fields (aid cid : string) (c : Concert.t) ac :
  artist_concert aid (cid, c) = Some ac ->
  ArtistConcert.id ac = cid /\
  ArtistConcert.date ac = get_or (Concert.date c) "" /\
  exists a, find (has_artist_id aid) (Concert.artists c) = Some a /\
            ArtistConcert.role ac = get_or (Artist.role a) "headliner".
Proof.
  unfold artist_concert.
  change (fun a => key_eqb (Artist.artist_id a) (Some aid)) with (has_artist_id aid).
  destruct (find (has_artist_id aid) (Concert.artists c)) as [a|]; [|discriminate].
  intros E. injection E as <-. cbn [ArtistConcert.id ArtistConcert.date ArtistConcert.role].
  split; [reflexivity|]. split; [reflexivity|]. exists a. auto.
Qed.

Lemma artist_concert_listed (aid cid : string) (c : Concert.t) :
  existsb (has_artist_id aid) (Concert.artists c) = true ->
  exists ac, artist_concert aid (cid, c) = Some ac.
Proof.
  intros Hex. apply existsb_exists in Hex. destruct Hex as (a & Ha & Hid).
  unfold artist_concert.
  change (fun a => key_eqb (Artist.artist_id a) (Some aid)) with (has_artist_id aid).
  destruct (find (has_artist_id aid) (Concert.artists c)) as [a'|] eqn:E; [eauto|].
  pose proof (find_none _ _ E a Ha) as Hno. congruence.
Qed.

Lemma artist_detail_lists acd (t : Counts2) (aid name : string) ad :
  artist_detail acd t (aid, name) = Some ad ->
  forall ac, In ac (ArtistDetail.concerts ad) <-> In ac (concerts_for_artist acd aid).
Proof.
  unfold artist_detail. destruct (concerts_for_artist acd aid) as [|x l]; [discriminate|].
  intros E. injection E as <-. cbn [ArtistDetail.concerts]. intros ac.
  assert (Hp : Permutation (x :: l) (sorted_by_date_desc ArtistConcert.date (x :: l)))
    by apply sorted_by_perm.
  split; intros H.
  - exact (Permutation_in _ (Permutation_sym Hp) H).
  - exact (Permutation_in _ Hp H).
Qed.

(** X14. After a run that returns, every entry of [artists.json] has its
    file in [artist_details/], with the same id and name.  The file lists
    a concert only if it is loaded and has the artist on its roster, and
    then with the date of the concert and the role of the first roster
    entry that carries the artist id; conversely every loaded concert
    with a roster entry that carries the artist id is listed; no concert
    is listed twice, and the latest date comes first.  Its
    [concert_count] is the number of listed concerts, which is positive
    and at most the [concert_count] of [artists.json], where every roster
    entry counts. *)
Theorem artist_files_agree_with_index (db : Db) (fs0 : FS)
    (Hok : fst (export_to_json db fs0) = inr tt) :
  let acd := all_concerts_data db in
  let fs := snd (export_to_json db fs0) in
  forall r, In r (artists_out db acd) ->
    exists ad,
      PyDict.get (ArtistRow.id r ++ ".json") (artist_details fs) = Some ad /\
      ArtistDetail.id ad = ArtistRow.id r /\ ArtistDetail.name ad = ArtistRow.name r /\
      ArtistDetail.concert_count ad = len (ArtistDetail.concerts ad) /\
      0 < ArtistDetail.concert_count ad <= ArtistRow.concert_count r /\
      NoDup (map ArtistConcert.id (ArtistDetail.concerts ad)) /\
      (forall ac, In ac (ArtistDetail.concerts ad) ->
         exists c a, PyDict.get (ArtistConcert.id ac) acd = Some c /\
                     find (has_artist_id (ArtistRow.id r)) (Concert.artists c) = Some a /\
                     ArtistConcert.role ac = get_or (Artist.role a) "headliner" /\
                     ArtistConcert.date ac = get_or (Concert.date c) "") /\
      (forall cid c, PyDict.get cid acd = Some c ->
         existsb (has_artist_id (ArtistRow.id r)) (Concert.artists c) = true ->
         In cid (map ArtistConcert.id (ArtistDetail.concerts ad))) /\
      (forall l1 a l2 b, ArtistDetail.concerts ad = (l1 ++ a :: l2)%list -> In b l2 ->
         String.leb (ArtistConcert.date b) (ArtistConcert.date a) = true).
Proof.
  intros acd fs. unfold fs. destruct (run_ok_by_year db fs0 Hok) as [y Hy].
  rewrite export_to_json_effect. cbn [snd tree_after artist_details]. rewrite Hy.
  intros r Hr. apply In_artists_out in Hr. destruct Hr as (n & Hget & Hne & Hpos & Hr).
  destruct r as [rid rname rcount].
  cbn [ArtistRow.id ArtistRow.name ArtistRow.concert_count] in *.
  injection Hr as -> ->.
  pose proof (artist_detail_spec acd (artist_songs acd (setlists db)) rid n
                (all_concerts_data_NoDup db)) as Hspec.
  destruct (artist_detail acd (artist_songs acd (setlists db)) (rid, n)) as [ad|] eqn:Ead;
    [|fold acd in Hpos; lia].
  pose proof (@artist_detail_lists _ _ _ _ _ Ead) as Hlist.
  destruct Hspec as (H1 & H2 & _ & H4 & H5 & H6 & _ & H8).
  exists ad. split; [|do 5 (split; [assumption|]); split; [|split; [|exact H8]]].
  - apply put_files_get; [apply artist_files_NoDup|].
    unfold artist_files. apply in_flat_map. exists (rid, n).
    split; [now apply get_In|]. fold acd. rewrite Ead. now left.
  - intros ac Hac. apply Hlist, concerts_for_artist_iff in Hac.
    destruct Hac as (cid & c & Hin & Hsome).
    apply artist_concert_fields in Hsome. destruct Hsome as (Hid & Hdate & a & Hfind & Hrole).
    exists c, a. rewrite Hid.
    split; [apply In_get; [apply all_concerts_data_NoDup | exact Hin]|]. auto.
  - intros cid c Hc Hex. destruct (artist_concert_listed rid cid c Hex) as [ac Hsome].
    apply in_map_iff. exists ac.
    split; [apply artist_concert_fields in Hsome; tauto|].
    apply Hlist, concerts_for_artist_iff. exists cid, c.
    split; [now apply get_In | exact Hsome].
Qed.

Lemma artist_files_agree_with_index_witness :
  exists r ad,
    In r (artists_out Sample.two_shows (all_concerts_data Sample.two_shows)) /\
    PyDict.get (ArtistRow.id r ++ ".json")
      (artist_details (snd (export_to_json Sample.two_shows Sample.empty_fs))) = Some ad /\
    ArtistDetail.concert_count ad <= ArtistRow.concert_count r.
Proof.
  eexists.
  destruct (artist_files_agree_with_index Sample.two_shows Sample.empty_fs eq_refl
              _ (or_introl eq_refl))
    as (ad & Hget & _ & _ & _ & Hcount & _).
  exists ad. split; [left; reflexivity|]. split; [exact Hget | apply Hcount].
Defined.

(** ** The songs of an artist *)

Lemma get2_credit_ids_step (aid n n' : string) (t : Counts2) (art : Artist.t) :
  aid <> "" ->
  get2 aid n (credit_ids_step n' t art) =
  get2 aid n t + (if has_artist_id aid art && (n =? n')%string then 1 else 0).
Proof.
  intros Haid. unfold credit_ids_step, has_artist_id.
  destruct (Artist.artist_id art) as [x|]; [|simpl; lia].
  change (key_eqb (Some x) (Some aid)) with (x =? aid)%string.
  unfold truthy. destruct (String.eqb_spec x "") as [->|Hx]; cbn [negb].
  - destruct (String.eqb_spec "" aid); [congruence | simpl; lia].
  - rewrite get2_incr2, (String.eqb_sym aid x). reflexivity.
Qed.

Lemma get2_credit_ids (aid n n' : string) (primary : list Artist.t) :
  aid <> "" ->
  forall t,
    get2 aid n (fold_left (credit_ids_step n') primary t) =
    get2 aid n t +
    (if (n =? n')%string then len (filter (has_artist_id aid) primary) else 0).
Proof.
  intros Haid. induction primary as [|art primary IH]; intros t; simpl.
  - destruct (n =? n')%string; [change (len (@nil Artist.t)) with 0|]; lia.
  - rewrite IH, get2_credit_ids_step by exact Haid.
    destruct (has_artist_id aid art), (n =? n')%string; simpl; rewrite ?len_cons; lia.
Qed.

Lemma artist_songs_step_eq acd t s :
  artist_songs_step acd t s =
  match concert_of acd s with
  | Some c => fold_left (song_ids_step (primary_artists c)) (Setlist.songs s) t
  | None => t
  end.
Proof.
  unfold artist_songs_step. destruct (concert_of acd s) as [c|]; [|reflexivity].
  apply fold_left_eq. intros t' song. unfold song_ids_step, name_key.
  rewrite truthy_key_name.
  now destruct (get_or (Song.name song) "" =? "")%string.
Qed.

Lemma get2_song_ids_fold (aid n : string) primary songs :
  aid <> "" -> n <> "" ->
  forall t,
    get2 aid n (fold_left (song_ids_step primary) songs t) =
    get2 aid n t +
    len (filter (song_named n) songs) * len (filter (has_artist_id aid) primary).
Proof.
  intros Haid Hn. induction songs as [|song songs IH]; intros t; simpl.
  - change (len (@nil Song.t)) with 0. lia.
  - rewrite IH. unfold song_ids_step.
    destruct (song_named n song) eqn:En.
    + assert (Hk : name_key song = Some n) by (apply song_named_key; auto).
      rewrite Hk, get2_credit_ids, String.eqb_refl, len_cons by exact Haid. lia.
    + destruct (name_key song) as [n'|] eqn:Hk; [|lia].
      rewrite get2_credit_ids by exact Haid.
      destruct (String.eqb_spec n n') as [<-|]; [|lia].
      apply song_named_key in Hk. destruct Hk as [Hk _]. congruence.
Qed.

Lemma artist_songs_plays acd docs (aid n : string) :
  aid <> "" -> n <> "" ->
  get2 aid n (artist_songs acd docs) = plays acd docs aid n.
Proof.
  intros Haid Hn. unfold artist_songs, plays.
  assert (H : forall t,
    get2 aid n (fold_left (artist_songs_step acd) docs t) =
    get2 aid n t +
    zsum (map (fun s => match concert_of acd s with
                        | Some c => len (filter (song_named n) (Setlist.songs s))
                                    * len (filter (has_artist_id aid) (primary_artists c))
                        | None => 0
                        end) docs)).
  { induction docs as [|s docs IH]; intros t; simpl.
    - unfold zsum. simpl. lia.
    - rewrite IH, zsum_cons, artist_songs_step_eq.
      destruct (concert_of acd s) as [c|]; [|lia].
      rewrite get2_song_ids_fold by assumption. lia. }
  rewrite H. unfold get2. simpl. lia.
Qed.

Lemma names_nonempty_incr2 (a n : string) (t : Counts2) :
  n <> "" -> names_nonempty t -> names_nonempty (incr2 a n t).
Proof.
  intros Hn Ht a' d' Hin. unfold incr2, PyDict.upd in Hin. apply In_set in Hin.
  destruct Hin as [[-> ->]|Hin]; [|eauto].
  unfold incr, PyDict.upd. rewrite keys_set_In. intros [E|Hin]; [congruence|].
  destruct (@PyDict.get string (list (string * Z)) _ a t) as [d|] eqn:E.
  - apply get_In in E. exact (Ht a d E Hin).
  - exact Hin.
Qed.

Lemma artist_songs_invariant acd docs (aid : string) :
  let t := artist_songs acd docs in
  wf2 t /\ names_nonempty t /\
  ((forall s c a, In s docs -> concert_of acd s = Some c -> In a (primary_artists c) ->
      has_artist_id aid a = false) ->
   PyDict.get aid t = None).
Proof.
  unfold artist_songs.
  assert (Hids : forall n primary t,
    n <> "" -> (wf2 t /\ names_nonempty t) ->
    (wf2 (fold_left (credit_ids_step n) primary t) /\
     names_nonempty (fold_left (credit_ids_step n) primary t)) /\
    ((forall a, In a primary -> has_artist_id aid a = false) ->
     PyDict.get aid (fold_left (credit_ids_step n) primary t) = PyDict.get aid t)).
  { intros n primary. induction primary as [|art primary IH]; intros t Hn [Hw Hne]; simpl.
    - auto.
    - assert (Hstep : (wf2 (credit_ids_step n t art) /\
                       names_nonempty (credit_ids_step n t art)) /\
                      (has_artist_id aid art = false ->
                       PyDict.get aid (credit_ids_step n t art) = PyDict.get aid t)).
      { unfold credit_ids_step, has_artist_id. destruct (Artist.artist_id art) as [x|]; [|auto].
        destruct (truthy (Some x)); [|auto]. split.
        - split; [now apply wf2_incr2 | now apply names_nonempty_incr2].
        - intros Hx. change (key_eqb (Some x) (Some aid)) with (x =? aid)%string in Hx.
          apply String.eqb_neq in Hx. unfold incr2. apply get_upd_other. congruence. }
      destruct Hstep as [Hinv Hget]. destruct (IH _ Hn Hinv) as [Hinv' Hget'].
      split; [exact Hinv'|]. intros Hall. rewrite Hget' by (intros a Ha; apply Hall; now right).
      apply Hget. apply Hall. now left. }
  assert (Hsongs : forall primary songs t,
    (wf2 t /\ names_nonempty t) ->
    (wf2 (fold_left (song_ids_step primary) songs t) /\
     names_nonempty (fold_left (song_ids_step primary) songs t)) /\
    ((forall a, In a primary -> has_artist_id aid a = false) ->
     PyDict.get aid (fold_left (song_ids_step primary) songs t) = PyDict.get aid t)).
  { intros primary songs. induction songs as [|song songs IH]; intros t Hinv; simpl; [auto|].
    assert (Hstep : (wf2 (song_ids_step primary t song) /\
                     names_nonempty (song_ids_step primary t song)) /\
                    ((forall a, In a primary -> has_artist_id aid a = false) ->
                     PyDict.get aid (song_ids_step primary t song) = PyDict.get aid t)).
    { unfold song_ids_step. destruct (name_key song) as [n|] eqn:Hk; [|auto].
      apply Hids; [|exact Hinv]. apply song_named_key in Hk. tauto. }
    destruct Hstep as [Hinv1 Hget1]. destruct (IH _ Hinv1) as [Hinv2 Hget2].
    split; [exact Hinv2|]. intros Hall. rewrite Hget2, Hget1; auto. }
  assert (Hdocs : forall t,
    (wf2 t /\ names_nonempty t) ->
    (wf2 (fold_left (artist_songs_step acd) docs t) /\
     names_nonempty (fold_left (artist_songs_step acd) docs t)) /\
    ((forall s c a, In s docs -> concert_of acd s = Some c -> In a (primary_artists c) ->
        has_artist_id aid a = false) ->
     PyDict.get aid (fold_left (artist_songs_step acd) docs t) = PyDict.get aid t)).
  { induction docs as [|s docs IH]; intros t Hinv; simpl; [auto|].
    rewrite artist_songs_step_eq. destruct (concert_of acd s) as [c|] eqn:Ec.
    - destruct (Hsongs (primary_artists c) (Setlist.songs s) t Hinv) as [Hinv1 Hget1].
      destruct (IH _ Hinv1) as [Hinv2 Hget2]. split; [exact Hinv2|].
      intros Hall. rewrite Hget2 by (intros s' c' a Hs'; apply Hall; now right).
      apply Hget1. intros a Ha. apply (Hall s c a); auto.
    - destruct (IH _ Hinv) as [Hinv2 Hget2]. split; [exact Hinv2|].
      intros Hall. apply Hget2. intros s' c' a Hs'. apply Hall. now right. }
  destruct (Hdocs [] (conj wf2_nil (fun a d (H : In (a, d) []) => False_ind _ H)))
    as [[Hw Hne] Hget].
  cbv zeta. split; [exact Hw|]. split; [exact Hne|]. intros Hall.
  rewrite Hget by exact Hall. reflexivity.
Qed.

Lemma NoDup_firstn {A} (n : nat) (l : list A) : NoDup l -> NoDup (firstn n l).
Proof.
  intros Hnd. rewrite <- (firstn_skipn n l) in Hnd. now apply NoDup_app_remove_r in Hnd.
Qed.

Lemma top_songs_spec acd docs (aid : string) :
  aid <> "" ->
  let l := top_songs (artist_songs acd docs) aid in
  (List.length l <= 10)%nat /\ descending l /\ NoDup (map fst l) /\
  (forall n k, In (n, k) l -> n <> "" /\ k = plays acd docs aid n) /\
  ((forall c a, In c (PyDict.values acd) -> In a (primary_artists c) ->
      has_artist_id aid a = false) -> l = []).
Proof.
  intros Haid l. unfold l, top_songs, take.
  destruct (artist_songs_invariant acd docs aid) as ([Hnd Hinner] & Hne & Hnone).
  set (t := artist_songs acd docs) in *.
  set (d := get_or (PyDict.get aid t) []).
  assert (Hd : NoDup (PyDict.keys d) /\ ~ In "" (PyDict.keys d)).
  { unfold d. destruct (PyDict.get aid t) as [d0|] eqn:E; simpl.
    - apply get_In in E. split; [eapply Hinner | eapply Hne]; eauto.
    - split; [constructor | tauto]. }
  destruct Hd as [Hdnd Hdne].
  assert (Hperm : Permutation d (sorted_desc snd d)) by apply sorted_by_perm.
  split; [apply firstn_le_length|]. split; [|split; [|split]].
  - intros l1 x l2 y E Hy.
    pose proof (sorted_desc_descending d) as Hdesc. unfold descending in Hdesc.
    apply (Hdesc l1 x (l2 ++ skipn 10 (sorted_desc snd d))%list y).
    + rewrite <- (firstn_skipn 10 (sorted_desc snd d)) at 1. rewrite E.
      now rewrite <- app_assoc.
    + apply in_app_iff. now left.
  - rewrite <- firstn_map. apply NoDup_firstn.
    eapply Permutation_NoDup; [apply Permutation_map; exact Hperm | exact Hdnd].
  - intros n k Hin0.
    assert (Hin : In (n, k) (sorted_desc snd d)).
    { rewrite <- (firstn_skipn 10 (sorted_desc snd d)). apply in_app_iff. now left. }
    clear Hin0. apply (Permutation_in _ (Permutation_sym Hperm)) in Hin.
    assert (Hn : n <> "").
    { intros ->. apply Hdne. apply in_map_iff. now exists ("", k). }
    split; [exact Hn|]. rewrite <- (artist_songs_plays acd docs Haid Hn).
    fold t. unfold get2. fold d. now rewrite (In_get _ _ _ Hdnd Hin).
  - intros Hall. unfold d. rewrite Hnone; [reflexivity|].
    intros s c a _ Hc Ha. apply (Hall c a); [|exact Ha].
    unfold concert_of in Hc. destruct (Setlist.concert_id s) as [cid|]; [|discriminate].
    apply get_In in Hc. apply in_map_iff. now exists (cid, c).
Qed.

(** X15. After a run that returns, the [top_songs] of the artist file of
    an entry of [artists.json] hold at most 10 songs with distinct
    non-empty names, most played first; the count of a song is the number
    of pairs of an occurrence of it, in a setlist that is not orphaned,
    and a primary roster entry with the artist's id of that setlist's
    concert.  An artist who is on no loaded roster as headliner or
    festival performer has no top songs. *)
Theorem artist_file_top_songs (db : Db) (fs0 : FS)
    (Hok : fst (export_to_json db fs0) = inr tt) :
  let acd := all_concerts_data db in
  let fs := snd (export_to_json db fs0) in
  forall r, In r (artists_out db acd) ->
    exists ad,
      PyDict.get (ArtistRow.id r ++ ".json") (artist_details fs) = Some ad /\
      (List.length (ArtistDetail.top_songs ad) <= 10)%nat /\
      descending (ArtistDetail.top_songs ad) /\
      NoDup (map fst (ArtistDetail.top_songs ad)) /\
      (forall n k, In (n, k) (ArtistDetail.top_songs ad) ->
         n <> "" /\ k = plays acd (setlists db) (ArtistRow.id r) n) /\
      ((forall c a, In c (PyDict.values acd) -> In a (primary_artists c) ->
          has_artist_id (ArtistRow.id r) a = false) ->
       ArtistDetail.top_songs ad = []).
Proof.
  intros acd fs. unfold fs. destruct (run_ok_by_year db fs0 Hok) as [y Hy].
  rewrite export_to_json_effect. cbn [snd tree_after artist_details]. rewrite Hy.
  intros r Hr. apply In_artists_out in Hr. destruct Hr as (n & Hget & Hne & Hpos & Hr).
  destruct r as [rid rname rcount].
  cbn [ArtistRow.id ArtistRow.name ArtistRow.concert_count] in *.
  injection Hr as -> ->.
  pose proof (artist_detail_spec acd (artist_songs acd (setlists db)) rid n
                (all_concerts_data_NoDup db)) as Hspec.
  destruct (artist_detail acd (artist_songs acd (setlists db)) (rid, n)) as [ad|] eqn:Ead;
    [|fold acd in Hpos; lia].
  destruct Hspec as (_ & _ & Htop & _).
  exists ad. split.
  - apply put_files_get; [apply artist_files_NoDup|].
    unfold artist_files. apply in_flat_map. exists (rid, n).
    split; [now apply get_In|]. fold acd. rewrite Ead. now left.
  - rewrite Htop. exact (top_songs_spec acd (setlists db) Hne).
Qed.

Lemma artist_file_top_songs_witness :
  exists r ad,
    In r (artists_out Sample.two_shows (all_concerts_data Sample.two_shows)) /\
    PyDict.get (ArtistRow.id r ++ ".json")
      (artist_details (snd (export_to_json Sample.two_shows Sample.empty_fs))) = Some ad /\
    (List.length (ArtistDetail.top_songs ad) <= 10)%nat.
Proof.
  eexists.
  destruct (artist_file_top_songs Sample.two_shows Sample.empty_fs eq_refl
              _ (or_introl eq_refl))
    as (ad & Hget & Hlen & _).
  exists ad. split; [left; reflexivity|]. split; [exact Hget | exact Hlen].
Defined.

(** ** Years *)

(** ** The year of a date *)

(** [len] and the slice count code points: ["é12"] has 3 characters in 4
    bytes, and the first 4 characters of ["é2024"] are ["é202"]. *)
Example len_counts_code_points :
  py_len (String (chr 195) (String (chr 169) "12")) = 3%nat /\
  py_prefix 4 (String (chr 195) (String (chr 169) "2024")) =
    String (chr 195) (String (chr 169) "202").
Proof. split; reflexivity. Qed.

(** [int] drops blanks but not the separator 31, takes a no-break space
    for a blank and Arabic-Indic digits for digits. *)
Example int_on_blanks_and_digits :
  py_int " 202" = Some 202 /\
  py_int (String (chr 31) "202") = None /\
  py_int (String (chr 194) (String (chr 160) "202")) = Some 202 /\
  py_int (string_of_list_ascii
            (map chr [217; 161; 217; 169; 217; 169; 217; 169])) = Some 1999 /\
  py_int "1_9" = Some 19 /\ py_int "-12" = Some (-12) /\ py_int "abcd" = None.
Proof. repeat split; reflexivity. Qed.

Lemma digit_not_space (c : ascii) : is_digit c = true -> is_space c = false.
Proof.
  unfold is_digit, digit_of, is_space.
  destruct (Nat.leb_spec 48 (nat_of_ascii c)), (Nat.leb_spec (nat_of_ascii c) 57);
    simpl; try discriminate. intros _.
  destruct (Nat.leb_spec 9 (nat_of_ascii c)), (Nat.leb_spec (nat_of_ascii c) 13),
           (Nat.eqb_spec (nat_of_ascii c) 32);
    simpl; try reflexivity; lia.
Qed.

Lemma digit_is_ascii (c : ascii) :
  is_digit c = true -> (byte_of c <? 128) = true /\ is_continuation c = false.
Proof.
  unfold is_digit, digit_of, is_continuation, byte_of.
  destruct (Nat.leb_spec 48 (nat_of_ascii c)), (Nat.leb_spec (nat_of_ascii c) 57);
    simpl; try discriminate. intros _.
  split; [apply Z.ltb_lt; lia|].
  apply andb_false_iff. left. apply Z.leb_gt. lia.
Qed.

Lemma digits_are_ascii (s : string) :
  all_digits s = true -> decimal_and_space_to_ascii s = s.
Proof.
  intros Hs. unfold decimal_and_space_to_ascii.
  replace (is_ascii s) with true; [reflexivity|].
  symmetry. induction s as [|c s IH]; [reflexivity|].
  simpl in Hs. apply andb_true_iff in Hs. destruct Hs as [Hc Hs].
  cbn [is_ascii]. rewrite (proj1 (digit_is_ascii c Hc)). now apply IH.
Qed.

Lemma count_digits_len (s : string) : all_digits s = true -> count_digits s = py_len s.
Proof.
  induction s as [|c s IH]; [reflexivity|].
  intros Hs. simpl in Hs. apply andb_true_iff in Hs. destruct Hs as [Hc Hs].
  cbn [count_digits py_len]. rewrite (proj2 (digit_is_ascii c Hc)).
  unfold is_digit in Hc. destruct (digit_of c); [|discriminate].
  now rewrite (IH Hs).
Qed.

Lemma py_len_prefix (n : nat) (s : string) : (py_len (py_prefix n s) <= n)%nat.
Proof.
  revert n. induction s as [|c s IH]; intros n; cbn [py_prefix py_len]; [lia|].
  destruct (is_continuation c) eqn:Ec.
  - cbn [py_len]. rewrite Ec. apply IH.
  - destruct n as [|m]; cbn [py_len]; [lia|]. rewrite Ec. specialize (IH m). lia.
Qed.

Lemma rstrip_digits (s : string) : all_digits s = true -> rstrip s = s.
Proof.
  induction s as [|c s IH]; simpl; [reflexivity|].
  intros H. apply andb_true_iff in H. destruct H as [Hc Hs].
  rewrite (IH Hs). destruct s; [|reflexivity].
  now rewrite (digit_not_space c Hc).
Qed.

Lemma lstrip_digits (s : string) : all_digits s = true -> lstrip s = s.
Proof.
  destruct s as [|c s]; simpl; [reflexivity|].
  intros H. apply andb_true_iff in H. destruct H as [Hc _].
  now rewrite (digit_not_space c Hc).
Qed.

Lemma digits_total (s : string) :
  forall acc b, all_digits s = true -> 0 <= acc -> (b = true \/ s <> "") ->
    exists z, digits acc b s = Some z /\ 0 <= z.
Proof.
  induction s as [|c s IH]; intros acc b Hs Hacc Hb; cbn [digits].
  - destruct Hb as [->|Hb]; [eauto | congruence].
  - simpl in Hs. apply andb_true_iff in Hs. destruct Hs as [Hc Hs].
    unfold is_digit in Hc. destruct (digit_of c) as [d|] eqn:Ed; [|discriminate].
    apply IH; auto.
    unfold digit_of in Ed. cbv zeta in Ed.
    destruct ((48 <=? nat_of_ascii c)%nat && (nat_of_ascii c <=? 57)%nat); [|discriminate].
    injection Ed as <-. pose proof (Nat2Z.is_nonneg (nat_of_ascii c - 48)). lia.
Qed.

Lemma py_int_digits (s : string) :
  s <> "" -> all_digits s = true -> (py_len s <= 4300)%nat ->
  exists z, py_int s = Some z /\ 0 <= z.
Proof.
  intros Hne Hs Hlen. unfold py_int. cbv zeta.
  rewrite (digits_are_ascii s Hs), (lstrip_digits s Hs), (rstrip_digits s Hs).
  rewrite (count_digits_len s Hs).
  replace ((4300 <? py_len s)%nat) with false by (symmetry; apply Nat.ltb_ge; exact Hlen).
  destruct s as [|c r]; [congruence|].
  assert (Hc : is_digit c = true) by (simpl in Hs; now apply andb_true_iff in Hs).
  destruct (@digits_total (String c r) 0 false Hs) as (z & Hz & Hpos);
    [lia | right; discriminate |].
  exists z. split; [|exact Hpos]. rewrite <- Hz. clear - Hc.
  destruct c as [b0 b1 b2 b3 b4 b5 b6 b7].
  destruct b0, b1, b2, b3, b4, b5, b6, b7; try reflexivity; vm_compute in Hc; discriminate.
Qed.

Lemma year_text_nonempty (c : Concert.t) : dated c = true -> year_text c <> "".
Proof.
  unfold dated, year_text. destruct (get_or (Concert.date c) "") as [|x s]; simpl.
  - discriminate.
  - intros _. destruct (is_continuation x); discriminate.
Qed.

Lemma year_text_short (c : Concert.t) : (py_len (year_text c) <= 4300)%nat.
Proof.
  unfold year_text.
  pose proof (py_len_prefix 4 (get_or (Concert.date c) "")). lia.
Qed.

(** X16. If the date of every loaded concert is empty, shorter than 4
    characters, or starts with four ASCII digits, the run returns
    normally: [int] accepts every such prefix, as a year that is not
    negative. *)
Theorem digit_years_never_abort (db : Db) (fs0 : FS)
    (Hdates : forall c, In c (PyDict.values (all_concerts_data db)) ->
                dated c = true -> all_digits (year_text c) = true) :
  fst (export_to_json db fs0) = inr tt /\
  forall c, In c (PyDict.values (all_concerts_data db)) -> dated c = true ->
    exists y, py_int (year_text c) = Some y /\ 0 <= y.
Proof.
  assert (Hparse : forall c, In c (PyDict.values (all_concerts_data db)) -> dated c = true ->
            exists y, py_int (year_text c) = Some y /\ 0 <= y).
  { intros c Hc Hd.
    apply py_int_digits;
      [now apply year_text_nonempty | now apply Hdates | apply year_text_short]. }
  split; [|exact Hparse].
  rewrite export_to_json_effect. cbn [fst]. unfold outcome, by_year.
  assert (Hok : exists y, by_year_from (PyDict.values (all_concerts_data db)) [] = inr y).
  { apply by_year_from_ok. intros c Hc Hd.
    destruct (Hparse c Hc Hd) as (y & Hy & _). congruence. }
  destruct Hok as [y Hy]. now rewrite Hy.
Qed.

Lemma digit_years_never_abort_witness :
  fst (export_to_json Sample.two_shows Sample.empty_fs) = inr tt.
Proof.
  apply (digit_years_never_abort Sample.two_shows Sample.empty_fs).
  intros c [<-|[<-|[]]] _; reflexivity.
Defined.
